(** * Incident form builder: the markdown compiler of the DOCX generator,
      the editor synchronisation of the rich-text area, the form page and
      the enhance route

    Shallow embedding of [src/lib/docx-generator.ts] (the inline run parser
    [parseInlineMarkdown], the line compiler [parseMarkdownToParagraphs], the
    attachment and impact lines of [generateIncidentReportDocx], the guards
    of [formatDate] / [formatDateTime] and the dates of the host they hand
    their input to, the content boxes and the incident table), of the
    synchronisation logic of the [RichTextArea] component, of
    the state handlers of the form page (impact selection, guiding
    questions, attachments, download) and of the route
    [api/ai/enhance/route.ts].

    Strings are sequences of UTF-16 code units, regular expressions are run
    by a backtracking matcher, the objects of the docx library are records,
    the component is a state machine over its two refs, and the route is a
    function of what its environment answers. *)

From Stdlib Require Import String Ascii NArith ZArith Bool Arith Lia List.
Import ListNotations.

(* ================================================================== *)
(** ** The JavaScript strings the code works on *)
(* ================================================================== *)

Module JS.

(** A JavaScript string is a sequence of UTF-16 code units. *)
Definition char := N.
Definition jsstring := list char.

(** Source literals: every literal of the code but the em dash is ASCII. *)
Fixpoint str (s : string) : jsstring :=
  match s with
  | EmptyString => []
  | String a s' => N_of_ascii a :: str s'
  end.

Definition chr (a : ascii) : char := N_of_ascii a.

Definition isChar (a : ascii) (c : char) : bool := N.eqb c (chr a).

Fixpoint eqb (a b : jsstring) : bool :=
  match a, b with
  | [], [] => true
  | x :: a', y :: b' => N.eqb x y && eqb a' b'
  | _, _ => false
  end.

(** Truthiness of a string: only the empty string is falsy. *)
Definition truthy (s : jsstring) : bool :=
  match s with [] => false | _ :: _ => true end.

(** [a || b] on strings. *)
Definition or_else (a b : jsstring) : jsstring :=
  if truthy a then a else b.

(** Line terminators: LF, CR, LS, PS.  The regular-expression dot does not
    match them. *)
Definition isLineTerminator (c : char) : bool :=
  existsb (N.eqb c) [10; 13; 8232; 8233]%N.

(** White space of [String.prototype.trim] and of the class [\s]:
    TAB, LF, VT, FF, CR, SP, NBSP, U+1680, U+2000..U+200A, LS, PS, U+202F,
    U+205F, U+3000 and the BOM. *)
Definition isWhiteSpace (c : char) : bool :=
  existsb (N.eqb c)
    [9; 10; 11; 12; 13; 32; 160; 5760; 8232; 8233; 8239; 8287; 12288; 65279]%N
  || (N.leb 8192 c && N.leb c 8202).

Definition isDigit (c : char) : bool := N.leb 48 c && N.leb c 57.

Definition isUpper (c : char) : bool := N.leb 65 c && N.leb c 90.
Definition isLower (c : char) : bool := N.leb 97 c && N.leb c 122.

(** [toLowerCase] on one code unit.  The code applies it to the capture of
    [[a-z]] under the [i] flag, an ASCII letter. *)
Definition toLowerCase (c : char) : char :=
  if isUpper c then (c + 32)%N else c.

Fixpoint trimStart (s : jsstring) : jsstring :=
  match s with
  | [] => []
  | c :: s' => if isWhiteSpace c then trimStart s' else s
  end.

Definition trimEnd (s : jsstring) : jsstring := rev (trimStart (rev s)).

Definition trim (s : jsstring) : jsstring := trimEnd (trimStart s).

(** [s.split(sep)] for a one-character separator. *)
Fixpoint split (sep : char) (s : jsstring) : list jsstring :=
  match s with
  | [] => [[]]
  | c :: s' =>
      if N.eqb c sep then [] :: split sep s'
      else match split sep s' with
           | l :: ls => (c :: l) :: ls
           | [] => [[c]]
           end
  end.

Fixpoint startsWith (s p : jsstring) {struct p} : bool :=
  match p with
  | [] => true
  | x :: p' =>
      match s with
      | y :: s' => N.eqb x y && startsWith s' p'
      | [] => false
      end
  end.

Definition substring (s : jsstring) (k : nat) : jsstring := skipn k s.

(** [arr.join(sep)]. *)
Fixpoint join (sep : jsstring) (l : list jsstring) : jsstring :=
  match l with
  | [] => []
  | [x] => x
  | x :: l' => x ++ sep ++ join sep l'
  end.

(** Decimal rendering of a non-negative integer, as a template literal
    does it. *)
Fixpoint digits (u : Decimal.uint) : jsstring :=
  match u with
  | Decimal.Nil => []
  | Decimal.D0 u' => 48%N :: digits u'
  | Decimal.D1 u' => 49%N :: digits u'
  | Decimal.D2 u' => 50%N :: digits u'
  | Decimal.D3 u' => 51%N :: digits u'
  | Decimal.D4 u' => 52%N :: digits u'
  | Decimal.D5 u' => 53%N :: digits u'
  | Decimal.D6 u' => 54%N :: digits u'
  | Decimal.D7 u' => 55%N :: digits u'
  | Decimal.D8 u' => 56%N :: digits u'
  | Decimal.D9 u' => 57%N :: digits u'
  end.

Definition Number_toString (n : N) : jsstring := digits (N.to_uint n).

End JS.

Import JS.

(* ================================================================== *)
(** ** Regular expressions: the backtracking matcher *)
(* ================================================================== *)

(** The six patterns of the code are sequences of a character class, a
    quantified character class (greedy or lazy), a capturing group, a
    negative look-behind or look-ahead on one character, and the anchors.
    The matcher is the continuation-passing backtracking matcher of the
    language definition, restricted to these forms. *)
Module RegExp.

Inductive re : Type :=
| Chr (p : char -> bool)
| Seq (r1 r2 : re)
| Grp (r : re)
| Rep (greedy : bool) (min : nat) (p : char -> bool)
| NotBehind (p : char -> bool)
| NotAhead (p : char -> bool)
| Bol
| Eol.

(** Matcher state: the code unit before the current position (none at
    index 0), the input from the current position on, the captures closed
    so far (the groups of the patterns are not nested: they close in the
    order they open). *)
Record mstate : Type := MState
  { prev : option char; rest : jsstring; caps : list jsstring }.

Definition cont := mstate -> option mstate.

(** A quantified class: [need] more repetitions are required before the
    continuation may run.  Greedy takes one more first and falls back to the
    continuation; lazy tries the continuation first. *)
Fixpoint rep (greedy : bool) (p : char -> bool) (k : cont) (need : nat)
    (pv : option char) (s : jsstring) (cs : list jsstring) {struct s}
  : option mstate :=
  let stop (_ : unit) :=
    match need with
    | O => k (MState pv s cs)
    | S _ => None
    end in
  let more (_ : unit) :=
    match s with
    | c :: s' =>
        if p c then rep greedy p k (Nat.pred need) (Some c) s' cs else None
    | [] => None
    end in
  if greedy
  then match more tt with Some r => Some r | None => stop tt end
  else match stop tt with Some r => Some r | None => more tt end.

Fixpoint m (r : re) (k : cont) (st : mstate) {struct r} : option mstate :=
  match r with
  | Chr p =>
      match rest st with
      | c :: s' => if p c then k (MState (Some c) s' (caps st)) else None
      | [] => None
      end
  | Seq r1 r2 => m r1 (m r2 k) st
  | Grp r1 =>
      m r1
        (fun st' =>
           k (MState (prev st') (rest st')
                (caps st' ++
                   [firstn (length (rest st) - length (rest st')) (rest st)])))
        st
  | Rep g n p => rep g p k n (prev st) (rest st) (caps st)
  | NotBehind p =>
      match prev st with
      | Some c => if p c then None else k st
      | None => k st
      end
  | NotAhead p =>
      match rest st with
      | c :: _ => if p c then None else k st
      | [] => k st
      end
  | Bol => match prev st with None => k st | Some _ => None end
  | Eol => match rest st with [] => k st | _ :: _ => None end
  end.

(** [s.match(r)] for a pattern without the [g] flag that begins with [^]:
    only index 0 can match.  The result is the array
    [[match[0]; match[1]; ...]]. *)
Definition RegExpMatchArray := list jsstring.

Definition exec (r : re) (s : jsstring) : option RegExpMatchArray :=
  match m r (fun st => Some st) (MState None s []) with
  | Some st => Some (firstn (length s - length (rest st)) s :: caps st)
  | None => None
  end.

Definition get (a : RegExpMatchArray) (i : nat) : jsstring := nth i a [].

(** The dot: any code unit but a line terminator. *)
Definition dot (c : char) : bool := negb (isLineTerminator c).

Definition lit (a : ascii) : re := Chr (isChar a).

Definition isNot (a : ascii) (c : char) : bool := negb (isChar a c).

End RegExp.

Import RegExp.

Infix ";;" := Seq (at level 61, right associativity).

(* ================================================================== *)
(** ** The records of the docx library the code builds *)
(* ================================================================== *)

Module Docx.

(** [new TextRun({ text, bold, italics, size, color })]; an option the code
    leaves out is [false] / [None]. *)
Record TextRun : Type := MkRun
  { text : jsstring;
    bold : bool;
    italics : bool;
    size : option N;
    color : option jsstring }.

(** [new Paragraph({ children, bullet: { level }, indent: { left },
    spacing: { before, after } })].  [indent_left] keeps the argument of
    [convertInchesToTwip] in hundredths of an inch; the conversion is the
    library's. *)
Record Paragraph : Type := MkPara
  { children : list TextRun;
    bullet : option N;
    indent_left : option N;
    spacing_before : option N;
    spacing_after : option N }.

(** The text a paragraph shows: its runs one after the other. *)
Definition lineText (p : Paragraph) : jsstring :=
  concat (map text (children p)).

End Docx.

Import Docx.

(* ================================================================== *)
(** ** docx-generator.ts *)
(* ================================================================== *)

Definition black : option jsstring := Some (str "000000").
Definition muted : option jsstring := Some (str "9ca3af").

(** *** parseInlineMarkdown *)

(** [boldMatch]: the pattern  ^ (.*?) \* \* (.+?) \* \*  (tokens spaced out). *)
Definition boldRe : re :=
  Bol ;; Grp (Rep false 0 dot) ;; lit "*" ;; lit "*" ;;
  Grp (Rep false 1 dot) ;; lit "*" ;; lit "*".

(** [boldMatch2]: the pattern  ^ (.*?) _ _ (.+?) _ _ . *)
Definition boldRe2 : re :=
  Bol ;; Grp (Rep false 0 dot) ;; lit "_" ;; lit "_" ;;
  Grp (Rep false 1 dot) ;; lit "_" ;; lit "_".

(** [italicMatch]: the pattern  ^ (.*?) (?<! \* ) \* ( [^*]+ ) \* (?! \* ) . *)
Definition italicRe : re :=
  Bol ;; Grp (Rep false 0 dot) ;; NotBehind (isChar "*") ;; lit "*" ;;
  Grp (Rep true 1 (isNot "*")) ;; lit "*" ;; NotAhead (isChar "*").

(** [italicMatch2]: the pattern  ^ (.*?) (?<! _ ) _ ( [^_]+ ) _ (?! _ ) . *)
Definition italicRe2 : re :=
  Bol ;; Grp (Rep false 0 dot) ;; NotBehind (isChar "_") ;; lit "_" ;;
  Grp (Rep true 1 (isNot "_")) ;; lit "_" ;; NotAhead (isChar "_").

Inductive spanType : Type := bold_span | italic_span.

Record candidate : Type := MkCand
  { type : spanType; match_ : RegExpMatchArray; index : nat }.

Definition mkCandidate (ty : spanType) (mo : option RegExpMatchArray)
  : option candidate :=
  match mo with
  | Some a => Some (MkCand ty a (length (get a 1)))
  | None => None
  end.

(** [[...].filter(Boolean)] *)
Fixpoint filterBoolean (l : list (option candidate)) : list candidate :=
  match l with
  | [] => []
  | Some c :: l' => c :: filterBoolean l'
  | None :: l' => filterBoolean l'
  end.

(** The candidate array, in the order of the array literal. *)
Definition candidates (boldMatch boldMatch2 italicMatch italicMatch2
                       : option RegExpMatchArray) : list candidate :=
  filterBoolean
    [ mkCandidate bold_span boldMatch;
      mkCandidate bold_span boldMatch2;
      mkCandidate italic_span italicMatch;
      mkCandidate italic_span italicMatch2 ].

(** [candidates.sort((a, b) => a.index - b.index)]: the sort of an array is
    stable, elements of equal index keep their order. *)
Fixpoint insertByIndex (c : candidate) (l : list candidate) : list candidate :=
  match l with
  | [] => [c]
  | d :: l' => if index c <=? index d then c :: l else d :: insertByIndex c l'
  end.

Fixpoint sortByIndex (l : list candidate) : list candidate :=
  match l with
  | [] => []
  | c :: l' => insertByIndex c (sortByIndex l')
  end.

(** [firstMatch]: [candidates[0]] after the sort, [null] for no candidate. *)
Definition selectFirst (cands : list candidate) : option candidate :=
  hd_error (sortByIndex cands).

Definition firstMatch (remaining : jsstring) : option candidate :=
  selectFirst
    (candidates (exec boldRe remaining) (exec boldRe2 remaining)
       (exec italicRe remaining) (exec italicRe2 remaining)).

Definition plainRun (t : jsstring) : TextRun :=
  MkRun t false false (Some 20%N) black.
Definition boldRun (t : jsstring) : TextRun :=
  MkRun t true false (Some 20%N) black.
Definition italicRun (t : jsstring) : TextRun :=
  MkRun t false true (Some 20%N) black.

(** The [while (remaining.length > 0)] loop; [fuel] bounds the number of
    iterations, [None] is a loop that ran out of it. *)
Fixpoint inlineLoop (fuel : nat) (remaining : jsstring) (runs : list TextRun)
  : option (list TextRun) :=
  match remaining with
  | [] => Some runs
  | _ :: _ =>
      match fuel with
      | O => None
      | S fuel' =>
          match firstMatch remaining with
          | Some fm =>
              let mt := match_ fm in
              let beforeText := get mt 1 in
              let formattedText := get mt 2 in
              let runs1 :=
                if truthy beforeText then runs ++ [plainRun beforeText]
                else runs in
              let runs2 :=
                runs1 ++ [match type fm with
                          | bold_span => boldRun formattedText
                          | italic_span => italicRun formattedText
                          end] in
              inlineLoop fuel' (substring remaining (length (get mt 0))) runs2
          | None => Some (runs ++ [plainRun remaining])
          end
      end
  end.

(** Every iteration takes at least one code unit off [remaining], so
    [length text] iterations are enough ([inlineLoop_returns] below). *)
Definition parseInlineMarkdown (text : jsstring) : list TextRun :=
  let runs :=
    match inlineLoop (length text) text [] with
    | Some runs => runs
    | None => []
    end in
  match runs with
  | _ :: _ => runs
  | [] => [plainRun text]
  end.

(** *** parseMarkdownToParagraphs *)

(** [numberedMatch]: the pattern  ^ (\d+) \. \s+ ( .* ) $ . *)
Definition numberedRe : re :=
  Bol ;; Grp (Rep true 1 isDigit) ;; lit "." ;; Rep true 1 isWhiteSpace ;;
  Grp (Rep true 0 dot) ;; Eol.

(** [subItemMatch]: the pattern  ^ ([a-z]) [.)] \s+ ( .* ) $  with the
    [i] flag: without the [u] flag, [[a-z]] under [i]
    matches the ASCII letters of both cases and nothing else. *)
Definition subItemRe : re :=
  Bol ;; Grp (Chr (fun c => isLower c || isUpper c)) ;;
  Chr (fun c => isChar "." c || isChar ")" c) ;;
  Rep true 1 isWhiteSpace ;; Grp (Rep true 0 dot) ;; Eol.

(** The branch of the callback a trimmed line takes, with what the branch
    reads off the line.  The tests are made in this order. *)
Inductive Block : Type :=
| Blank
| Heading3 (t : jsstring)
| Heading2 (t : jsstring)
| Heading1 (t : jsstring)
| Bullet (content : jsstring)
| Ordered (content : jsstring)
| LetteredSub (letter content : jsstring)
| Para (t : jsstring).

Definition classify (trimmedLine : jsstring) : Block :=
  if negb (truthy trimmedLine) then Blank
  else if startsWith trimmedLine (str "### ") then
    Heading3 (substring trimmedLine 4)
  else if startsWith trimmedLine (str "## ") then
    Heading2 (substring trimmedLine 3)
  else if startsWith trimmedLine (str "# ") then
    Heading1 (substring trimmedLine 2)
  else if startsWith trimmedLine (str "- ") || startsWith trimmedLine (str "* ")
  then Bullet (substring trimmedLine 2)
  else
    match exec numberedRe trimmedLine with
    | Some numberedMatch => Ordered (get numberedMatch 2)
    | None =>
        match exec subItemRe trimmedLine with
        | Some subItemMatch =>
            LetteredSub (map toLowerCase (get subItemMatch 1))
              (get subItemMatch 2)
        | None => Para trimmedLine
        end
    end.

Definition headingRun (t : jsstring) (sz : N) : TextRun :=
  MkRun t true false (Some sz) black.

(** The paragraph a branch pushes and the value of [currentListNumber]
    after it. *)
Definition render (currentListNumber : N) (b : Block) : Paragraph * N :=
  match b with
  | Blank =>
      (MkPara [] None None None (Some 100%N), currentListNumber)
  | Heading3 t =>
      (MkPara [headingRun t 22] None None (Some 150%N) (Some 80%N),
       currentListNumber)
  | Heading2 t =>
      (MkPara [headingRun t 24] None None (Some 200%N) (Some 100%N),
       currentListNumber)
  | Heading1 t =>
      (MkPara [headingRun t 28] None None (Some 250%N) (Some 120%N),
       currentListNumber)
  | Bullet content =>
      (MkPara (parseInlineMarkdown content) (Some 0%N) None None (Some 60%N),
       0%N)
  | Ordered content =>
      let n := (currentListNumber + 1)%N in
      (MkPara
         (MkRun (Number_toString n ++ str ". ") true false None black
            :: parseInlineMarkdown content)
         None (Some 25%N) None (Some 60%N),
       n)
  | LetteredSub letter content =>
      (MkPara
         (MkRun (letter ++ str ". ") false false None black
            :: parseInlineMarkdown content)
         None (Some 50%N) None (Some 60%N),
       currentListNumber)
  | Para t =>
      (MkPara (parseInlineMarkdown t) None None None (Some 80%N), 0%N)
  end.

(** One call of the [forEach] callback. *)
Definition processLine (currentListNumber : N) (line : jsstring)
  : Paragraph * N :=
  let trimmedLine := trim line in
  render currentListNumber (classify trimmedLine).

(** [lines.forEach(...)], pushing onto [paragraphs]. *)
Fixpoint forEachLine (lines : list jsstring) (currentListNumber : N)
    (paragraphs : list Paragraph) : list Paragraph * N :=
  match lines with
  | [] => (paragraphs, currentListNumber)
  | line :: lines' =>
      let (p, n) := processLine currentListNumber line in
      forEachLine lines' n (paragraphs ++ [p])
  end.

Definition placeholderParagraph : Paragraph :=
  MkPara [MkRun (str "No content provided") false true (Some 20%N) muted]
    None None None None.

Definition parseMarkdownToParagraphs (text : jsstring) : list Paragraph :=
  if negb (truthy text) || negb (truthy (trim text)) then
    [placeholderParagraph]
  else
    let lines := split 10%N text in
    fst (forEachLine lines 0%N []).

(** *** generateIncidentReportDocx: the attachment and impact lines *)

Record Attachment : Type := MkAttachment
  { id : jsstring; nameOrLink : jsstring; description : jsstring }.

(** [arr.map((x, idx) => f(x, idx))], the index counted from [idx]. *)
Fixpoint mapIdx {A B : Type} (f : A -> N -> B) (l : list A) (idx : N)
  : list B :=
  match l with
  | [] => []
  | a :: l' => f a idx :: mapIdx f l' (idx + 1)%N
  end.

(** The separator of the description: space, em dash (U+2014), space. *)
Definition dashSep : jsstring := [32; 8212; 32]%N.

Definition attachmentParagraph (att : Attachment) (idx : N) : Paragraph :=
  MkPara
    ([ MkRun (Number_toString (idx + 1) ++ str ". ") true false (Some 20%N)
         black;
       MkRun (or_else (nameOrLink att)
                (str "Attachment " ++ Number_toString (idx + 1)))
         true false (Some 20%N) black ]
     ++ (if truthy (description att)
         then [MkRun (dashSep ++ description att) false false (Some 20%N) black]
         else []))
    None (Some 15%N) None (Some 60%N).

Definition noAttachments : Paragraph :=
  MkPara [MkRun (str "No attachments") false true (Some 20%N) muted]
    None None None None.

Definition attachmentParagraphs (attachments : list Attachment)
  : list Paragraph :=
  if 0 <? length attachments
  then mapIdx attachmentParagraph attachments 0%N
  else [noAttachments].

Definition impactList (impactCategories : list jsstring)
    (impactOthersSpecify : jsstring) : jsstring :=
  join (str ", ")
    (map (fun cat =>
            if eqb cat (str "Others") && truthy impactOthersSpecify
            then str "Others (" ++ impactOthersSpecify ++ str ")"
            else cat)
       impactCategories).

(** The first paragraph of the Impact box. *)
Definition impactParagraph (impactCategories : list jsstring)
    (impactOthersSpecify : jsstring) : Paragraph :=
  let impactList := impactList impactCategories impactOthersSpecify in
  MkPara
    [ MkRun (str "Impacted Parties: ") true false (Some 20%N) black;
      MkRun (or_else impactList (str "None selected")) false
        (negb (truthy impactList)) (Some 20%N)
        (if truthy impactList then black else muted) ]
    None None None (Some 120%N).

(** *** formatDate, formatDateTime *)

(** The rendering itself is the host's: [new Date(s).toLocaleDateString]
    and [toLocaleString] for the locale en-US, in the time zone of the
    machine.  The code only guards the empty input. *)
Section HostDate.

Variable toLocaleDateString : jsstring -> jsstring.
Variable toLocaleString : jsstring -> jsstring.

Definition formatDate (dateStr : jsstring) : jsstring :=
  if negb (truthy dateStr) then str "Not specified"
  else toLocaleDateString dateStr.

Definition formatDateTime (dateTimeStr : jsstring) : jsstring :=
  if negb (truthy dateTimeStr) then str "Not specified"
  else toLocaleString dateTimeStr.

End HostDate.

(* ================================================================== *)
(** ** RichTextArea: the synchronisation of the editor with [value] *)
(* ================================================================== *)

Module RichTextArea.

Section Converters.

(** The converters of the two libraries, [turndownService.turndown] and
    [showdownConverter.makeHtml]. *)
Variable turndown : jsstring -> jsstring.
Variable makeHtml : jsstring -> jsstring.

Definition markdownToHtml (markdown : jsstring) : jsstring :=
  if negb (truthy markdown) then [] else makeHtml markdown.

Definition htmlToMarkdown (html : jsstring) : jsstring :=
  if negb (truthy html) || eqb html (str "<p></p>") then []
  else turndown html.

(** The two refs of the component, the editor ([None] while [useEditor] has
    not created it, else its content as HTML), the callbacks that
    [setTimeout] has scheduled and not yet run, and the calls of [onChange]
    made so far, oldest first. *)
Record Component : Type := MkComponent
  { isUpdatingFromProp : bool;
    lastExternalValue : jsstring;
    editor : option jsstring;
    timers : nat;
    onChangeCalls : list jsstring }.

Definition mount (value : jsstring) : Component :=
  MkComponent false value None 0 [].

Inductive event : Type :=
| EditorCreated (value : jsstring)
| Effect (value : jsstring)
| Update (html : jsstring)
| Timeout.

(** [EditorCreated value]: [useEditor] delivers the editor, its content
    built from the prop.  [Effect value]: the effect on [[value, editor]]
    runs with the prop [value].  [Update html]: the editor calls [onUpdate]
    after a local edit that left it with content [html].  [Timeout]: one
    scheduled callback runs. *)
Definition step (c : Component) (e : event) : Component :=
  match e with
  | EditorCreated value =>
      match editor c with
      | None =>
          MkComponent (isUpdatingFromProp c) (lastExternalValue c)
            (Some (markdownToHtml value)) (timers c) (onChangeCalls c)
      | Some _ => c
      end
  | Effect value =>
      match editor c with
      | Some _ =>
          if negb (eqb value (lastExternalValue c)) then
            let html := markdownToHtml value in
            MkComponent true value (Some html) (S (timers c)) (onChangeCalls c)
          else c
      | None => c
      end
  | Update html =>
      if isUpdatingFromProp c then
        MkComponent (isUpdatingFromProp c) (lastExternalValue c) (Some html)
          (timers c) (onChangeCalls c)
      else
        let markdown := htmlToMarkdown html in
        MkComponent (isUpdatingFromProp c) markdown (Some html) (timers c)
          (onChangeCalls c ++ [markdown])
  | Timeout =>
      match timers c with
      | O => c
      | S t =>
          MkComponent false (lastExternalValue c) (editor c) t
            (onChangeCalls c)
      end
  end.

Definition run (c : Component) (es : list event) : Component :=
  fold_left step es c.

End Converters.

End RichTextArea.

(* ================================================================== *)
(** ** Notions the statements use *)
(* ================================================================== *)

(** What [trimStart] returns is empty or starts with a code unit that is not
    white space; on such a string it does nothing. *)
Definition startsBlack (s : jsstring) : Prop :=
  match s with
  | [] => True
  | c :: _ => isWhiteSpace c = false
  end.

(** The least number of code units a pattern takes. *)
Fixpoint minlen (r : re) : nat :=
  match r with
  | Chr _ => 1
  | Seq r1 r2 => minlen r1 + minlen r2
  | Grp r1 => minlen r1
  | Rep _ n _ => n
  | NotBehind _ | NotAhead _ | Bol | Eol => 0
  end.

(** The code unit before the position reached after [w] was consumed. *)
Definition lastOr (pv : option char) (w : jsstring) : option char :=
  fold_left (fun _ c => Some c) w pv.

(** The states a pattern can lead to, without the order in which the
    matcher tries them. *)
Fixpoint sem (r : re) (st st' : mstate) : Prop :=
  match r with
  | Chr p =>
      exists c, rest st = c :: rest st' /\ p c = true /\
                prev st' = Some c /\ caps st' = caps st
  | Seq r1 r2 => exists mid, sem r1 st mid /\ sem r2 mid st'
  | Grp r1 =>
      exists st1,
        sem r1 st st1 /\
        st' = MState (prev st1) (rest st1)
                (caps st1 ++
                   [firstn (length (rest st) - length (rest st1)) (rest st)])
  | Rep _ n p =>
      exists w, rest st = w ++ rest st' /\ forallb p w = true /\
                n <= length w /\ prev st' = lastOr (prev st) w /\
                caps st' = caps st
  | NotBehind p =>
      st' = st /\ match prev st with Some c => p c = false | None => True end
  | NotAhead p =>
      st' = st /\ match rest st with c :: _ => p c = false | [] => True end
  | Bol => st' = st /\ prev st = None
  | Eol => st' = st /\ rest st = []
  end.

(** The text whose lines are [ls]. *)
Definition doc (ls : list jsstring) : jsstring := join [10%N] ls.

(** [forEachLine] without the accumulator: the paragraphs pushed from
    counter [n] on, and the counter after the lines. *)
Fixpoint paragraphsFrom (n : N) (lines : list jsstring) : list Paragraph :=
  match lines with
  | [] => []
  | l :: ls =>
      fst (processLine n l) :: paragraphsFrom (snd (processLine n l)) ls
  end.

Definition counterAfter (n : N) (lines : list jsstring) : N :=
  fold_left (fun n l => snd (processLine n l)) lines n.

(** The branch a line of the text takes. *)
Definition kindOf (line : jsstring) : Block := classify (trim line).

Definition isOrdered (b : Block) : bool :=
  match b with Ordered _ => true | _ => false end.

(** The branches that set [currentListNumber] to 0. *)
Definition resets (b : Block) : bool :=
  match b with Bullet _ | Para _ => true | _ => false end.

(** Ordered items, blank lines and lettered sub-items: an ordered item adds
    one to [currentListNumber], the other two leave it as it is. *)
Definition continues (b : Block) : bool :=
  match b with Blank | Ordered _ | LetteredSub _ _ => true | _ => false end.

Definition orderedCount (lines : list jsstring) : N :=
  N.of_nat (length (filter (fun l => isOrdered (kindOf l)) lines)).

(** The paragraph of an ordered item: the ordinal and a dot in a bold run,
    then the runs of the content, indented by a quarter of an inch. *)
Definition orderedParagraph (ordinal : N) (content : jsstring) : Paragraph :=
  MkPara
    (MkRun (Number_toString ordinal ++ str ". ") true false None
       (Some (str "000000"))
       :: parseInlineMarkdown content)
    None (Some 25%N) None (Some 60%N).

(** The line the claim describes for attachment [att] at position [i]
    (counted from 0). *)
Definition attachmentLine (i : nat) (att : Attachment) : jsstring :=
  Number_toString (N.of_nat i + 1) ++ str ". " ++
  match nameOrLink att with
  | [] => str "Attachment " ++ Number_toString (N.of_nat i + 1)
  | _ :: _ => nameOrLink att
  end ++
  match description att with
  | [] => []
  | _ :: _ => [32; 8212; 32]%N ++ description att
  end.

(** A category as the claim shows it: "Others" with the free text in
    brackets when there is a free text, any other category as it is. *)
Definition shownCategory (freeText cat : jsstring) : jsstring :=
  if list_eq_dec N.eq_dec cat (str "Others") then
    match freeText with
    | [] => cat
    | _ :: _ => str "Others (" ++ freeText ++ str ")"
    end
  else cat.

(* ================================================================== *)
(** ** docx-generator.ts: tables, content boxes and the report data *)
(* ================================================================== *)

Module DocxTables.

Inductive BorderStyle : Type := NONE | SINGLE.

Record Border : Type := MkBorder
  { border_style : BorderStyle;
    border_size : option N;
    border_color : option jsstring }.

(** The borders of a table; a side the code leaves out is [None]. *)
Record Borders : Type := MkBorders
  { border_top : option Border;
    border_bottom : option Border;
    border_left : option Border;
    border_right : option Border;
    border_insideHorizontal : option Border;
    border_insideVertical : option Border }.

(** Margins in hundredths of an inch, the arguments of
    [convertInchesToTwip]. *)
Record Margins : Type := MkMargins
  { margin_top : N; margin_bottom : N; margin_left : N; margin_right : N }.

(** [new TableCell({ children, width, shading, margins })]; the width is a
    percentage, the shading a solid colour. *)
Record TableCell : Type := MkCell
  { cell_children : list Paragraph;
    cell_width : option N;
    cell_shading : option jsstring;
    cell_margins : option Margins }.

(** [new Table({ width, borders, rows })]; the width is a percentage. *)
Record Table : Type := MkTable
  { table_width : N;
    table_borders : Borders;
    rows : list (list TableCell) }.

(** What the section of the document holds: tables and paragraphs. *)
Inductive Element : Type :=
| ETable (t : Table)
| EParagraph (p : Paragraph).

End DocxTables.

Import DocxTables.

Definition grayBorder (sz : N) : option Border :=
  Some (MkBorder SINGLE (Some sz) (Some (str "d1d5db"))).

(** [createContentBox(title, content, titleColor)] *)
Definition createContentBox (title content titleColor : jsstring) : Table :=
  let contentParagraphs := parseMarkdownToParagraphs content in
  MkTable 100
    (MkBorders (grayBorder 8) (grayBorder 8) (grayBorder 8) (grayBorder 8)
       None None)
    [ [ MkCell
          [ MkPara [MkRun title true false (Some 22%N) (Some titleColor)]
              None None None None ]
          None (Some (str "f3f4f6")) (Some (MkMargins 8 8 15 15)) ];
      [ MkCell contentParagraphs None None (Some (MkMargins 10 10 15 15)) ] ].

(** The default of the third argument of [createContentBox]. *)
Definition titleBlue : jsstring := str "1d4ed8".

(** The options of [createCell]; one the caller leaves out is [false] /
    [None]. *)
Record CellOptions : Type := MkCellOptions
  { opt_bold : bool;
    opt_isHeader : bool;
    opt_width : option N;
    opt_shading : option jsstring }.

Definition noOptions : CellOptions := MkCellOptions false false None None.

(** [createCell(content, options)] *)
Definition createCell (content : jsstring) (options : CellOptions)
  : TableCell :=
  MkCell
    [ MkPara
        [ MkRun content (opt_bold options || opt_isHeader options) false
            (Some 20%N)
            (Some (if opt_isHeader options then str "1e3a8a"
                   else str "000000")) ]
        None None None None ]
    (match opt_width options with
     | Some w => if N.eqb w 0 then None else Some w
     | None => None
     end)
    (match opt_shading options with
     | Some c => if truthy c then Some c else None
     | None => None
     end)
    (Some (MkMargins 5 5 10 10)).

Module Report.

(** [EmployeeDetails] and [UserDetails] have the same fields; the two
    numbers are identifiers of the data base ([emp_id] is the field
    [id]). *)
Record EmployeeDetails : Type := MkEmployee
  { emp_id : N;
    employee_id : N;
    employee_name : jsstring;
    employee_email : jsstring;
    position : jsstring;
    company : jsstring;
    created_at : option jsstring }.

Definition UserDetails : Type := EmployeeDetails.

Record ReportData : Type := MkReportData
  { datePrepared : jsstring;
    employeeDetails : option EmployeeDetails;
    incidentWhat : jsstring;
    incidentLocation : jsstring;
    incidentDateTime : jsstring;
    incidentDetails : jsstring;
    findings : jsstring;
    policyViolation : jsstring;
    attachments : list Attachment;
    impactCategories : list jsstring;
    impactOthersSpecify : jsstring;
    impactDescription : jsstring;
    reportedBy : UserDetails;
    attestedBy : option EmployeeDetails }.

(** [new Paragraph({ spacing: { after } })] *)
Definition spacing (after : N) : Paragraph :=
  MkPara [] None None None (Some after).

Definition headerCell (label : jsstring) (width : option N) : TableCell :=
  createCell label (MkCellOptions false true width (Some (str "dbeafe"))).

(** The table of what, where and when; [toLocaleString] is the host's. *)
Definition incidentTable (toLocaleString : jsstring -> jsstring)
    (data : ReportData) : Table :=
  MkTable 100
    (MkBorders (grayBorder 8) (grayBorder 8) (grayBorder 8) (grayBorder 8)
       (grayBorder 4) (grayBorder 4))
    [ [ headerCell (str "What:") (Some 12%N);
        createCell (or_else (incidentWhat data) (str "Not specified"))
          (MkCellOptions false false (Some 88%N) None) ];
      [ headerCell (str "Location:") None;
        createCell (or_else (incidentLocation data) (str "Not specified"))
          noOptions ];
      [ headerCell (str "Time:") None;
        createCell (formatDateTime toLocaleString (incidentDateTime data))
          noOptions ] ].

(** The elements from the Incident Details box to the Attachments box: the
    box of the incident details, and the boxes of the findings and of the
    policy concerns when these are given. *)
Definition narrativeElements (data : ReportData) : list Element :=
  [ ETable (createContentBox (str "Incident Details:") (incidentDetails data)
              titleBlue);
    EParagraph (spacing 200) ]
  ++ (if truthy (findings data) then
        [ ETable (createContentBox (str "Findings:") (findings data)
                    titleBlue);
          EParagraph (spacing 200) ]
      else [])
  ++ (if truthy (policyViolation data) then
        [ ETable (createContentBox (str "Policy/Code of Conduct Concerns:")
                    (policyViolation data) titleBlue);
          EParagraph (spacing 200) ]
      else []).

End Report.

(* ================================================================== *)
(** ** The form page: impact selection, guiding questions, attachments *)
(* ================================================================== *)

Module FormPage.

(** The values of the type [ImpactCategory] are these five strings. *)
Definition IMPACT_CATEGORIES : list jsstring :=
  [str "Client"; str "GoTeam"; str "Peers"; str "Management"; str "Others"].

(** [arr.includes(x)] on an array of strings. *)
Definition includes (arr : list jsstring) (x : jsstring) : bool :=
  existsb (eqb x) arr.

(** The two state variables of the impact section. *)
Record Impact : Type := MkImpact
  { impactCategories : list jsstring; impactOthersSpecify : jsstring }.

Definition toggleImpactCategory (category : jsstring) (st : Impact) : Impact :=
  let prev := impactCategories st in
  if includes prev category then
    let newCategories := filter (fun c => negb (eqb c category)) prev in
    MkImpact newCategories
      (if eqb category (str "Others") then []
       else impactOthersSpecify st)
  else
    MkImpact (prev ++ [category]) (impactOthersSpecify st).

(** What the user can do to the impact section: tick or untick one of the
    five check boxes, and type into the field for the other party, which is
    rendered only while "Others" is ticked. *)
Inductive impactStep : Impact -> Impact -> Prop :=
| ToggleCategory (category : jsstring) (st : Impact) :
    In category IMPACT_CATEGORIES ->
    impactStep st (toggleImpactCategory category st)
| SpecifyOthers (value : jsstring) (st : Impact) :
    includes (impactCategories st) (str "Others") = true ->
    impactStep st (MkImpact (impactCategories st) value).

Inductive impactReachable : Impact -> Prop :=
| ImpactInitial : impactReachable (MkImpact [] [])
| ImpactStep (st st' : Impact) :
    impactReachable st -> impactStep st st' -> impactReachable st'.

Definition getImpactContext (st : Impact) : jsstring :=
  let categories := join (str ", ") (impactCategories st) in
  let othersText :=
    if includes (impactCategories st) (str "Others")
       && truthy (impactOthersSpecify st)
    then str " (Others: " ++ impactOthersSpecify st ++ str ")"
    else [] in
  str "impact_description - Impacted parties: " ++ categories ++ othersText.

(** [s.replace(pattern, replacement)] for a string pattern and a
    replacement without dollar signs: the first occurrence is replaced. *)
Fixpoint replaceFirst (pattern replacement s : jsstring) : jsstring :=
  if startsWith s pattern then replacement ++ skipn (length pattern) s
  else match s with
       | [] => []
       | c :: s' => c :: replaceFirst pattern replacement s'
       end.

(** [s.split(sep)[0]] for a separator that is not empty: the text before
    the first occurrence of the separator, the whole text without one. *)
Fixpoint splitFirst (sep s : jsstring) : jsstring :=
  if startsWith s sep then []
  else match s with
       | [] => []
       | c :: s' => c :: splitFirst sep s'
       end.

Definition GUIDING_QUESTIONS : list (jsstring * list jsstring) :=
  [ (str "incident_details",
     [ str "What exactly happened? Describe the incident in your own words.";
       str "Who was involved? (Include full names)";
       str "When and where did this occur?";
       str "How was this discovered or reported?";
       str ("What evidence do you have? " ++
            "(e.g., Teramind logs, emails, chat messages)") ]);
    (str "findings",
     [ str "What did your investigation confirm or verify?";
       str "What specific evidence supports your findings?";
       str "Were there any patterns or repeated behaviors?";
       str "Who else was involved or aware of the situation?" ]);
    (str "policy_violation",
     [ str "Which company policies or codes of conduct were violated?";
       str "How did the specific actions violate these policies?";
       str "Was there improper escalation (bypassing management/P&C)?";
       str "Was there insubordination, gossip, or unprofessional behavior?";
       str "Did the employee fail to exercise professional judgment?" ]);
    (str "attachment_description",
     [ str "What does this attachment show or prove?";
       str "When was this evidence captured (date/time)?";
       str "Who is involved in this evidence?" ]);
    (str "impact_description",
     [ str "How was trust, satisfaction, or relationships affected?";
       str "How was company reputation, compliance, or operations affected?";
       str "How was team morale, trust, or collaboration affected?";
       str "What additional supervision or intervention was required?" ]) ].

(** The names every object inherits from [Object.prototype]: looked up on
    the table they give a function or an object, not [undefined]. *)
Definition inheritedNames : list jsstring :=
  [ str "constructor"; str "hasOwnProperty"; str "isPrototypeOf";
    str "propertyIsEnumerable"; str "toLocaleString"; str "toString";
    str "valueOf"; str "__proto__"; str "__defineGetter__";
    str "__defineSetter__"; str "__lookupGetter__"; str "__lookupSetter__" ].

Fixpoint lookup (key : jsstring) (table : list (jsstring * list jsstring))
  : option (list jsstring) :=
  match table with
  | [] => None
  | (k, v) :: table' => if eqb key k then Some v else lookup key table'
  end.

(** [getGuidingQuestions]; [None] is the [TypeError] of calling [join] on
    an inherited member of the table, which has none. *)
Definition getGuidingQuestions (sectionContext : jsstring) : option jsstring :=
  let key :=
    splitFirst (str " - ")
      (replaceFirst (str "impact_description - Impacted parties:")
         (str "impact_description") sectionContext) in
  match lookup key GUIDING_QUESTIONS with
  | Some questions => Some (join [10%N] questions)
  | None =>
      if includes inheritedNames key then None
      else Some (join [10%N] [])
  end.

(** *** Attachments *)

(** [addAttachment]; [now] is the value of [Date.now()]. *)
Definition addAttachment (now : N) (attachments : list Attachment)
  : list Attachment :=
  attachments ++ [MkAttachment (str "att_" ++ Number_toString now) [] []].

Definition removeAttachment (id_ : jsstring) (attachments : list Attachment)
  : list Attachment :=
  filter (fun att => negb (eqb (id att) id_)) attachments.

(** The two fields [updateAttachment] can set. *)
Inductive AttachmentField : Type := nameOrLinkField | descriptionField.

Definition updateAttachment (id_ : jsstring) (field : AttachmentField)
    (value : jsstring) (attachments : list Attachment) : list Attachment :=
  map (fun att =>
         if eqb (id att) id_ then
           match field with
           | nameOrLinkField => MkAttachment (id att) value (description att)
           | descriptionField => MkAttachment (id att) (nameOrLink att) value
           end
         else att)
    attachments.

(** *** The name of the downloaded file *)

(** [s.replace(/\s+/g, '_')]: every maximal run of white space becomes one
    underscore; [inRun] tells that the code unit before was white space. *)
Fixpoint underscoreRuns (inRun : bool) (s : jsstring) : jsstring :=
  match s with
  | [] => []
  | c :: s' =>
      if isWhiteSpace c then
        if inRun then underscoreRuns true s'
        else chr "_" :: underscoreRuns true s'
      else c :: underscoreRuns false s'
  end.

(** The file name; [dateStr] is what the host makes of [datePrepared]. *)
Definition filename (employee_name : option jsstring) (dateStr : jsstring)
  : jsstring :=
  let employeeName :=
    match employee_name with
    | Some name => underscoreRuns false name
    | None => str "Employee"
    end in
  str "Incident_Report_" ++ employeeName ++ str "_" ++ dateStr ++ str ".docx".

(** *** Submitting *)

(** The state of the form that the download reads. *)
Record Form : Type := MkForm
  { user : option Report.UserDetails;
    datePrepared : jsstring;
    employeeDetails : option Report.EmployeeDetails;
    incidentWhat : jsstring;
    incidentLocation : jsstring;
    incidentDateTime : jsstring;
    incidentDetails : jsstring;
    findings : jsstring;
    policyViolation : jsstring;
    attachments : list Attachment;
    impact : Impact;
    impactDescription : jsstring;
    attestedByDetails : option Report.EmployeeDetails }.

Definition isSome {A : Type} (o : option A) : bool :=
  match o with Some _ => true | None => false end.

Definition canSubmit (f : Form) : bool :=
  truthy (datePrepared f) &&
  isSome (employeeDetails f) &&
  truthy (trim (incidentWhat f)) &&
  truthy (trim (incidentLocation f)) &&
  truthy (incidentDateTime f) &&
  truthy (trim (incidentDetails f)) &&
  (0 <? length (impactCategories (impact f))) &&
  truthy (trim (impactDescription f)) &&
  isSome (attestedByDetails f).

(** The data [handleDownloadDocx] passes to [generateIncidentReportDocx];
    [None] when it returns at once, the form not being complete or no user
    being known. *)
Definition downloadData (f : Form) : option Report.ReportData :=
  if negb (canSubmit f) then None
  else
    match user f with
    | None => None
    | Some u =>
        Some (Report.MkReportData (datePrepared f) (employeeDetails f)
                (incidentWhat f) (incidentLocation f) (incidentDateTime f)
                (incidentDetails f) (findings f) (policyViolation f)
                (attachments f) (impactCategories (impact f))
                (impactOthersSpecify (impact f)) (impactDescription f)
                u (attestedByDetails f))
    end.

End FormPage.

(* ================================================================== *)
(** ** api/ai/enhance/route.ts: the route and the request of the form *)
(* ================================================================== *)

Module EnhanceRoute.

Section Host.

(** The numbers of the host and the test for zero, the one number of a
    JSON text that is falsy. *)
Variable number : Type.
Variable isZero : number -> bool.

(** A parsed JSON text.  The members of an object have distinct names. *)
#[local] Unset Elimination Schemes.

Inductive json : Type :=
| JNull
| JBool (b : bool)
| JNumber (n : number)
| JString (s : jsstring)
| JArray (items : list json)
| JObject (members : list (jsstring * json)).

#[local] Set Elimination Schemes.

(** A value: [None] is [undefined]. *)
Definition value : Type := option json.

Definition truthyValue (v : value) : bool :=
  match v with
  | None | Some JNull => false
  | Some (JBool b) => b
  | Some (JNumber n) => negb (isZero n)
  | Some (JString s) => truthy s
  | Some (JArray _) | Some (JObject _) => true
  end.

(** [a || b] *)
Definition orElse (a b : value) : value := if truthyValue a then a else b.

Fixpoint member (key : jsstring) (members : list (jsstring * json)) : value :=
  match members with
  | [] => None
  | (k, v) :: members' => if eqb key k then Some v else member key members'
  end.

(** [v?.key] for a name that no prototype defines: the member of an
    object, [undefined] on everything else. *)
Definition get (v : value) (key : string) : value :=
  match v with
  | Some (JObject members) => member (str key) members
  | _ => None
  end.

Definition isArray (v : value) : bool :=
  match v with
  | Some (JArray _) => true
  | _ => false
  end.

(** [v.length] and [v[0]] of an array. *)
Definition arrayLength (v : value) : nat :=
  match v with
  | Some (JArray items) => length items
  | _ => 0
  end.

Definition first (v : value) : value :=
  match v with
  | Some (JArray (item :: _)) => Some item
  | _ => None
  end.

(** [original?.improved_text || original?.formatted_text ||
    original?.text || ''] *)
Definition pickText (original : value) : value :=
  orElse
    (orElse
       (orElse (get original "improved_text") (get original "formatted_text"))
       (get original "text"))
    (Some (JString [])).

(** The value of [formattedText] after the four cases. *)
Definition formattedText (n8nResponse : json) : value :=
  let r := Some n8nResponse in
  if isArray r && (0 <? arrayLength r) then
    pickText (get (first r) "original")
  else if truthyValue (get r "output") && isArray (get r "output") &&
          (0 <? arrayLength (get r "output")) then
    pickText (get (first (get r "output")) "original")
  else if truthyValue (get r "improved_text") then get r "improved_text"
  else if truthyValue (get r "formatted_text") then get r "formatted_text"
  else Some (JString []).

(** [NextResponse.json({ error }, { status })] and
    [NextResponse.json({ success: true, formattedText })]. *)
Inductive Response : Type :=
| Failure (error : jsstring) (status : N)
| Success (text : value).

(** What the handler reads of a thrown value: [error.code] and
    [error.response?.status]. *)
Record Thrown : Type := MkThrown
  { code : option jsstring;
    response_status : option N }.

(** What the route sends to the webhook. *)
Record Payload : Type := MkPayload
  { raw_text : jsstring;
    section_context : value;
    format : value;
    guiding_questions : value;
    timestamp : jsstring }.

(** [axios.post] resolves with [response.data] or rejects. *)
Inductive Outcome : Type :=
| Resolves (data : json)
| Rejects (error : Thrown).

(** [error.code === c] and [error.response?.status === n]. *)
Definition codeIs (error : Thrown) (c : jsstring) : bool :=
  match code error with
  | Some c' => eqb c' c
  | None => false
  end.

Definition statusIs (error : Thrown) (n : N) : bool :=
  match response_status error with
  | Some n' => N.eqb n' n
  | None => false
  end.

(** The [catch] block. *)
Definition handleError (error : Thrown) : Response :=
  if codeIs error (str "ECONNABORTED") then
    Failure (str "AI processing timed out. Please try again.") 504
  else if statusIs error 405 then
    Failure (str "AI service configuration error. Please contact support.")
      503
  else if statusIs error 401 || statusIs error 403 then
    Failure (str "AI service authentication error. Please contact support.")
      503
  else Failure (str "Failed to enhance text. Please try again.") 500.

(** A [SyntaxError] or [TypeError]: neither a code nor a response. *)
Definition plainError : Thrown := MkThrown None None.

(** [POST].  [isAllowed] is what [checkRateLimit] returned, [body] what
    [request.json()] gave ([None]: it threw), [n8nWebhookUrl] the variable
    of the environment, [now] the time stamp, [post] the webhook. *)
Definition POST (isAllowed : bool) (body : option json)
    (n8nWebhookUrl : option jsstring) (now : jsstring)
    (post : jsstring -> Payload -> Outcome) : Response :=
  if negb isAllowed then
    Failure (str "Too many requests. Please try again later.") 429
  else
    match body with
    | None | Some JNull => handleError plainError
    | Some _ =>
        match get body "rawText" with
        | Some (JString rawText) =>
            if negb (truthy rawText) || (length (trim rawText) =? 0) then
              Failure (str "Text content is required.") 400
            else
              match n8nWebhookUrl with
              | None => Failure (str "Internal Server Error") 500
              | Some url =>
                  if negb (truthy url) then
                    Failure (str "Internal Server Error") 500
                  else
                    match
                      post url
                        (MkPayload (trim rawText)
                           (orElse (get body "sectionContext")
                              (Some (JString (str "general"))))
                           (orElse (get body "format")
                              (Some (JString (str "markdown"))))
                           (orElse (get body "guidingQuestions")
                              (Some (JString [])))
                           now)
                    with
                    | Resolves data =>
                        if negb (truthyValue (formattedText data)) then
                          Failure
                            (str "Failed to enhance text. Please try again.")
                            500
                        else Success (formattedText data)
                    | Rejects error => handleError error
                    end
              end
        | _ => Failure (str "Text content is required.") 400
        end
    end.

(** The body [handleAIEnhance] of the form page posts. *)
Definition enhanceRequest (currentText sectionContext guidingQuestions
                           : jsstring) : json :=
  JObject [ (str "rawText", JString currentText);
            (str "sectionContext", JString sectionContext);
            (str "format", JString (str "markdown"));
            (str "guidingQuestions", JString guidingQuestions) ].

(** [handleAIEnhance] of the form page: what the setter is called with, or
    [None] when it is not called.  [route] answers the request; an answer
    with an error status makes [axios.post] reject, and so does the
    [TypeError] of [getGuidingQuestions]: both end in the [catch]. *)
Definition handleAIEnhance (route : json -> Response)
    (currentText sectionContext : jsstring) : value :=
  if negb (truthy (trim currentText)) then None
  else
    match FormPage.getGuidingQuestions sectionContext with
    | None => None
    | Some questions =>
        match route (enhanceRequest currentText sectionContext questions) with
        | Success text => if truthyValue text then text else None
        | Failure _ _ => None
        end
    end.

End Host.

Arguments JNull {number}.
Arguments JBool {number} b.
Arguments JNumber {number} n.
Arguments JString {number} s.
Arguments JArray {number} items.
Arguments JObject {number} members.
Arguments Failure {number} error status.
Arguments Success {number} text.
Arguments Resolves {number} data.
Arguments Rejects {number} error.
Arguments MkPayload {number} raw_text section_context format
  guiding_questions timestamp.
Arguments raw_text {number} p.
Arguments section_context {number} p.
Arguments format {number} p.
Arguments guiding_questions {number} p.
Arguments timestamp {number} p.
Arguments truthyValue {number} isZero v.
Arguments orElse {number} isZero a b.
Arguments member {number} key members.
Arguments get {number} v key.
Arguments isArray {number} v.
Arguments arrayLength {number} v.
Arguments first {number} v.
Arguments pickText {number} isZero original.
Arguments formattedText {number} isZero n8nResponse.
Arguments handleError {number} error.
Arguments POST {number} isZero isAllowed body n8nWebhookUrl now post.
Arguments enhanceRequest {number} currentText sectionContext
  guidingQuestions.
Arguments handleAIEnhance {number} isZero route currentText sectionContext.

End EnhanceRoute.

(* ================================================================== *)
(** ** The host: dates, as the language definition has them *)
(* ================================================================== *)

(** [formatDate] and [formatDateTime] hand their input to [new Date(s)] and
    to [toLocaleDateString] / [toLocaleString] with the locale en-US.  The
    module below follows the language definition: a date-only string is a
    UTC time, a date-time string without an offset is a local time, and the
    rendering shows the local time of the host's time zone.  The time zone
    is a parameter, a fixed offset from UTC in minutes.  What the definition
    leaves to the host is a parameter too: strings in no format the
    definition fixes, years before 1, the text between date and time and
    the space before AM / PM, which differ between versions of the locale
    data. *)
Module JSDate.

Local Open Scope Z_scope.

(** A day of the proleptic Gregorian calendar. *)
Record Civil : Type := MkCivil { year : Z; month : Z; day : Z }.

Definition isLeapYear (y : Z) : bool :=
  ((y mod 4 =? 0) && negb (y mod 100 =? 0)) || (y mod 400 =? 0).

Definition daysInMonth (y m : Z) : Z :=
  if m =? 2 then (if isLeapYear y then 29 else 28)
  else if (m =? 4) || (m =? 6) || (m =? 9) || (m =? 11) then 30
  else 31.

Definition validDate (c : Civil) : bool :=
  (1 <=? month c) && (month c <=? 12) &&
  (1 <=? day c) && (day c <=? daysInMonth (year c) (month c)).

Definition previousDay (c : Civil) : Civil :=
  if 1 <? day c then MkCivil (year c) (month c) (day c - 1)
  else if 1 <? month c then
    MkCivil (year c) (month c - 1) (daysInMonth (year c) (month c - 1))
  else MkCivil (year c - 1) 12 31.

Definition nextDay (c : Civil) : Civil :=
  if day c <? daysInMonth (year c) (month c) then
    MkCivil (year c) (month c) (day c + 1)
  else if month c <? 12 then MkCivil (year c) (month c + 1) 1
  else MkCivil (year c + 1) 1 1.

Definition addDays (k : Z) (c : Civil) : Civil :=
  match k with
  | Z0 => c
  | Zpos p => Pos.iter nextDay c p
  | Zneg p => Pos.iter previousDay c p
  end.

(** A time value to the minute: a day and the minute of the day.  The
    formats of the code show nothing finer. *)
Record Instant : Type := MkInstant { date : Civil; minuteOfDay : Z }.

(** The time [minutes] later (earlier for a negative number). *)
Definition shift (minutes : Z) (t : Instant) : Instant :=
  let total := minuteOfDay t + minutes in
  MkInstant (addDays (total / 1440) (date t)) (total mod 1440).

Record Host : Type := MkHost
  { (** local time minus UTC, in minutes: -300 for UTC-05:00 *)
    timeZoneOffset : Z;
    (** [new Date(s)] for a string in neither of the two formats below;
        [None] is the invalid date *)
    parseOther : jsstring -> option Instant;
    (** how a year before 1 is shown *)
    eraYear : Z -> jsstring;
    (** between the date and the time: ", " or " at " *)
    glue : jsstring;
    (** before AM / PM: a space or U+202F *)
    periodSpace : jsstring }.

(** *** [new Date(s)] *)

Definition digit (c : char) : option Z :=
  if isDigit c then Some (Z.of_N c - 48) else None.

Definition number (ds : list char) : option Z :=
  fold_left
    (fun acc c =>
       match acc, digit c with
       | Some n, Some d => Some (10 * n + d)
       | _, _ => None
       end)
    ds (Some 0).

(** The date-only form YYYY-MM-DD of a day that exists. *)
Definition parseDate (s : jsstring) : option Civil :=
  match s with
  | [y1; y2; y3; y4; a; m1; m2; b; d1; d2] =>
      if isChar "-" a && isChar "-" b then
        match number [y1; y2; y3; y4], number [m1; m2], number [d1; d2] with
        | Some y, Some m, Some d =>
            if validDate (MkCivil y m d) then Some (MkCivil y m d) else None
        | _, _, _ => None
        end
      else None
  | _ => None
  end.

(** The date-time form YYYY-MM-DDTHH:mm, without an offset. *)
Definition parseDateTime (s : jsstring) : option Instant :=
  match parseDate (firstn 10 s), skipn 10 s with
  | Some c, [t; h1; h2; colon; n1; n2] =>
      if isChar "T" t && isChar ":" colon then
        match number [h1; h2], number [n1; n2] with
        | Some h, Some n =>
            if (h <=? 23) && (n <=? 59) then Some (MkInstant c (60 * h + n))
            else None
        | _, _ => None
        end
      else None
  | _, _ => None
  end.

(** [new Date(s)] as a UTC time; [None] is the invalid date.  A date-only
    string is the start of that day in UTC; a date-time string without an
    offset is a local time. *)
Definition newDate (h : Host) (s : jsstring) : option Instant :=
  match parseDate s with
  | Some c => Some (MkInstant c 0)
  | None =>
      match parseDateTime s with
      | Some local => Some (shift (- timeZoneOffset h) local)
      | None => parseOther h s
      end
  end.

(** The local time of a UTC time. *)
Definition localTime (h : Host) (t : Instant) : Instant :=
  shift (timeZoneOffset h) t.

(** *** The rendering for en-US *)

Definition monthNames : list jsstring :=
  [ str "January"; str "February"; str "March"; str "April"; str "May";
    str "June"; str "July"; str "August"; str "September"; str "October";
    str "November"; str "December" ].

Definition monthName (m : Z) : jsstring :=
  if (1 <=? m) && (m <=? 12) then nth (Z.to_nat (m - 1)) monthNames []
  else [].

Definition showYear (h : Host) (y : Z) : jsstring :=
  if 1 <=? y then Number_toString (Z.to_N y) else eraYear h y.

(** [{ year: 'numeric', month: 'long', day: 'numeric' }] *)
Definition renderDate (h : Host) (c : Civil) : jsstring :=
  monthName (month c) ++ str " " ++ Number_toString (Z.to_N (day c)) ++
  str ", " ++ showYear h (year c).

Definition twoDigits (n : Z) : jsstring :=
  if n <? 10 then str "0" ++ Number_toString (Z.to_N n)
  else Number_toString (Z.to_N n).

(** [{ hour: 'numeric', minute: '2-digit', hour12: true }] *)
Definition renderTime (h : Host) (minute : Z) : jsstring :=
  let hour := minute / 60 in
  Number_toString (Z.to_N (if hour mod 12 =? 0 then 12 else hour mod 12)) ++
  str ":" ++ twoDigits (minute mod 60) ++ periodSpace h ++
  (if hour <? 12 then str "AM" else str "PM").

(** [new Date(s).toLocaleDateString('en-US', { year: 'numeric',
    month: 'long', day: 'numeric' })] *)
Definition toLocaleDateString (h : Host) (s : jsstring) : jsstring :=
  match newDate h s with
  | None => str "Invalid Date"
  | Some t => renderDate h (date (localTime h t))
  end.

(** [new Date(s).toLocaleString('en-US', { year: 'numeric', month: 'long',
    day: 'numeric', hour: 'numeric', minute: '2-digit', hour12: true })] *)
Definition toLocaleString (h : Host) (s : jsstring) : jsstring :=
  match newDate h s with
  | None => str "Invalid Date"
  | Some t =>
      renderDate h (date (localTime h t)) ++ glue h ++
      renderTime h (minuteOfDay (localTime h t))
  end.

(** *** [toISOString] *)

Definition padded (width : nat) (n : Z) : jsstring :=
  let ds := Number_toString (Z.to_N n) in
  repeat (chr "0") (width - length ds) ++ ds.

Definition isoYear (y : Z) : jsstring :=
  if (0 <=? y) && (y <=? 9999) then padded 4 y
  else (if y <? 0 then str "-" else str "+") ++ padded 6 (Z.abs y).

(** [new Date(s).toISOString().split('T')[0]]: the day in UTC; [None] is
    the [RangeError] of an invalid date. *)
Definition toISODate (h : Host) (s : jsstring) : option jsstring :=
  match newDate h s with
  | None => None
  | Some t =>
      Some (isoYear (year (date t)) ++ str "-" ++
            padded 2 (month (date t)) ++ str "-" ++ padded 2 (day (date t)))
  end.

End JSDate.

(* ================================================================== *)
(** ** Further notions the statements use *)
(* ================================================================== *)

(** The two delimiter characters of the inline syntax. *)
Definition isDelimiter (c : char) : bool := isChar "*" c || isChar "_" c.

(** A text without its delimiter characters. *)
Definition strip (s : jsstring) : jsstring :=
  filter (fun c => negb (isDelimiter c)) s.

Definition occurrences (a : ascii) (s : jsstring) : nat :=
  count_occ N.eq_dec s (chr a).

Definition styledRun (ty : spanType) (t : jsstring) : TextRun :=
  match ty with
  | bold_span => boldRun t
  | italic_span => italicRun t
  end.

(** A run as the parser makes them: a text that is not empty, size 20,
    black, bold or italic or neither, never both. *)
Definition inlineRun (r : TextRun) : Prop :=
  text r <> [] /\ size r = Some 20%N /\ color r = Some (str "000000") /\
  (bold r && italics r) = false.

(** The text a line hands on to its paragraph: the title of a heading, the
    content of a bullet, an ordered item or a lettered sub-item, the text
    of a paragraph; a blank line hands on none. *)
Definition blockText (b : Block) : option jsstring :=
  match b with
  | Blank => None
  | Heading3 t | Heading2 t | Heading1 t | Para t => Some t
  | Bullet c | Ordered c | LetteredSub _ c => Some c
  end.

(** A line: a string without a line feed. *)
Definition isLine (l : jsstring) : Prop :=
  forallb (fun c => negb (N.eqb c 10)) l = true.

(** The lines joined by carriage return and line feed. *)
Definition docCRLF (ls : list jsstring) : jsstring := join [13; 10]%N ls.

(** The same lines with a carriage return after each but the last. *)
Fixpoint withCR (ls : list jsstring) : list jsstring :=
  match ls with
  | [] => []
  | [x] => [x]
  | x :: ls' => (x ++ [13%N]) :: withCR ls'
  end.

(** The four patterns of [parseInlineMarkdown] as one family: the kind of
    span and the delimiter. *)
Definition spanRe (ty : spanType) (d : ascii) : re :=
  match ty with
  | bold_span =>
      Bol ;; Grp (Rep false 0 dot) ;; lit d ;; lit d ;;
      Grp (Rep false 1 dot) ;; lit d ;; lit d
  | italic_span =>
      Bol ;; Grp (Rep false 0 dot) ;; NotBehind (isChar d) ;; lit d ;;
      Grp (Rep true 1 (isNot d)) ;; lit d ;; NotAhead (isChar d)
  end.

(** The delimiter as it is written: twice for bold, once for italic. *)
Definition delimiter (ty : spanType) (d : ascii) : jsstring :=
  match ty with
  | bold_span => [chr d; chr d]
  | italic_span => [chr d]
  end.

(** A code unit that is neither of the two delimiters. *)
Definition notDelimiter (c : char) : bool := negb (isDelimiter c).

(** The content of a box: the paragraphs of its second row. *)
Definition boxContent (t : Table) : list Paragraph :=
  match rows t with
  | [_; [cell]] => cell_children cell
  | _ => []
  end.

Definition boxTitle (t : Table) : jsstring :=
  match rows t with
  | [cell] :: _ => lineText (hd (MkPara [] None None None None)
                               (cell_children cell))
  | _ => []
  end.

(** The flag is only ever set together with a callback that clears it. *)
Definition guarded (c : RichTextArea.Component) : Prop :=
  RichTextArea.isUpdatingFromProp c = false \/ 0 < RichTextArea.timers c.

(* ================================================================== *)
(** ** Strings: equality, trimming, splitting *)
(* ================================================================== *)

Lemma eqb_eq (a b : jsstring) : eqb a b = true <-> a = b.
Proof.
  revert b; induction a as [|x a IH]; intros [|y b]; simpl; split;
    try congruence; try reflexivity.
  - intros H. apply andb_true_iff in H as [Hx Ha].
    apply N.eqb_eq in Hx. apply IH in Ha. congruence.
  - intros H. injection H as -> ->.
    rewrite N.eqb_refl. simpl. apply IH. reflexivity.
Qed.

Lemma eqb_neq (a b : jsstring) : eqb a b = false <-> a <> b.
Proof.
  rewrite <- eqb_eq. destruct (eqb a b); split; congruence.
Qed.

Lemma truthy_false (s : jsstring) : truthy s = false <-> s = [].
Proof. destruct s; simpl; split; congruence. Qed.

Lemma truthy_true (s : jsstring) : truthy s = true <-> s <> [].
Proof. destruct s; simpl; split; congruence. Qed.

(** [trimStart] drops a prefix of white space. *)
Lemma trimStart_app_white (w s : jsstring) :
  forallb isWhiteSpace w = true -> trimStart (w ++ s) = trimStart s.
Proof.
  induction w as [|c w IH]; simpl; intros H; [reflexivity|].
  apply andb_true_iff in H as [Hc Hw]. rewrite Hc. auto.
Qed.

Lemma trimStart_white (w : jsstring) :
  forallb isWhiteSpace w = true -> trimStart w = [].
Proof.
  intros H. rewrite <- (app_nil_r w). rewrite trimStart_app_white by exact H.
  reflexivity.
Qed.

Lemma trimStart_startsBlack (s : jsstring) : startsBlack (trimStart s).
Proof.
  induction s as [|c s IH]; simpl; [exact I|].
  destruct (isWhiteSpace c) eqn:E; [exact IH | exact E].
Qed.

Lemma trimStart_id (s : jsstring) : startsBlack s -> trimStart s = s.
Proof.
  destruct s as [|c s]; simpl; intros H; [reflexivity|]. rewrite H. reflexivity.
Qed.

Lemma trimStart_idem (s : jsstring) : trimStart (trimStart s) = trimStart s.
Proof. apply trimStart_id, trimStart_startsBlack. Qed.

Lemma trimEnd_idem (s : jsstring) : trimEnd (trimEnd s) = trimEnd s.
Proof.
  unfold trimEnd. rewrite rev_involutive, trimStart_idem. reflexivity.
Qed.

Lemma trimEnd_app_white (s w : jsstring) :
  forallb isWhiteSpace w = true -> trimEnd (s ++ w) = trimEnd s.
Proof.
  intros H. unfold trimEnd. rewrite rev_app_distr.
  rewrite trimStart_app_white; [reflexivity|].
  rewrite forallb_forall in *. intros x Hx. apply H, in_rev, Hx.
Qed.

Lemma trimEnd_cons_black (c : char) (s : jsstring) :
  isWhiteSpace c = false -> exists t, trimEnd (c :: s) = c :: t.
Proof.
  intros Hc. unfold trimEnd. simpl.
  assert (H : forall u, exists v, trimStart (u ++ [c]) = v ++ [c]).
  { induction u as [|x u IH]; simpl.
    - rewrite Hc. exists []. reflexivity.
    - destruct (isWhiteSpace x); [exact IH|].
      exists (x :: u). reflexivity. }
  destruct (H (rev s)) as [v Hv]. rewrite Hv, rev_app_distr. simpl. eauto.
Qed.

Lemma trimEnd_startsBlack (s : jsstring) :
  startsBlack s -> startsBlack (trimEnd s).
Proof.
  destruct s as [|c s]; simpl; intros H.
  - exact I.
  - destruct (trimEnd_cons_black c s H) as [t Ht]. rewrite Ht. exact H.
Qed.

Lemma trimEnd_trimStart_comm (s : jsstring) :
  trimStart (trimEnd (trimStart s)) = trimEnd (trimStart s).
Proof. apply trimStart_id, trimEnd_startsBlack, trimStart_startsBlack. Qed.

(** Trimming is idempotent. *)
Lemma trim_idem (s : jsstring) : trim (trim s) = trim s.
Proof.
  unfold trim. rewrite trimEnd_trimStart_comm. apply trimEnd_idem.
Qed.

(** White space around a string does not survive [trim]. *)
Lemma trim_pad (w1 s w2 : jsstring) :
  forallb isWhiteSpace w1 = true -> forallb isWhiteSpace w2 = true ->
  trim (w1 ++ s ++ w2) = trim s.
Proof.
  intros H1 H2. unfold trim. rewrite trimStart_app_white by exact H1.
  destruct (trimStart s) as [|c t] eqn:E.
  - (* [s] is white space only *)
    assert (Hs : forallb isWhiteSpace s = true).
    { clear -E. induction s as [|x s IH]; simpl in *; [reflexivity|].
      destruct (isWhiteSpace x); [auto | discriminate]. }
    rewrite trimStart_app_white by exact Hs.
    rewrite trimStart_white by exact H2. reflexivity.
  - assert (Hc : trimStart (s ++ w2) = (c :: t) ++ w2).
    { clear -E. induction s as [|x s IH]; simpl in *; [discriminate|].
      destruct (isWhiteSpace x); [auto|].
      injection E as <- <-. reflexivity. }
    rewrite Hc. apply trimEnd_app_white, H2.
Qed.

Lemma trim_white (w : jsstring) :
  forallb isWhiteSpace w = true -> trim w = [].
Proof.
  intros H. unfold trim. rewrite trimStart_white by exact H. reflexivity.
Qed.

Lemma trim_nil_white (s : jsstring) :
  trim s = [] -> forallb isWhiteSpace s = true.
Proof.
  unfold trim. intros H.
  destruct (trimStart s) as [|c t] eqn:E.
  - clear -E. induction s as [|x s IH]; simpl in *; [reflexivity|].
    destruct (isWhiteSpace x); [auto | discriminate].
  - exfalso. pose proof (trimStart_startsBlack s) as Hb. rewrite E in Hb.
    destruct (trimEnd_cons_black c t Hb) as [u Hu]. congruence.
Qed.

(** [split] never returns the empty array. *)
Lemma split_nonempty (sep : char) (s : jsstring) : split sep s <> [].
Proof.
  destruct s as [|c s]; simpl; [discriminate|].
  destruct (N.eqb c sep); [discriminate|].
  destruct (split sep s); discriminate.
Qed.

(* ================================================================== *)
(** ** The matcher: what a match looks like *)
(* ================================================================== *)

Lemma rep_sound (g : bool) (p : char -> bool) (k : cont) (s : jsstring) :
  forall need pv cs res,
    rep g p k need pv s cs = Some res ->
    exists w s',
      s = w ++ s' /\ forallb p w = true /\ need <= length w /\
      k (MState (lastOr pv w) s' cs) = Some res.
Proof.
  induction s as [|c s IH]; intros need pv cs res H.
  - simpl in H. destruct need as [|n].
    + exists [], []. repeat split; [lia|]. cbn [lastOr fold_left].
      destruct g; destruct (k (MState pv [] cs)); congruence.
    + destruct g; discriminate.
  - simpl in H.
    assert (Hmore : forall res',
               (if p c then rep g p k (Nat.pred need) (Some c) s cs else None)
               = Some res' ->
               exists w s',
                 c :: s = w ++ s' /\ forallb p w = true /\
                 need <= length w /\
                 k (MState (lastOr pv w) s' cs) = Some res').
    { intros res' H'. destruct (p c) eqn:Pc; [|discriminate].
      apply IH in H' as (w & s' & -> & Hw & Hn & Hk).
      exists (c :: w), s'. repeat split.
      - simpl. rewrite Pc. exact Hw.
      - simpl. lia.
      - exact Hk. }
    assert (Hstop : forall res',
               match need with O => k (MState pv (c :: s) cs) | S _ => None end
               = Some res' ->
               exists w s',
                 c :: s = w ++ s' /\ forallb p w = true /\
                 need <= length w /\
                 k (MState (lastOr pv w) s' cs) = Some res').
    { intros res' H'. destruct need; [|discriminate].
      exists [], (c :: s). repeat split; [lia | exact H']. }
    destruct g.
    + destruct (if p c then rep true p k (Nat.pred need) (Some c) s cs
                else None) as [r1|] eqn:E.
      * apply Hmore. exact H.
      * apply Hstop. exact H.
    + destruct (match need with
                | O => k (MState pv (c :: s) cs)
                | S _ => None
                end) as [r1|] eqn:E.
      * apply Hstop. exact H.
      * apply Hmore. exact H.
Qed.

(** Whatever the matcher returns went through a state the pattern leads
    to. *)
Lemma m_sound (r : re) :
  forall k st res,
    m r k st = Some res -> exists st', sem r st st' /\ k st' = Some res.
Proof.
  induction r as [p|r1 IH1 r2 IH2|r1 IH1|g n p|p|p| |]; intros k st res H;
    simpl in H.
  - destruct (rest st) as [|c s'] eqn:E; [discriminate|].
    destruct (p c) eqn:Pc; [|discriminate].
    exists (MState (Some c) s' (caps st)). split; [|exact H].
    exists c. simpl. auto.
  - apply IH1 in H as (st1 & S1 & H1). apply IH2 in H1 as (st2 & S2 & H2).
    exists st2. split; [exists st1; auto | exact H2].
  - apply IH1 in H as (st1 & S1 & H1).
    eexists. split; [exists st1; split; [exact S1|reflexivity] | exact H1].
  - apply rep_sound in H as (w & s' & Hs & Hw & Hn & Hk).
    eexists. split; [|exact Hk]. exists w. simpl. auto.
  - exists st. destruct (prev st) as [c|] eqn:E.
    + destruct (p c) eqn:Pc; [discriminate|]. simpl. rewrite E. auto.
    + simpl. rewrite E. auto.
  - exists st. destruct (rest st) as [|c s'] eqn:E.
    + simpl. rewrite E. auto.
    + destruct (p c) eqn:Pc; [discriminate|]. simpl. rewrite E. auto.
  - exists st. destruct (prev st) eqn:E; [discriminate|]. simpl. auto.
  - exists st. destruct (rest st) eqn:E; [|discriminate]. simpl. auto.
Qed.

Lemma exec_sound (r : re) (s : jsstring) (a : RegExpMatchArray) :
  exec r s = Some a ->
  exists st',
    sem r (MState None s []) st' /\
    a = firstn (length s - length (rest st')) s :: caps st'.
Proof.
  unfold exec. intros H.
  destruct (m r (fun st => Some st) (MState None s [])) as [st|] eqn:E;
    [|discriminate].
  injection H as <-. apply m_sound in E as (st' & Hs & Hk).
  injection Hk as ->. exists st. auto.
Qed.

(** A pattern takes at least [minlen] code units. *)
Lemma sem_consumes (r : re) :
  forall st st',
    sem r st st' -> length (rest st') + minlen r <= length (rest st).
Proof.
  induction r as [p|r1 IH1 r2 IH2|r1 IH1|g n p|p|p| |]; intros st st' H;
    cbn [sem minlen] in *.
  - destruct H as (c & R & _). rewrite R. simpl. lia.
  - destruct H as (mid & H1 & H2). apply IH1 in H1. apply IH2 in H2. lia.
  - destruct H as (st1 & H1 & ->). apply IH1 in H1. simpl. lia.
  - destruct H as (w & R & _ & L & _). rewrite R, length_app. lia.
  - destruct H as [-> _]. lia.
  - destruct H as [-> _]. lia.
  - destruct H as [-> _]. lia.
  - destruct H as [-> _]. lia.
Qed.

(** A match is at least as long as the pattern requires. *)
Lemma exec_consumes (r : re) (s : jsstring) (a : RegExpMatchArray) :
  exec r s = Some a -> minlen r <= length (get a 0).
Proof.
  intros H. apply exec_sound in H as (st' & Hsem & ->).
  apply sem_consumes in Hsem. unfold get. simpl in *.
  rewrite length_firstn. lia.
Qed.

Lemma firstn_consumed (w r : jsstring) :
  firstn (length (w ++ r) - length r) (w ++ r) = w.
Proof.
  rewrite length_app. replace (length w + length r - length r) with (length w)
    by lia.
  rewrite firstn_app, Nat.sub_diag, firstn_all. simpl. apply app_nil_r.
Qed.

(** A bold match with delimiter [d]: the text before, twice the delimiter,
    a span that is not empty, twice the delimiter. *)
Lemma bold_match (d : ascii) (s : jsstring) (a : RegExpMatchArray) :
  exec (Bol ;; Grp (Rep false 0 dot) ;; lit d ;; lit d ;;
        Grp (Rep false 1 dot) ;; lit d ;; lit d) s = Some a ->
  exists before span tail,
    s = before ++ chr d :: chr d :: span ++ chr d :: chr d :: tail /\
    span <> [] /\
    forallb dot before = true /\ forallb dot span = true /\
    a = [before ++ chr d :: chr d :: span ++ [chr d; chr d]; before; span].
Proof.
  intros H. apply exec_sound in H as (st' & Hsem & ->).
  cbn [sem] in Hsem.
  destruct Hsem as (s0 & [E0 _] & s1 & (g1 & (w1 & R1 & F1 & _ & P1 & C1) & E1)
                    & s2 & (c2 & R2 & Q2 & P2 & C2)
                    & s3 & (c3 & R3 & Q3 & P3 & C3)
                    & s4 & (g4 & (w4 & R4 & F4 & L4 & P4 & C4) & E4)
                    & s5 & (c5 & R5 & Q5 & P5 & C5)
                    & (c6 & R6 & Q6 & P6 & C6)).
  subst s0 s1 s4. cbn [rest caps prev] in *.
  apply N.eqb_eq in Q2, Q3, Q5, Q6. subst c2 c3 c5 c6.
  exists w1, w4, (rest st').
  assert (Hs : s = w1 ++ chr d :: chr d :: w4 ++ chr d :: chr d :: rest st').
  { rewrite R1, R2, R3, R4, R5, R6. reflexivity. }
  split; [exact Hs|]. split; [destruct w4; [simpl in L4; lia|discriminate]|].
  split; [exact F1|]. split; [exact F4|].
  assert (A1 : firstn (length s - length (rest g1)) s = w1)
    by (rewrite R1; apply firstn_consumed).
  assert (A4 : firstn (length (rest s3) - length (rest g4)) (rest s3) = w4)
    by (rewrite R4; apply firstn_consumed).
  rewrite C6, C5, C4, C3, C2, C1, A1, A4. cbn [app]. f_equal.
  rewrite Hs.
  replace (w1 ++ chr d :: chr d :: w4 ++ chr d :: chr d :: rest st')
    with ((w1 ++ chr d :: chr d :: w4 ++ [chr d; chr d]) ++ rest st').
  - apply firstn_consumed.
  - rewrite <- app_assoc. cbn [app]. do 3 f_equal.
    rewrite <- app_assoc. reflexivity.
Qed.

(** An italic match with delimiter [d]: the text before, which does not
    end with the delimiter; the delimiter; a span without the delimiter
    that is not empty; the delimiter, with no delimiter after it. *)
Lemma italic_match (d : ascii) (s : jsstring) (a : RegExpMatchArray) :
  exec (Bol ;; Grp (Rep false 0 dot) ;; NotBehind (isChar d) ;; lit d ;;
        Grp (Rep true 1 (isNot d)) ;; lit d ;; NotAhead (isChar d)) s
  = Some a ->
  exists before span tail,
    s = before ++ chr d :: span ++ chr d :: tail /\
    span <> [] /\
    forallb dot before = true /\ forallb (isNot d) span = true /\
    match lastOr None before with
    | Some c => isChar d c = false
    | None => True
    end /\
    match tail with c :: _ => isChar d c = false | [] => True end /\
    a = [before ++ chr d :: span ++ [chr d]; before; span].
Proof.
  intros H. apply exec_sound in H as (st' & Hsem & ->).
  cbn [sem] in Hsem.
  destruct Hsem as (s0 & [E0 _] & s1 & (g1 & (w1 & R1 & F1 & _ & P1 & C1) & E1)
                    & s2 & (E2 & B2)
                    & s3 & (c3 & R3 & Q3 & P3 & C3)
                    & s4 & (g4 & (w4 & R4 & F4 & L4 & P4 & C4) & E4)
                    & s5 & (c5 & R5 & Q5 & P5 & C5)
                    & (E6 & A6)).
  subst s0 s1 s2 s4 s5. cbn [rest caps prev] in *.
  apply N.eqb_eq in Q3, Q5. subst c3 c5.
  exists w1, w4, (rest st').
  assert (Hs : s = w1 ++ chr d :: w4 ++ chr d :: rest st').
  { rewrite R1, R3, R4, R5. reflexivity. }
  split; [exact Hs|]. split; [destruct w4; [simpl in L4; lia|discriminate]|].
  split; [exact F1|]. split; [exact F4|].
  split; [rewrite <- P1; exact B2|]. split; [exact A6|].
  assert (A1 : firstn (length s - length (rest g1)) s = w1)
    by (rewrite R1; apply firstn_consumed).
  assert (A4 : firstn (length (rest s3) - length (rest g4)) (rest s3) = w4)
    by (rewrite R4; apply firstn_consumed).
  rewrite C5, C4, C3, C1, A1, A4. cbn [app]. f_equal.
  rewrite Hs.
  replace (w1 ++ chr d :: w4 ++ chr d :: rest st')
    with ((w1 ++ chr d :: w4 ++ [chr d]) ++ rest st').
  - apply firstn_consumed.
  - rewrite <- app_assoc. cbn [app]. do 2 f_equal.
    rewrite <- app_assoc. reflexivity.
Qed.

(** A match of the numbered pattern: digits, a dot, white space, and the
    content up to the end of the line; the content is the second capture
    and holds nothing of the digits. *)
Lemma numbered_match (s : jsstring) (a : RegExpMatchArray) :
  exec numberedRe s = Some a ->
  exists ds ws content,
    s = ds ++ chr "." :: ws ++ content /\
    ds <> [] /\ forallb isDigit ds = true /\
    ws <> [] /\ forallb isWhiteSpace ws = true /\
    forallb dot content = true /\
    a = [s; ds; content].
Proof.
  intros H. apply exec_sound in H as (st' & Hsem & ->).
  unfold numberedRe in Hsem. cbn [sem] in Hsem.
  destruct Hsem as (s0 & [E0 _]
                    & s1 & (g1 & (w1 & R1 & F1 & L1 & P1 & C1) & E1)
                    & s2 & (c2 & R2 & Q2 & P2 & C2)
                    & s3 & (w3 & R3 & F3 & L3 & P3 & C3)
                    & s4 & (g4 & (w4 & R4 & F4 & _ & P4 & C4) & E4)
                    & (E5 & R5)).
  subst s0 s1 s4. cbn [rest caps prev] in *.
  apply N.eqb_eq in Q2. subst c2 st'. cbn [rest caps prev].
  rewrite R5, app_nil_r in R4.
  exists w1, w3, w4.
  assert (Hs : s = w1 ++ chr "." :: w3 ++ w4).
  { rewrite R1, R2, R3, R4. reflexivity. }
  split; [exact Hs|].
  split; [destruct w1; [simpl in L1; lia|discriminate]|].
  split; [exact F1|].
  split; [destruct w3; [simpl in L3; lia|discriminate]|].
  split; [exact F3|]. split; [exact F4|].
  assert (A1 : firstn (length s - length (rest g1)) s = w1)
    by (rewrite R1; apply firstn_consumed).
  rewrite R5. cbn [length]. rewrite !Nat.sub_0_r, !firstn_all.
  rewrite C4, C3, C2, C1, A1, R4. reflexivity.
Qed.

(** *** The candidate the loop works on *)

Lemma In_insertByIndex (x c : candidate) (l : list candidate) :
  In x (insertByIndex c l) <-> x = c \/ In x l.
Proof.
  induction l as [|d l IH]; simpl.
  - intuition congruence.
  - destruct (index c <=? index d); simpl; rewrite ?IH; intuition congruence.
Qed.

Lemma In_sortByIndex (x : candidate) (l : list candidate) :
  In x (sortByIndex l) <-> In x l.
Proof.
  induction l as [|c l IH]; simpl; [tauto|].
  rewrite In_insertByIndex, IH. intuition congruence.
Qed.

Lemma selectFirst_In (cands : list candidate) (c : candidate) :
  selectFirst cands = Some c -> In c cands.
Proof.
  unfold selectFirst. intros H. apply In_sortByIndex.
  destruct (sortByIndex cands); [discriminate|].
  injection H as ->. left. reflexivity.
Qed.

Lemma In_candidates (c : candidate) (b1 b2 i1 i2 : option RegExpMatchArray) :
  In c (candidates b1 b2 i1 i2) ->
  Some (match_ c) = b1 \/ Some (match_ c) = b2 \/
  Some (match_ c) = i1 \/ Some (match_ c) = i2.
Proof.
  unfold candidates.
  destruct b1, b2, i1, i2; simpl; intros H;
    repeat (destruct H as [<-|H]; [simpl; tauto|]); contradiction.
Qed.

(** Every span the loop picks is at least three code units long. *)
Lemma firstMatch_consumes (remaining : jsstring) (fm : candidate) :
  firstMatch remaining = Some fm -> 3 <= length (get (match_ fm) 0).
Proof.
  intros H. apply selectFirst_In, In_candidates in H.
  destruct H as [H|[H|[H|H]]]; symmetry in H; apply exec_consumes in H;
    simpl in H; lia.
Qed.

(** The loop of [parseInlineMarkdown] ends: [length remaining] iterations
    are enough. *)
Lemma inlineLoop_returns (fuel : nat) :
  forall remaining runs,
    length remaining <= fuel ->
    exists out, inlineLoop fuel remaining runs = Some out.
Proof.
  induction fuel as [|fuel IH]; intros remaining runs Hlen.
  - destruct remaining; [simpl; eauto | simpl in Hlen; lia].
  - destruct remaining as [|c s]; [simpl; eauto|].
    cbn [inlineLoop].
    destruct (firstMatch (c :: s)) as [fm|] eqn:E; [|eauto].
    apply IH. apply firstMatch_consumes in E.
    unfold substring. rewrite length_skipn.
    cbn [length] in Hlen |- *. lia.
Qed.

(** More fuel than needed changes nothing. *)
Lemma inlineLoop_fuel (fuel : nat) :
  forall remaining runs out extra,
    inlineLoop fuel remaining runs = Some out ->
    inlineLoop (fuel + extra) remaining runs = Some out.
Proof.
  induction fuel as [|fuel IH]; intros remaining runs out extra H.
  - destruct remaining; [|discriminate]. simpl in H.
    destruct (0 + extra); simpl; exact H.
  - destruct remaining as [|c s]; [exact H|].
    cbn [inlineLoop Nat.add] in *.
    destruct (firstMatch (c :: s)) as [fm|]; [|exact H].
    apply IH. exact H.
Qed.

(** [parseInlineMarkdown] is the loop run to its end: with [length text]
    iterations or more the loop returns, always the same runs, and the
    function returns them, or the one plain run of its last line when there
    are none. *)
Lemma parseInlineMarkdown_loop (text : jsstring) :
  exists runs,
    (forall fuel, length text <= fuel -> inlineLoop fuel text [] = Some runs) /\
    parseInlineMarkdown text =
    match runs with
    | [] => [plainRun text]
    | _ :: _ => runs
    end.
Proof.
  destruct (inlineLoop_returns (length text) text [] (le_n _)) as [runs H].
  exists runs. split.
  - intros fuel Hf.
    replace fuel with (length text + (fuel - length text)) by lia.
    apply inlineLoop_fuel, H.
  - unfold parseInlineMarkdown. rewrite H. reflexivity.
Qed.

(* ================================================================== *)
(** ** The inline run parser *)
(* ================================================================== *)

(** C6, as the code has it: on the empty line the loop is not entered, the
    run array is empty and the last line of the function answers with one
    plain run whose text is the empty line itself. *)
Theorem C6_empty_line_one_empty_plain_run :
  parseInlineMarkdown (str "") =
  [MkRun (str "") false false (Some 20%N) (Some (str "000000"))].
Proof. reflexivity. Qed.

(** C6, as stated, fails: the run sequence of the empty line is not empty,
    it has one element. *)
Lemma C6_empty_line_not_zero_runs :
  parseInlineMarkdown (str "") <> [] /\
  length (parseInlineMarkdown (str "")) = 1.
Proof. split; [discriminate | reflexivity]. Qed.

(** The parser never returns the empty array. *)
Lemma parseInlineMarkdown_nonempty (text : jsstring) :
  parseInlineMarkdown text <> [].
Proof.
  unfold parseInlineMarkdown.
  destruct (inlineLoop (length text) text []) as [[|r runs]|]; discriminate.
Qed.

(** *** The selection among the candidates *)

(** The head of the sorted array, computed without sorting. *)
Lemma selectFirst_cons (c : candidate) (l : list candidate) :
  selectFirst (c :: l) =
  match selectFirst l with
  | None => Some c
  | Some d => if index c <=? index d then Some c else Some d
  end.
Proof.
  unfold selectFirst. simpl. destruct (sortByIndex l) as [|d l']; simpl.
  - reflexivity.
  - destruct (index c <=? index d); reflexivity.
Qed.

(** The selected candidate has the least index. *)
Lemma selectFirst_least (l : list candidate) :
  forall fm, selectFirst l = Some fm ->
             forall d, In d l -> index fm <= index d.
Proof.
  induction l as [|c l IH]; intros fm H d Hd; [contradiction|].
  rewrite selectFirst_cons in H.
  destruct (selectFirst l) as [e|] eqn:E.
  - destruct (index c <=? index e) eqn:L; injection H as <-.
    + apply Nat.leb_le in L. destruct Hd as [<-|Hd]; [lia|].
      specialize (IH e eq_refl d Hd). lia.
    + apply Nat.leb_gt in L. destruct Hd as [<-|Hd]; [lia|].
      exact (IH e eq_refl d Hd).
  - injection H as <-. destruct Hd as [<-|Hd]; [lia|].
    destruct l as [|x l]; [contradiction|].
    rewrite selectFirst_cons in E. destruct (selectFirst l) as [y|];
      [destruct (index x <=? index y)|]; discriminate.
Qed.

(** Stability: when the array begins with the candidates of one type and
    one of them has the least index of all, the selected candidate is of
    that type. *)
Lemma selectFirst_front (ty : spanType) (front : list candidate) :
  forall back b,
    Forall (fun c => type c = ty) front ->
    In b front ->
    (forall d, In d (front ++ back) -> index b <= index d) ->
    exists fm, selectFirst (front ++ back) = Some fm /\
               type fm = ty /\ index fm = index b.
Proof.
  induction front as [|c front IH]; intros back b Hty Hb Hmin; [contradiction|].
  apply Forall_cons_iff in Hty as [Hc Hfront].
  cbn [app]. rewrite selectFirst_cons.
  destruct (selectFirst (front ++ back)) as [d|] eqn:E.
  - destruct (index c <=? index d) eqn:L.
    + exists c. split; [reflexivity|split; [exact Hc|]].
      apply Nat.leb_le in L.
      assert (index b <= index c) by (apply Hmin; left; reflexivity).
      destruct Hb as [->|Hb]; [reflexivity|].
      assert (index d <= index b).
      { apply (selectFirst_least _ _ E). apply in_or_app. left. exact Hb. }
      lia.
    + apply Nat.leb_gt in L.
      assert (Hd : In d (front ++ back)) by (apply selectFirst_In; exact E).
      destruct Hb as [->|Hb].
      * assert (index b <= index d) by (apply Hmin; right; exact Hd). lia.
      * destruct (IH back b Hfront Hb) as (fm & Hfm & Ht & Hi).
        { intros x Hx. apply Hmin. right. exact Hx. }
        exists fm. split; [congruence|split; assumption].
  - exists c. split; [reflexivity|split; [exact Hc|]].
    destruct Hb as [->|Hb]; [reflexivity|].
    destruct front as [|x front]; [contradiction|].
    cbn [app] in E. rewrite selectFirst_cons in E.
    destruct (selectFirst (front ++ back)) as [y|];
      [destruct (index x <=? index y)|]; discriminate.
Qed.

(** The candidate array is the bold candidates followed by the italic
    ones. *)
Lemma candidates_split (b1 b2 i1 i2 : option RegExpMatchArray) :
  candidates b1 b2 i1 i2 =
  filterBoolean [mkCandidate bold_span b1; mkCandidate bold_span b2] ++
  filterBoolean [mkCandidate italic_span i1; mkCandidate italic_span i2].
Proof. unfold candidates. destruct b1, b2; reflexivity. Qed.

Lemma filterBoolean_type (ty : spanType) (m1 m2 : option RegExpMatchArray) :
  Forall (fun c => type c = ty)
    (filterBoolean [mkCandidate ty m1; mkCandidate ty m2]).
Proof. destruct m1, m2; simpl; repeat constructor. Qed.

Lemma app_eq_length (a b c d : jsstring) :
  a ++ c = b ++ d -> length a = length b -> a = b /\ c = d.
Proof.
  revert b; induction a as [|x a IH]; intros [|y b] H L; simpl in *;
    try discriminate; [auto|].
  injection H as -> H. injection L as L.
  destruct (IH b H L) as [-> ->]. auto.
Qed.

(** A bold match and an italic match on the same text never start at the
    same offset, whatever the two delimiters: where the bold one has twice
    its delimiter the italic one has its delimiter followed by a code unit
    that is not the delimiter. *)
Lemma bold_italic_offsets_differ (db di : ascii) (s : jsstring)
    (ab ai : RegExpMatchArray) :
  exec (Bol ;; Grp (Rep false 0 dot) ;; lit db ;; lit db ;;
        Grp (Rep false 1 dot) ;; lit db ;; lit db) s = Some ab ->
  exec (Bol ;; Grp (Rep false 0 dot) ;; NotBehind (isChar di) ;; lit di ;;
        Grp (Rep true 1 (isNot di)) ;; lit di ;; NotAhead (isChar di)) s
  = Some ai ->
  length (get ab 1) <> length (get ai 1).
Proof.
  intros Hb Hi.
  apply bold_match in Hb as (wb & sb & tb & Sb & _ & _ & _ & ->).
  apply italic_match in Hi as (wi & si & ti & Si & Ni & _ & Fi & _ & _ & ->).
  unfold get. cbn [nth]. intros L.
  rewrite Sb in Si. apply app_eq_length in Si as [_ E]; [|exact L].
  destruct si as [|x si]; [congruence|].
  cbn [app] in E. injection E as E1 E2 _.
  cbn [forallb] in Fi. apply andb_true_iff in Fi as [Fx _].
  unfold isNot, isChar in Fx. rewrite <- E2, E1, N.eqb_refl in Fx.
  discriminate.
Qed.

Lemma In_candidates_typed (c : candidate)
    (b1 b2 i1 i2 : option RegExpMatchArray) :
  In c (candidates b1 b2 i1 i2) ->
  index c = length (get (match_ c) 1) /\
  match type c with
  | bold_span => Some (match_ c) = b1 \/ Some (match_ c) = b2
  | italic_span => Some (match_ c) = i1 \/ Some (match_ c) = i2
  end.
Proof.
  unfold candidates.
  destruct b1, b2, i1, i2; simpl; intros H;
    repeat (destruct H as [<-|H]; [simpl; tauto|]); contradiction.
Qed.

(** X5: On one text the bold candidates and the italic candidates never have
    the same index: the sort of [parseInlineMarkdown] never has to break a tie
    between a bold span and an italic span. *)
Lemma bold_italic_never_tie (remaining : jsstring) (b i : candidate) :
  In b (candidates (exec boldRe remaining) (exec boldRe2 remaining)
          (exec italicRe remaining) (exec italicRe2 remaining)) ->
  In i (candidates (exec boldRe remaining) (exec boldRe2 remaining)
          (exec italicRe remaining) (exec italicRe2 remaining)) ->
  type b = bold_span ->
  type i = italic_span ->
  index b <> index i.
Proof.
  intros Hb Hi Tb Ti.
  apply In_candidates_typed in Hb as [Ib Hb], Hi as [Ii Hi].
  rewrite Tb in Hb. rewrite Ti in Hi. rewrite Ib, Ii.
  destruct Hb as [Hb|Hb], Hi as [Hi|Hi]; symmetry in Hb, Hi;
    eapply bold_italic_offsets_differ; eassumption.
Qed.

(* ================================================================== *)
(** ** The line compiler *)
(* ================================================================== *)

Lemma forEachLine_spec (lines : list jsstring) :
  forall n ps,
    forEachLine lines n ps =
    (ps ++ paragraphsFrom n lines, counterAfter n lines).
Proof.
  induction lines as [|l ls IH]; intros n ps; simpl.
  - rewrite app_nil_r. reflexivity.
  - destruct (processLine n l) as [p n'] eqn:E. rewrite IH. simpl.
    rewrite <- app_assoc. reflexivity.
Qed.

Lemma paragraphsFrom_length (lines : list jsstring) :
  forall n, length (paragraphsFrom n lines) = length lines.
Proof.
  induction lines as [|l ls IH]; intros n; simpl; [|rewrite IH]; reflexivity.
Qed.

Lemma paragraphsFrom_app (a b : list jsstring) :
  forall n,
    paragraphsFrom n (a ++ b) =
    paragraphsFrom n a ++ paragraphsFrom (counterAfter n a) b.
Proof.
  induction a as [|l a IH]; intros n; simpl; [reflexivity|].
  rewrite IH. reflexivity.
Qed.

Lemma counterAfter_app (a b : list jsstring) (n : N) :
  counterAfter n (a ++ b) = counterAfter (counterAfter n a) b.
Proof. unfold counterAfter. apply fold_left_app. Qed.

(** A text that is not white space only is compiled line by line. *)
Lemma parseMarkdownToParagraphs_lines (text : jsstring) :
  trim text <> [] ->
  parseMarkdownToParagraphs text = paragraphsFrom 0 (split 10%N text).
Proof.
  intros H. unfold parseMarkdownToParagraphs.
  assert (Ht : truthy (trim text) = true) by (apply truthy_true; exact H).
  assert (Hx : truthy text = true).
  { apply truthy_true. intros ->. apply H. reflexivity. }
  rewrite Ht, Hx. simpl. rewrite forEachLine_spec. reflexivity.
Qed.

Lemma parseMarkdownToParagraphs_white (text : jsstring) :
  trim text = [] -> parseMarkdownToParagraphs text = [placeholderParagraph].
Proof.
  intros H. unfold parseMarkdownToParagraphs. rewrite H. simpl.
  rewrite orb_true_r. reflexivity.
Qed.

(** C2: the compiler never returns the empty array, and on an empty or
    white-space-only text it returns the one placeholder paragraph, whose
    single run is "No content provided" in italics and the muted colour
    9ca3af. *)
Theorem C2_never_empty_placeholder_on_blank (text : jsstring) :
  parseMarkdownToParagraphs text <> [] /\
  (forallb isWhiteSpace text = true ->
   parseMarkdownToParagraphs text =
   [ MkPara
       [MkRun (str "No content provided") false true (Some 20%N)
          (Some (str "9ca3af"))]
       None None None None ]).
Proof.
  split.
  - destruct (trim text) as [|c t] eqn:E.
    + rewrite parseMarkdownToParagraphs_white by exact E. discriminate.
    + rewrite parseMarkdownToParagraphs_lines by congruence.
      intros H. apply (f_equal (@length _)) in H.
      rewrite paragraphsFrom_length in H.
      destruct (split 10%N text) eqn:S; [|discriminate].
      exact (split_nonempty _ _ S).
  - intros H. apply parseMarkdownToParagraphs_white, trim_white, H.
Qed.

(** C2 at the text made of a space, a line feed, a tab and a space. *)
Lemma C2_never_empty_placeholder_on_blank_witness :
  parseMarkdownToParagraphs [32; 10; 9; 32]%N =
  [ MkPara
      [MkRun (str "No content provided") false true (Some 20%N)
         (Some (str "9ca3af"))]
      None None None None ].
Proof.
  apply (proj2 (C2_never_empty_placeholder_on_blank [32; 10; 9; 32]%N)).
  reflexivity.
Defined.

(** On a text that is not white space only there is one paragraph per
    line. *)
Lemma parseMarkdownToParagraphs_length (text : jsstring) :
  trim text <> [] ->
  length (parseMarkdownToParagraphs text) = length (split 10%N text).
Proof.
  intros H. rewrite parseMarkdownToParagraphs_lines by exact H.
  apply paragraphsFrom_length.
Qed.

(** *** Headings *)

Lemma classify_heading1 (t : jsstring) :
  startsWith t (str "# ") = true -> classify t = Heading1 (substring t 2).
Proof.
  change (str "# ") with [35; 32]%N.
  destruct t as [|a [|b t]]; cbn [startsWith];
    rewrite ?andb_false_r; try discriminate.
  intros H. apply andb_true_iff in H as [Ha H].
  apply andb_true_iff in H as [Hb _].
  apply N.eqb_eq in Ha, Hb. subst a b. reflexivity.
Qed.

Lemma classify_heading2 (t : jsstring) :
  startsWith t (str "## ") = true -> classify t = Heading2 (substring t 3).
Proof.
  change (str "## ") with [35; 35; 32]%N.
  destruct t as [|a [|b [|c t]]]; cbn [startsWith];
    rewrite ?andb_false_r; try discriminate.
  intros H. apply andb_true_iff in H as [Ha H].
  apply andb_true_iff in H as [Hb H]. apply andb_true_iff in H as [Hc _].
  apply N.eqb_eq in Ha, Hb, Hc. subst a b c. reflexivity.
Qed.

Lemma classify_heading3 (t : jsstring) :
  startsWith t (str "### ") = true -> classify t = Heading3 (substring t 4).
Proof.
  change (str "### ") with [35; 35; 35; 32]%N.
  destruct t as [|a [|b [|c [|d t]]]]; cbn [startsWith];
    rewrite ?andb_false_r; try discriminate.
  intros H. apply andb_true_iff in H as [Ha H].
  apply andb_true_iff in H as [Hb H]. apply andb_true_iff in H as [Hc H].
  apply andb_true_iff in H as [Hd _].
  apply N.eqb_eq in Ha, Hb, Hc, Hd. subst a b c d. reflexivity.
Qed.

(** C5, as the code has it: the tests are made on the trimmed line.  A line
    whose trimmed form starts with "# " ("## ", "### ") takes the heading
    branch of that level with the rest of the trimmed line as text,
    whatever that rest is; the trimmed line "# 1. Title" is a level-1
    heading although its rest "1. Title" matches the numbered pattern. *)
Theorem C5_heading_wins_on_trimmed_line :
  (forall line : jsstring,
      (startsWith (trim line) (str "# ") = true ->
       classify (trim line) = Heading1 (substring (trim line) 2)) /\
      (startsWith (trim line) (str "## ") = true ->
       classify (trim line) = Heading2 (substring (trim line) 3)) /\
      (startsWith (trim line) (str "### ") = true ->
       classify (trim line) = Heading3 (substring (trim line) 4)))
  /\ classify (trim (str "# 1. Title")) = Heading1 (str "1. Title")
  /\ classify (trim (str "1. Title")) = Ordered (str "Title").
Proof.
  split; [|split; vm_compute; reflexivity].
  intros line. split; [|split].
  - apply classify_heading1.
  - apply classify_heading2.
  - apply classify_heading3.
Qed.

(** C5 at the lines "# 1. Title", "## 2. b" and "  ### 3) c". *)
Lemma C5_heading_wins_on_trimmed_line_witness :
  classify (trim (str "# 1. Title")) = Heading1 (str "1. Title") /\
  classify (trim (str "## 2. b")) = Heading2 (str "2. b") /\
  classify (trim (str "  ### 3) c")) = Heading3 (str "3) c").
Proof.
  split; [|split].
  - apply (proj1 (proj1 C5_heading_wins_on_trimmed_line (str "# 1. Title"))).
    reflexivity.
  - apply (proj1 (proj2 (proj1 C5_heading_wins_on_trimmed_line
                                 (str "## 2. b")))).
    reflexivity.
  - apply (proj2 (proj2 (proj1 C5_heading_wins_on_trimmed_line
                                 (str "  ### 3) c")))).
    reflexivity.
Defined.

(** C5, as stated, fails: the line "# " starts with "# ", its trimmed form
    is "#", and it is compiled as a plain paragraph with the text "#", not
    as a heading. *)
Lemma C5_hash_space_is_a_paragraph :
  startsWith (str "# ") (str "# ") = true /\
  classify (trim (str "# ")) = Para (str "#") /\
  processLine 0 (str "# ") =
  (MkPara [MkRun (str "#") false false (Some 20%N) (Some (str "000000"))]
     None None None (Some 80%N), 0%N).
Proof. vm_compute. repeat split. Qed.

(* ================================================================== *)
(** ** The numbering of ordered items *)
(* ================================================================== *)

Lemma processLine_ordered (n : N) (line content : jsstring) :
  kindOf line = Ordered content ->
  processLine n line = (orderedParagraph (n + 1) content, (n + 1)%N).
Proof. unfold processLine, kindOf. intros ->. reflexivity. Qed.

(** X9: An ordered line is digits, a dot, white space and the content: the
    digits are not part of the content, and the paragraph is built from the
    content and the counter only. *)
Lemma ordered_line_shape (line content : jsstring) :
  kindOf line = Ordered content ->
  exists ds ws,
    trim line = ds ++ chr "." :: ws ++ content /\
    ds <> [] /\ forallb isDigit ds = true /\
    ws <> [] /\ forallb isWhiteSpace ws = true.
Proof.
  unfold kindOf, classify. intros H.
  destruct (negb (truthy (trim line))); [discriminate|].
  destruct (startsWith (trim line) (str "### ")); [discriminate|].
  destruct (startsWith (trim line) (str "## ")); [discriminate|].
  destruct (startsWith (trim line) (str "# ")); [discriminate|].
  destruct (startsWith (trim line) (str "- ") ||
            startsWith (trim line) (str "* ")); [discriminate|].
  destruct (exec numberedRe (trim line)) as [a|] eqn:E.
  - injection H as <-.
    apply numbered_match in E
      as (ds & ws & c & Hs & D1 & D2 & W1 & W2 & _ & ->).
    exists ds, ws. unfold get. cbn [nth]. auto.
  - destruct (exec subItemRe (trim line)); discriminate.
Qed.

Lemma processLine_resets (n : N) (line : jsstring) :
  resets (kindOf line) = true -> snd (processLine n line) = 0%N.
Proof.
  unfold processLine, kindOf. destruct (classify (trim line)); simpl;
    congruence.
Qed.

Lemma processLine_continues (n : N) (line : jsstring) :
  continues (kindOf line) = true ->
  snd (processLine n line) =
  (n + if isOrdered (kindOf line) then 1 else 0)%N.
Proof.
  unfold processLine, kindOf. destruct (classify (trim line)); simpl;
    try congruence; intros _; lia.
Qed.

Lemma counterAfter_snoc_resets (pre : list jsstring) (l : jsstring) (n : N) :
  resets (kindOf l) = true -> counterAfter n (pre ++ [l]) = 0%N.
Proof.
  intros H. rewrite counterAfter_app. simpl. apply processLine_resets, H.
Qed.

Lemma counterAfter_continues (mid : list jsstring) :
  forall n,
    Forall (fun l => continues (kindOf l) = true) mid ->
    counterAfter n mid = (n + orderedCount mid)%N.
Proof.
  unfold orderedCount.
  induction mid as [|l mid IH]; intros n H.
  - simpl. lia.
  - apply Forall_cons_iff in H as [Hl Hmid].
    change (counterAfter n (l :: mid))
      with (counterAfter (snd (processLine n l)) mid).
    rewrite IH by exact Hmid. rewrite processLine_continues by exact Hl.
    cbn [filter]. destruct (isOrdered (kindOf l)); cbn [length]; lia.
Qed.

Lemma split_white (sep : char) (s : jsstring) :
  forallb isWhiteSpace s = true ->
  Forall (fun l => forallb isWhiteSpace l = true) (split sep s).
Proof.
  induction s as [|c s IH]; simpl; intros H.
  - repeat constructor.
  - apply andb_true_iff in H as [Hc Hs]. specialize (IH Hs).
    destruct (N.eqb c sep).
    + constructor; [reflexivity|exact IH].
    + destruct (split sep s) as [|l ls].
      * repeat constructor. simpl. rewrite Hc. reflexivity.
      * apply Forall_cons_iff in IH as [Hl Hls].
        constructor; [simpl; rewrite Hc; exact Hl | exact Hls].
Qed.

(** A text with a line that is not blank is not white space only. *)
Lemma line_not_blank_text_not_blank (text line : jsstring) :
  In line (split 10%N text) -> trim line <> [] -> trim text <> [].
Proof.
  intros Hin Hline Htext. apply Hline.
  apply trim_nil_white, (split_white 10%N) in Htext.
  rewrite Forall_forall in Htext. apply trim_white, Htext, Hin.
Qed.

(** C1, as the code has it: the ordinal of an ordered line is the
    compiler's counter, not the digits of the line.  When the line comes
    after a bullet or paragraph line (or after the start of the text) with
    only ordered items, blank lines and lettered sub-items in between, its
    ordinal is one more than the number of ordered items in between: a
    bullet or a paragraph restarts the numbering at 1, a blank line or a
    lettered sub-item does not. *)
Theorem C1_ordinal_is_the_counter
    (text : jsstring) (pre mid : list jsstring) (line : jsstring)
    (post : list jsstring) (content : jsstring) :
  split 10%N text = pre ++ mid ++ line :: post ->
  (pre = [] \/ exists pre' l, pre = pre' ++ [l] /\ resets (kindOf l) = true) ->
  Forall (fun l => continues (kindOf l) = true) mid ->
  kindOf line = Ordered content ->
  nth_error (parseMarkdownToParagraphs text) (length pre + length mid) =
  Some (orderedParagraph (orderedCount mid + 1) content).
Proof.
  intros Hsplit Hpre Hmid Hline.
  assert (Htext : trim text <> []).
  { apply (line_not_blank_text_not_blank text line).
    - rewrite Hsplit. apply in_or_app. right. apply in_or_app. right.
      left. reflexivity.
    - unfold kindOf in Hline. intros E. rewrite E in Hline. discriminate. }
  rewrite parseMarkdownToParagraphs_lines by exact Htext.
  rewrite Hsplit, !paragraphsFrom_app.
  assert (H0 : counterAfter 0 pre = 0%N).
  { destruct Hpre as [->|(pre' & l & -> & Hl)]; [reflexivity|].
    apply counterAfter_snoc_resets, Hl. }
  rewrite H0, counterAfter_continues by exact Hmid.
  rewrite nth_error_app2 by (rewrite paragraphsFrom_length; lia).
  rewrite nth_error_app2 by (rewrite !paragraphsFrom_length; lia).
  rewrite !paragraphsFrom_length.
  replace (length pre + length mid - length pre - length mid) with 0 by lia.
  cbn [paragraphsFrom nth_error]. rewrite (processLine_ordered _ _ _ Hline).
  reflexivity.
Qed.

(** C1 at the text of the claim, "1. A", "- x", "1. B": the second ordered
    item has ordinal 1; and at "- x", "1. A", "", "a) s", "7. B": the item
    written "7." has ordinal 2. *)
Lemma C1_ordinal_is_the_counter_witness :
  nth_error
    (parseMarkdownToParagraphs (doc [str "1. A"; str "- x"; str "1. B"])) 2 =
    Some (orderedParagraph 1 (str "B")) /\
  nth_error
    (parseMarkdownToParagraphs
       (doc [str "- x"; str "1. A"; str ""; str "a) s"; str "7. B"])) 4 =
    Some (orderedParagraph 2 (str "B")).
Proof.
  split.
  - apply (C1_ordinal_is_the_counter (doc [str "1. A"; str "- x"; str "1. B"])
             [str "1. A"; str "- x"] [] (str "1. B") [] (str "B")).
    + reflexivity.
    + right. exists [str "1. A"], (str "- x"). split; reflexivity.
    + constructor.
    + reflexivity.
  - apply (C1_ordinal_is_the_counter
             (doc [str "- x"; str "1. A"; str ""; str "a) s"; str "7. B"])
             [str "- x"] [str "1. A"; str ""; str "a) s"] (str "7. B") []
             (str "B")).
    + reflexivity.
    + right. exists [], (str "- x"). split; reflexivity.
    + repeat constructor.
    + reflexivity.
Defined.

(** C1, as stated, fails: a blank line and a lettered sub-item are blocks of
    a kind other than Ordered, and the ordered item after them is numbered
    2, not 1. *)
Lemma C1_blank_and_lettered_do_not_restart :
  map lineText
    (parseMarkdownToParagraphs (doc [str "1. A"; str ""; str "1. B"])) =
    [str "1. A"; str ""; str "2. B"] /\
  map lineText
    (parseMarkdownToParagraphs (doc [str "1. A"; str "a. s"; str "1. B"])) =
    [str "1. A"; str "a. s"; str "2. B"].
Proof. vm_compute. split; reflexivity. Qed.

(* ================================================================== *)
(** ** Lines are trimmed before they are classified *)
(* ================================================================== *)

Lemma trim_startsBlack (s : jsstring) : startsBlack (trim s).
Proof. apply trimEnd_startsBlack, trimStart_startsBlack. Qed.

Lemma trim_endsBlack (s : jsstring) : startsBlack (rev (trim s)).
Proof.
  unfold trim, trimEnd. rewrite rev_involutive. apply trimStart_startsBlack.
Qed.

Lemma processLine_trim (n : N) (line : jsstring) :
  processLine n (trim line) = processLine n line.
Proof. unfold processLine. rewrite trim_idem. reflexivity. Qed.

(** Compiling trimmed lines gives the paragraphs of the lines. *)
Lemma paragraphsFrom_trim (lines : list jsstring) :
  forall n, paragraphsFrom n (map trim lines) = paragraphsFrom n lines.
Proof.
  induction lines as [|l ls IH]; intros n; cbn [map paragraphsFrom];
    [reflexivity|].
  rewrite processLine_trim, IH. reflexivity.
Qed.

(** C10: the callback works on the trimmed line only.  A line and its
    trimmed form give the same paragraph and the same counter; white space
    put before and after a line changes neither; and what is classified and
    rendered neither starts nor ends with a white-space code unit. *)
Theorem C10_line_compiled_as_its_trimmed_form
    (n : N) (line w1 w2 : jsstring) :
  forallb isWhiteSpace w1 = true ->
  forallb isWhiteSpace w2 = true ->
  processLine n line = processLine n (trim line) /\
  processLine n (w1 ++ line ++ w2) = processLine n line /\
  startsBlack (trim (w1 ++ line ++ w2)) /\
  startsBlack (rev (trim (w1 ++ line ++ w2))).
Proof.
  intros H1 H2. rewrite processLine_trim.
  split; [reflexivity|]. split.
  - unfold processLine. rewrite (trim_pad w1 line w2 H1 H2). reflexivity.
  - split; [apply trim_startsBlack | apply trim_endsBlack].
Qed.

(** C10 at the bullet line "- x" with two spaces before it and a space and
    a tab after it: it is compiled as the bullet "x". *)
Lemma C10_line_compiled_as_its_trimmed_form_witness :
  processLine 0 (str "  " ++ str "- x" ++ [32; 9]%N) =
  (MkPara [MkRun (str "x") false false (Some 20%N) (Some (str "000000"))]
     (Some 0%N) None None (Some 60%N), 0%N).
Proof.
  rewrite (proj1 (proj2 (C10_line_compiled_as_its_trimmed_form
                           0 (str "- x") (str "  ") [32; 9]%N
                           eq_refl eq_refl))).
  reflexivity.
Defined.

(* ================================================================== *)
(** ** The Attachments box *)
(* ================================================================== *)

Lemma mapIdx_length {A B : Type} (f : A -> N -> B) (l : list A) :
  forall idx, length (mapIdx f l idx) = length l.
Proof.
  induction l as [|a l IH]; intros idx; simpl; [|rewrite IH]; reflexivity.
Qed.

Lemma mapIdx_nth_error {A B : Type} (f : A -> N -> B) (l : list A) :
  forall idx i a,
    nth_error l i = Some a ->
    nth_error (mapIdx f l idx) i = Some (f a (idx + N.of_nat i)%N).
Proof.
  induction l as [|x l IH]; intros idx i a H.
  - destruct i; discriminate.
  - destruct i as [|i].
    + injection H as ->. simpl. rewrite N.add_0_r. reflexivity.
    + cbn [mapIdx nth_error] in *. rewrite (IH _ _ _ H).
      do 2 f_equal. lia.
Qed.

(** C7: the empty attachment list gives the one paragraph "No attachments",
    in italics and the muted colour 9ca3af.  A list that is not empty gives
    one paragraph per attachment, in order, and the paragraph of the
    attachment at position i (from 1) reads: i, a dot and a space; the name
    or link, or "Attachment i" when that is empty; then, only when the
    description is not empty, a space, an em dash, a space and the
    description. *)
Theorem C7_attachment_lines :
  attachmentParagraphs [] =
    [ MkPara
        [MkRun (str "No attachments") false true (Some 20%N)
           (Some (str "9ca3af"))]
        None None None None ]
  /\
  forall (attachments : list Attachment) (i : nat) (att : Attachment),
    nth_error attachments i = Some att ->
    length (attachmentParagraphs attachments) = length attachments /\
    exists p,
      nth_error (attachmentParagraphs attachments) i = Some p /\
      lineText p = attachmentLine i att.
Proof.
  split; [reflexivity|].
  intros atts i att H. unfold attachmentParagraphs.
  destruct atts as [|a0 atts']; [destruct i; discriminate|].
  change (0 <? length (a0 :: atts')) with true. cbv iota.
  split; [apply mapIdx_length|].
  eexists. split; [apply mapIdx_nth_error; exact H|].
  unfold attachmentParagraph, lineText, attachmentLine, or_else, dashSep.
  rewrite N.add_0_l. cbn [children].
  destruct (nameOrLink att) as [|c nm], (description att) as [|d ds];
    cbn [truthy map text concat]; cbn [app concat map text];
    rewrite <- ?app_assoc, ?app_nil_r; reflexivity.
Qed.

(** C7 at the two attachments of the specification: no name with the
    description "log", and the name "Screenshot" with no description. *)
Lemma C7_attachment_lines_witness :
  map lineText
    (attachmentParagraphs
       [ MkAttachment (str "1") (str "") (str "log");
         MkAttachment (str "2") (str "Screenshot") (str "") ]) =
  [ str "1. Attachment 1" ++ [32; 8212; 32]%N ++ str "log";
    str "2. Screenshot" ].
Proof.
  pose (atts := [ MkAttachment (str "1") (str "") (str "log");
                  MkAttachment (str "2") (str "Screenshot") (str "") ]).
  destruct (proj2 C7_attachment_lines atts 0 _ eq_refl) as (L & p0 & N0 & T0).
  destruct (proj2 C7_attachment_lines atts 1 _ eq_refl) as (_ & p1 & N1 & T1).
  fold atts.
  destruct (attachmentParagraphs atts) as [|q0 [|q1 [|q2 qs]]];
    try discriminate L.
  injection N0 as ->. injection N1 as ->. cbn [map]. rewrite T0, T1.
  reflexivity.
Defined.

(* ================================================================== *)
(** ** The first line of the Impact box *)
(* ================================================================== *)

Lemma impactList_shown (cats : list jsstring) (freeText : jsstring) :
  impactList cats freeText =
  join (str ", ") (map (shownCategory freeText) cats).
Proof.
  unfold impactList. f_equal. apply map_ext. intros cat.
  unfold shownCategory.
  destruct (list_eq_dec N.eq_dec cat (str "Others")) as [->|Hne].
  - destruct freeText; reflexivity.
  - apply eqb_neq in Hne. rewrite Hne. reflexivity.
Qed.

Lemma shownCategory_nonempty (freeText cat : jsstring) :
  cat <> [] -> shownCategory freeText cat <> [].
Proof.
  unfold shownCategory. intros H.
  destruct (list_eq_dec N.eq_dec cat (str "Others")); [|exact H].
  destruct freeText; [exact H | discriminate].
Qed.

Lemma join_nonempty (sep x : jsstring) (l : list jsstring) :
  x <> [] -> join sep (x :: l) <> [].
Proof.
  intros H. destruct x as [|c x]; [congruence|].
  destruct l; simpl; discriminate.
Qed.

(** C8: for a selection of categories (names, none of them the empty
    string) the first paragraph of the Impact box is the bold run
    "Impacted Parties: " followed by one run: for the empty selection
    "None selected" in italics and the muted colour 9ca3af; otherwise the
    categories joined by ", ", upright and black, with "Others" shown as
    "Others (free text)" exactly when the free text is not empty. *)
Theorem C8_impact_first_line
    (impactCategories : list jsstring) (impactOthersSpecify : jsstring) :
  Forall (fun cat => cat <> []) impactCategories ->
  children (impactParagraph impactCategories impactOthersSpecify) =
  [ MkRun (str "Impacted Parties: ") true false (Some 20%N)
      (Some (str "000000"));
    match impactCategories with
    | [] =>
        MkRun (str "None selected") false true (Some 20%N)
          (Some (str "9ca3af"))
    | _ :: _ =>
        MkRun
          (join (str ", ")
             (map (shownCategory impactOthersSpecify) impactCategories))
          false false (Some 20%N) (Some (str "000000"))
    end ].
Proof.
  intros H. unfold impactParagraph. cbn [children].
  rewrite impactList_shown.
  destruct impactCategories as [|cat cats]; [reflexivity|].
  apply Forall_cons_iff in H as [Hcat _].
  pose proof (join_nonempty (str ", ") _
                (map (shownCategory impactOthersSpecify) cats)
                (shownCategory_nonempty impactOthersSpecify cat Hcat)) as Hne.
  cbn [map] in *.
  destruct (join (str ", ")
              (shownCategory impactOthersSpecify cat
                 :: map (shownCategory impactOthersSpecify) cats));
    [congruence | reflexivity].
Qed.

(** C8 at the selections of the specification: "Others" with the free text
    "Vendor" reads "Impacted Parties: Others (Vendor)"; and two categories
    with "Others" and no free text read "Impacted Parties: Client,
    Others". *)
Lemma C8_impact_first_line_witness :
  lineText (impactParagraph [str "Others"] (str "Vendor")) =
    str "Impacted Parties: Others (Vendor)" /\
  lineText (impactParagraph [str "Client"; str "Others"] (str "")) =
    str "Impacted Parties: Client, Others".
Proof.
  unfold lineText. split.
  - rewrite (C8_impact_first_line [str "Others"] (str "Vendor")).
    + reflexivity.
    + repeat constructor; discriminate.
  - rewrite (C8_impact_first_line [str "Client"; str "Others"] (str "")).
    + reflexivity.
    + repeat constructor; discriminate.
Defined.

(** The empty selection reads "Impacted Parties: None selected". *)
Lemma impact_none_selected (impactOthersSpecify : jsstring) :
  lineText (impactParagraph [] impactOthersSpecify) =
  str "Impacted Parties: None selected".
Proof. reflexivity. Qed.

(* ================================================================== *)
(** ** The guards of the date formatters *)
(* ================================================================== *)

(** What the code itself decides: the empty input gives "Not specified",
    any other input is handed to the host's formatter. *)
Lemma formatDate_guard (toLocaleDateString : jsstring -> jsstring)
    (dateStr : jsstring) :
  formatDate toLocaleDateString dateStr =
  match dateStr with
  | [] => str "Not specified"
  | _ :: _ => toLocaleDateString dateStr
  end.
Proof. destruct dateStr; reflexivity. Qed.

Lemma formatDateTime_guard (toLocaleString : jsstring -> jsstring)
    (dateTimeStr : jsstring) :
  formatDateTime toLocaleString dateTimeStr =
  match dateTimeStr with
  | [] => str "Not specified"
  | _ :: _ => toLocaleString dateTimeStr
  end.
Proof. destruct dateTimeStr; reflexivity. Qed.

(* ================================================================== *)
(** ** The editor and the value it is given *)
(* ================================================================== *)

Section Sync.

Import RichTextArea.

Variable turndown : jsstring -> jsstring.
Variable makeHtml : jsstring -> jsstring.

(** X23: While the flag is set, local edits change neither the calls of
    [onChange] nor the last external value. *)
Lemma updates_dropped_while_flag_set (htmls : list jsstring) :
  forall c,
    isUpdatingFromProp c = true ->
    let c' := run turndown makeHtml c (map Update htmls) in
    isUpdatingFromProp c' = true /\
    onChangeCalls c' = onChangeCalls c /\
    lastExternalValue c' = lastExternalValue c /\
    timers c' = timers c.
Proof.
  unfold run.
  induction htmls as [|h hs IH]; intros c Hc; cbn.
  - auto.
  - specialize (IH (step turndown makeHtml c (Update h))).
    cbn in IH. rewrite Hc in *. cbn in IH. apply IH. reflexivity.
Qed.

(** C3: when the effect applies an external value (the editor exists and
    the value differs from the last known one) and a local edit arrives
    before a scheduled callback has cleared the flag, [onChange] is not
    called for that edit and the last known external value is the value
    supplied from outside, which is also what the editor was loaded
    with. *)
Theorem C3_edit_in_suppressed_window_dropped
    (c : Component) (content value html : jsstring) :
  editor c = Some content ->
  value <> lastExternalValue c ->
  let c1 := run turndown makeHtml c [Effect value] in
  let c2 := run turndown makeHtml c [Effect value; Update html] in
  editor c1 = Some (markdownToHtml makeHtml value) /\
  onChangeCalls c1 = onChangeCalls c /\
  onChangeCalls c2 = onChangeCalls c /\
  lastExternalValue c2 = value /\
  isUpdatingFromProp c2 = true.
Proof.
  intros He Hv. apply eqb_neq in Hv.
  cbn. rewrite He, Hv. cbn. auto 6.
Qed.

(** Once a scheduled callback has run, a local edit is reported again. *)
Lemma edit_after_window_reported
    (c : Component) (content value html : jsstring) :
  editor c = Some content ->
  value <> lastExternalValue c ->
  let c3 := run turndown makeHtml c [Effect value; Timeout; Update html] in
  onChangeCalls c3 = onChangeCalls c ++ [htmlToMarkdown turndown html] /\
  lastExternalValue c3 = htmlToMarkdown turndown html.
Proof.
  intros He Hv. apply eqb_neq in Hv.
  cbn. rewrite He, Hv. cbn. auto.
Qed.

(** An external value equal to the last known one is not applied: nothing
    changes, the flag is not set. *)
Lemma same_value_not_applied (c : Component) :
  step turndown makeHtml c (Effect (lastExternalValue c)) = c.
Proof.
  cbn. destruct (editor c); [|reflexivity].
  assert (E : eqb (lastExternalValue c) (lastExternalValue c) = true)
    by (apply eqb_eq; reflexivity).
  rewrite E. reflexivity.
Qed.

End Sync.

(** C3 with converters that return their argument, on a component mounted
    with the value "old" whose editor exists: the value "new" arrives from
    outside, then the local edit "<p>typed</p>". *)
Lemma C3_edit_in_suppressed_window_dropped_witness :
  let c := RichTextArea.run (fun s => s) (fun s => s)
             (RichTextArea.mount (str "old"))
             [RichTextArea.EditorCreated (str "old")] in
  let c' := RichTextArea.run (fun s => s) (fun s => s) c
              [RichTextArea.Effect (str "new");
               RichTextArea.Update (str "<p>typed</p>")] in
  RichTextArea.onChangeCalls c' = [] /\
  RichTextArea.lastExternalValue c' = str "new".
Proof.
  intros c c'.
  destruct (C3_edit_in_suppressed_window_dropped (fun s => s) (fun s => s)
              c (str "old") (str "new") (str "<p>typed</p>"))
    as (_ & _ & H1 & H2 & _).
  - reflexivity.
  - discriminate.
  - split; [exact H1 | exact H2].
Defined.

(* ================================================================== *)
(** ** The inline parser and the line compiler: further properties *)
(* ================================================================== *)

(** The shape of the span the loop picks: text before, the delimiter once
    (italic) or twice (bold), a span that is not empty, the delimiter
    again, and the rest. *)
Lemma firstMatch_shape (remaining : jsstring) (fm : candidate) :
  firstMatch remaining = Some fm ->
  exists (d : ascii) (k : nat) (before span tail : jsstring),
    (d = "*"%char \/ d = "_"%char) /\
    (type fm = bold_span /\ k = 2 \/ type fm = italic_span /\ k = 1) /\
    span <> [] /\
    remaining =
   before ++ repeat (chr d) k ++ span ++ repeat (chr d) k ++ tail /\
    match_ fm = [before ++ repeat (chr d) k ++ span ++ repeat (chr d) k;
                 before; span].
Proof.
  intros H. apply selectFirst_In in H.
  apply In_candidates_typed in H as [_ H].
  destruct (type fm) eqn:T.
  - assert (Hd : exists d, (d = "*"%char \/ d = "_"%char) /\
                 exec (Bol ;; Grp (Rep false 0 dot) ;; lit d ;; lit d ;;
                       Grp (Rep false 1 dot) ;; lit d ;; lit d) remaining
                 = Some (match_ fm)).
    { destruct H as [H|H]; symmetry in H; eauto. }
    destruct Hd as (d & Hd & E).
    apply bold_match in E as (before & span & tail & Hs & Hn & _ & _ & Hm).
    exists d, 2, before, span, tail. cbn [repeat app].
    repeat split; auto.
  - assert (Hd : exists d, (d = "*"%char \/ d = "_"%char) /\
                 exec (Bol ;; Grp (Rep false 0 dot) ;; NotBehind (isChar d) ;;
                       lit d ;; Grp (Rep true 1 (isNot d)) ;; lit d ;;
                       NotAhead (isChar d)) remaining
                 = Some (match_ fm)).
    { destruct H as [H|H]; symmetry in H; eauto. }
    destruct Hd as (d & Hd & E).
    apply italic_match in E
      as (before & span & tail & Hs & Hn & _ & _ & _ & _ & Hm).
    exists d, 1, before, span, tail. cbn [repeat app].
    repeat split; auto.
Qed.

(** One iteration of the loop on a text with a span. *)
Lemma inlineLoop_step (fuel : nat) (remaining : jsstring) (runs : list TextRun)
    (fm : candidate) :
  remaining <> [] ->
  firstMatch remaining = Some fm ->
  exists (d : ascii) (k : nat) (before span tail : jsstring),
    (d = "*"%char \/ d = "_"%char) /\
    (type fm = bold_span /\ k = 2 \/ type fm = italic_span /\ k = 1) /\
    span <> [] /\
    remaining =
   before ++ repeat (chr d) k ++ span ++ repeat (chr d) k ++ tail /\
    inlineLoop (S fuel) remaining runs =
    inlineLoop fuel tail
      (runs ++ match before with
               | [] => []
               | _ :: _ => [plainRun before]
               end ++ [styledRun (type fm) span]).
Proof.
  intros Hne H.
  destruct (firstMatch_shape remaining fm H)
    as (d & k & before & span & tail & Hd & Hk & Hn & Hs & Hm).
  exists d, k, before, span, tail. repeat split; auto.
  destruct remaining as [|c s]; [congruence|].
  cbn [inlineLoop]. rewrite H, Hm. unfold get. cbn [nth].
  assert (Ht : substring (c :: s)
                 (length
                   (before ++ repeat (chr d) k ++ span ++ repeat (chr d) k))
               = tail).
  { unfold substring. rewrite Hs.
    replace (before ++ repeat (chr d) k ++ span ++ repeat (chr d) k ++ tail)
      with ((before ++ repeat (chr d) k ++ span ++ repeat (chr d) k) ++ tail)
      by (rewrite <- !app_assoc; reflexivity).
    rewrite skipn_app, skipn_all, Nat.sub_diag. reflexivity. }
  rewrite Ht. f_equal. unfold styledRun.
  destruct before; cbn [truthy]; rewrite <- ?app_assoc; reflexivity.
Qed.

Lemma strip_app (a b : jsstring) : strip (a ++ b) = strip a ++ strip b.
Proof. apply filter_app. Qed.

Lemma strip_delims (d : ascii) (k : nat) :
  d = "*"%char \/ d = "_"%char -> strip (repeat (chr d) k) = [].
Proof.
  intros [->| ->]; induction k as [|k IH]; cbn; auto.
Qed.

Lemma inlineLoop_strip (fuel : nat) :
  forall remaining runs out,
    inlineLoop fuel remaining runs = Some out ->
    strip (concat (map text out)) =
    strip (concat (map text runs)) ++ strip remaining.
Proof.
  induction fuel as [|fuel IH]; intros remaining runs out H.
  - destruct remaining; [|discriminate]. injection H as <-.
    rewrite app_nil_r. reflexivity.
  - destruct remaining as [|c s] eqn:R.
    + injection H as <-. rewrite app_nil_r. reflexivity.
    + rewrite <- R in *.
      destruct (firstMatch remaining) as [fm|] eqn:F.
      * destruct (inlineLoop_step fuel remaining runs fm) as
          (d & k & before & span & tail & Hd & _ & _ & Hs & Hstep);
          [congruence | exact F |].
        rewrite Hstep in H. apply IH in H. rewrite H, Hs.
        rewrite !map_app, !concat_app, !strip_app.
        rewrite (strip_delims d k Hd). rewrite <- !app_assoc. f_equal.
        assert (E : strip (concat (map text
                      match before with
                      | [] => []
                      | _ :: _ => [plainRun before]
                      end))
                    = strip before).
        { destruct before; cbn [map concat text plainRun]; [reflexivity|].
          rewrite app_nil_r. reflexivity. }
        rewrite E. f_equal. cbn [app].
        destruct (type fm); cbn [styledRun map concat text boldRun italicRun];
          rewrite app_nil_r; reflexivity.
      * rewrite R in H. cbn [inlineLoop] in H. rewrite <- R, F in H.
        injection H as <-. rewrite map_app, concat_app, strip_app.
        cbn [map concat text plainRun]. rewrite app_nil_r. reflexivity.
Qed.

(** X1: The runs hold the text but for delimiter characters: taking the
    delimiter characters out of the runs, read one after the other, and out of
    the text gives the same string. *)
Theorem parseInlineMarkdown_keeps_text (t : jsstring) :
  strip (concat (map text (parseInlineMarkdown t))) = strip t.
Proof.
  destruct (parseInlineMarkdown_loop t) as (runs & Hloop & ->).
  specialize (Hloop (length t) (le_n _)). apply inlineLoop_strip in Hloop.
  destruct runs as [|r runs].
  - cbn [map concat text plainRun]. rewrite app_nil_r. reflexivity.
  - exact Hloop.
Qed.

Lemma inlineLoop_runs (fuel : nat) :
  forall remaining runs out,
    inlineLoop fuel remaining runs = Some out ->
    Forall inlineRun runs -> Forall inlineRun out.
Proof.
  induction fuel as [|fuel IH]; intros remaining runs out H Hruns.
  - destruct remaining; [|discriminate]. injection H as <-. exact Hruns.
  - destruct remaining as [|c s] eqn:R.
    + injection H as <-. exact Hruns.
    + rewrite <- R in *.
      destruct (firstMatch remaining) as [fm|] eqn:F.
      * destruct (inlineLoop_step fuel remaining runs fm) as
          (d & k & before & span & tail & _ & _ & Hn & _ & Hstep);
          [congruence | exact F |].
        rewrite Hstep in H. apply IH in H; [exact H|].
        apply Forall_app. split; [exact Hruns|].
        apply Forall_app. split.
        -- destruct before; constructor; [|constructor].
           repeat split; cbn; congruence.
        -- constructor; [|constructor].
           destruct (type fm); repeat split; cbn; congruence.
      * rewrite R in H. cbn [inlineLoop] in H. rewrite <- R, F in H.
        injection H as <-. apply Forall_app. split; [exact Hruns|].
        constructor; [|constructor]. rewrite R.
        repeat split; cbn; congruence.
Qed.

(** X2: Every run of a text that is not empty has a text that is not empty,
    the size 20 and the colour black, and is never bold and italic at once. *)
Theorem parseInlineMarkdown_runs (t : jsstring) :
  t <> [] -> Forall inlineRun (parseInlineMarkdown t).
Proof.
  intros Ht. destruct (parseInlineMarkdown_loop t) as (runs & Hloop & ->).
  specialize (Hloop (length t) (le_n _)).
  apply inlineLoop_runs in Hloop; [|constructor].
  destruct runs as [|r runs]; [|exact Hloop].
  constructor; [|constructor]. repeat split; cbn; congruence.
Qed.

Lemma parseInlineMarkdown_runs_witness :
  Forall inlineRun (parseInlineMarkdown (str "a **b** _c_ *d")).
Proof. apply parseInlineMarkdown_runs. discriminate. Defined.

(** *** Texts without a span *)

Lemma count_occ_repeat_self (x : char) (k : nat) :
  count_occ N.eq_dec (repeat x k) x = k.
Proof.
  induction k as [|k IH]; cbn [repeat count_occ]; [reflexivity|].
  destruct (N.eq_dec x x); congruence.
Qed.

(** A span takes two delimiters of its kind at least. *)
Lemma firstMatch_needs_two (remaining : jsstring) (fm : candidate) :
  firstMatch remaining = Some fm ->
  2 <= occurrences "*" remaining \/ 2 <= occurrences "_" remaining.
Proof.
  intros H.
  destruct (firstMatch_shape remaining fm H)
    as (d & k & before & span & tail & Hd & Hk & _ & -> & _).
  assert (K : 1 <= k) by (destruct Hk as [[_ ->]|[_ ->]]; lia).
  assert (C : 2 <= occurrences d
                (before ++ repeat (chr d) k ++ span ++ repeat (chr d) k ++
                 tail)).
  { unfold occurrences. rewrite !count_occ_app, count_occ_repeat_self. lia. }
  destruct Hd as [->| ->]; [left|right]; exact C.
Qed.

(** X3: A text with at most one asterisk and at most one underscore has no
    span: it is one plain run, the text itself. *)
Theorem parseInlineMarkdown_plain (t : jsstring) :
  occurrences "*" t <= 1 -> occurrences "_" t <= 1 ->
  parseInlineMarkdown t = [plainRun t].
Proof.
  intros Ha Hu.
  assert (F : firstMatch t = None).
  { destruct (firstMatch t) as [fm|] eqn:F; [|reflexivity].
    apply firstMatch_needs_two in F. lia. }
  unfold parseInlineMarkdown. destruct t as [|c s]; [reflexivity|].
  cbn [length inlineLoop]. rewrite F. reflexivity.
Qed.

Lemma parseInlineMarkdown_plain_witness :
  parseInlineMarkdown (str "2 * 3 = 6, see file_a") =
  [plainRun (str "2 * 3 = 6, see file_a")].
Proof. apply parseInlineMarkdown_plain; vm_compute; lia. Defined.

(* ---------------------------------------------------------------- *)
(** ** The line compiler: what every line gives *)

(** A match of the sub-item pattern: one ASCII letter, a dot or a closing
    bracket, white space, the content. *)
Lemma subItem_match (s : jsstring) (a : RegExpMatchArray) :
  exec subItemRe s = Some a ->
  exists c p ws content,
    s = c :: p :: ws ++ content /\
    (isLower c || isUpper c) = true /\
    (isChar "." p || isChar ")" p) = true /\
    ws <> [] /\ forallb isWhiteSpace ws = true /\
    forallb dot content = true /\
    a = [s; [c]; content].
Proof.
  intros H. apply exec_sound in H as (st' & Hsem & ->).
  unfold subItemRe in Hsem. cbn [sem] in Hsem.
  destruct Hsem as (s0 & [E0 _]
                    & s1 & (g1 & (c1 & R1 & Q1 & P1 & C1) & E1)
                    & s2 & (c2 & R2 & Q2 & P2 & C2)
                    & s3 & (w3 & R3 & F3 & L3 & P3 & C3)
                    & s4 & (g4 & (w4 & R4 & F4 & _ & P4 & C4) & E4)
                    & (E5 & R5)).
  subst s0 s1 s4 st'. cbn [rest caps prev] in *.
  rewrite R5, app_nil_r in R4.
  exists c1, c2, w3, w4.
  assert (Hs : s = c1 :: c2 :: w3 ++ w4).
  { rewrite R1, R2, R3, R4. reflexivity. }
  split; [exact Hs|]. split; [exact Q1|]. split; [exact Q2|].
  split; [destruct w3; [simpl in L3; lia|discriminate]|].
  split; [exact F3|]. split; [exact F4|].
  assert (A1 : firstn (length s - length (rest g1)) s = [c1]).
  { rewrite R1. cbn [length]. 
    replace (S (length (rest g1)) - length (rest g1)) with 1 by lia.
    reflexivity. }
  rewrite R5. cbn [length]. rewrite !Nat.sub_0_r, !firstn_all.
  rewrite C4, C3, C2, C1, A1, R4. reflexivity.
Qed.

(** A trimmed line does not end with white space. *)
Lemma trim_last_black (s a : jsstring) (c : char) :
  trim s = a ++ [c] -> isWhiteSpace c = false.
Proof.
  intros H. pose proof (trim_endsBlack s) as E. rewrite H, rev_app_distr in E.
  exact E.
Qed.

Lemma app_white_last (ws : jsstring) :
  ws <> [] -> forallb isWhiteSpace ws = true ->
  exists a c, ws = a ++ [c] /\ isWhiteSpace c = true.
Proof.
  intros Hne Hw. destruct (exists_last Hne) as (a & c & ->).
  exists a, c. split; [reflexivity|].
  rewrite forallb_app in Hw. apply andb_true_iff in Hw as [_ Hc].
  cbn in Hc. rewrite andb_true_r in Hc. exact Hc.
Qed.

(** What a trimmed line looks like when it is followed by content: if the
    text before the content ends with white space, the content is not
    empty. *)
Lemma content_nonempty (s pre ws content : jsstring) :
  trim s = pre ++ ws ++ content ->
  ws <> [] -> forallb isWhiteSpace ws = true ->
  content <> [].
Proof.
  intros H Hne Hw ->. rewrite app_nil_r in H.
  destruct (app_white_last ws Hne Hw) as (a & c & -> & Hc).
  rewrite app_assoc in H. apply trim_last_black in H. congruence.
Qed.

Lemma startsWith_app (s p : jsstring) :
  startsWith s p = true -> s = p ++ skipn (length p) s.
Proof.
  revert s; induction p as [|x p IH]; intros s H; [reflexivity|].
  destruct s as [|y s]; [discriminate|]. cbn [startsWith] in H.
  apply andb_true_iff in H as [Hx Hp]. apply N.eqb_eq in Hx. subst y.
  cbn [length skipn app]. f_equal. apply IH, Hp.
Qed.

Lemma marker_content_nonempty (line marker : jsstring) (k : nat) :
  startsWith (trim line) (marker ++ [32%N]) = true ->
  k = S (length marker) ->
  substring (trim line) k <> [].
Proof.
  intros H ->. apply startsWith_app in H.
  rewrite length_app in H. cbn [length] in H.
  rewrite Nat.add_1_r in H. unfold substring.
  rewrite <- app_assoc in H.
  apply (content_nonempty line marker [32%N]);
   [exact H|discriminate|reflexivity].
Qed.

Lemma block_text_some (line : jsstring) (t : jsstring) :
  blockText (kindOf line) = Some t -> t <> [].
Proof.
  unfold kindOf, classify.
  destruct (truthy (trim line)) eqn:T; cbn [negb]; [|discriminate].
  destruct (startsWith (trim line) (str "### ")) eqn:H3.
  { cbn [blockText]. intros E.
    replace t with (substring (trim line) 4) by congruence.
    apply (marker_content_nonempty line (str "###")); [exact H3|reflexivity]. }
  destruct (startsWith (trim line) (str "## ")) eqn:H2.
  { cbn [blockText]. intros E.
    replace t with (substring (trim line) 3) by congruence.
    apply (marker_content_nonempty line (str "##")); [exact H2|reflexivity]. }
  destruct (startsWith (trim line) (str "# ")) eqn:H1.
  { cbn [blockText]. intros E.
    replace t with (substring (trim line) 2) by congruence.
    apply (marker_content_nonempty line (str "#")); [exact H1|reflexivity]. }
  destruct (startsWith (trim line) (str "- ")) eqn:Hb.
  { cbn [blockText orb]. intros E.
    replace t with (substring (trim line) 2) by congruence.
    apply (marker_content_nonempty line (str "-")); [exact Hb|reflexivity]. }
  destruct (startsWith (trim line) (str "* ")) eqn:Hs.
  { cbn [blockText orb]. intros E.
    replace t with (substring (trim line) 2) by congruence.
    apply (marker_content_nonempty line (str "*")); [exact Hs|reflexivity]. }
  cbn [orb].
  destruct (exec numberedRe (trim line)) as [a|] eqn:En.
  { apply numbered_match in En
      as (ds & ws & c & Hl & _ & _ & W1 & W2 & _ & ->).
    unfold get. cbn [blockText nth]. intros E.
    replace t with c by congruence.
    apply (content_nonempty line (ds ++ [chr "."]) ws); [|exact W1|exact W2].
    rewrite Hl, <- app_assoc. reflexivity. }
  destruct (exec subItemRe (trim line)) as [a|] eqn:Es.
  { apply subItem_match in Es
      as (c & p & ws & ct & Hl & _ & _ & W1 & W2 & _ & ->).
    unfold get. cbn [blockText nth]. intros E.
    replace t with ct by congruence.
    apply (content_nonempty line [c; p] ws); [|exact W1|exact W2].
    rewrite Hl. reflexivity. }
  cbn [blockText]. intros E. replace t with (trim line) by congruence.
  apply truthy_true, T.
Qed.

Lemma kindOf_blank (line : jsstring) :
  kindOf line = Blank <-> trim line = [].
Proof.
  unfold kindOf, classify. split.
  - destruct (truthy (trim line)) eqn:T; cbn [negb];
      [|intros _; apply truthy_false, T].
    destruct (startsWith (trim line) (str "### ")); [discriminate|].
    destruct (startsWith (trim line) (str "## ")); [discriminate|].
    destruct (startsWith (trim line) (str "# ")); [discriminate|].
    destruct (startsWith (trim line) (str "- ") ||
              startsWith (trim line) (str "* ")); [discriminate|].
    destruct (exec numberedRe (trim line)); [discriminate|].
    destruct (exec subItemRe (trim line)); discriminate.
  - intros ->. reflexivity.
Qed.

(** X6: The text a line hands on to the paragraph is never empty: a blank line
    hands on nothing, and the title of a heading, the content of a bullet, of
    an ordered item and of a lettered sub-item and the text of a paragraph are
    not empty. *)
Theorem block_text_nonempty (line : jsstring) :
  match blockText (kindOf line) with
  | Some t => t <> []
  | None => trim line = []
  end.
Proof.
  destruct (blockText (kindOf line)) as [t|] eqn:E.
  - exact (block_text_some line t E).
  - apply kindOf_blank. destruct (kindOf line); try discriminate. reflexivity.
Qed.

Lemma app_str_nonempty (a : jsstring) : a ++ str ". " <> [].
Proof. destruct a; discriminate. Qed.

Lemma inlineRun_text (runs : list TextRun) :
  Forall inlineRun runs -> Forall (fun r => text r <> []) runs.
Proof. apply Forall_impl. intros r H. apply H. Qed.

Lemma inline_texts (t : jsstring) :
  t <> [] -> Forall (fun r => text r <> []) (parseInlineMarkdown t).
Proof.
  intros Ht. apply inlineRun_text.
  destruct (parseInlineMarkdown_loop t) as (runs & Hloop & ->).
  specialize (Hloop (length t) (le_n _)).
  apply inlineLoop_runs in Hloop; [|constructor].
  destruct runs as [|r runs]; [|exact Hloop].
  constructor; [|constructor]. repeat split; cbn; congruence.
Qed.

(** The paragraph of a line has no run with an empty text, and it has no
    run at all exactly when the line is blank. *)
Lemma processLine_runs (n : N) (line : jsstring) :
  Forall (fun r => text r <> []) (children (fst (processLine n line))) /\
  (children (fst (processLine n line)) = [] <-> trim line = []).
Proof.
  pose proof (block_text_some line) as Ht.
  rewrite <- kindOf_blank.
  unfold processLine. fold (kindOf line).
  destruct (kindOf line) as [|t|t|t|c|c|l c|t];
    cbn [blockText render fst children] in *.
  - split; [constructor|tauto].
  - split; [repeat constructor; exact (Ht _ eq_refl) | split; discriminate].
  - split; [repeat constructor; exact (Ht _ eq_refl) | split; discriminate].
  - split; [repeat constructor; exact (Ht _ eq_refl) | split; discriminate].
  - split; [apply inline_texts, (Ht _ eq_refl)|].
    split; [intros E; destruct (parseInlineMarkdown_nonempty c E)|discriminate].
  - split; [|split; discriminate].
    constructor; [apply app_str_nonempty|].
    apply inline_texts, (Ht _ eq_refl).
  - split; [|split; discriminate].
    constructor; [apply app_str_nonempty|].
    apply inline_texts, (Ht _ eq_refl).
  - split; [apply inline_texts, (Ht _ eq_refl)|].
    split; [intros E; destruct (parseInlineMarkdown_nonempty t E)|discriminate].
Qed.

Lemma paragraphsFrom_runs (lines : list jsstring) :
  forall n p,
    In p (paragraphsFrom n lines) ->
   Forall (fun r => text r <> []) (children p).
Proof.
  induction lines as [|l ls IH]; intros n p H; [contradiction|].
  cbn [paragraphsFrom] in H. destruct H as [<-|H].
  - apply processLine_runs.
  - eapply IH, H.
Qed.

(** X7: No run of the compiled text is empty: every run of every paragraph the
    compiler returns has a text that is not empty. *)
Theorem parseMarkdownToParagraphs_no_empty_run (t : jsstring) :
  Forall (fun p => Forall (fun r => text r <> []) (children p))
    (parseMarkdownToParagraphs t).
Proof.
  apply Forall_forall. intros p Hp.
  destruct (trim t) as [|c s] eqn:E.
  - rewrite parseMarkdownToParagraphs_white in Hp by exact E.
    destruct Hp as [<-|[]]. repeat constructor. discriminate.
  - rewrite parseMarkdownToParagraphs_lines in Hp by congruence.
    eapply paragraphsFrom_runs, Hp.
Qed.

(** *** Lettered sub-items *)

Lemma toLowerCase_lower (c : char) :
  (isLower c || isUpper c) = true -> isLower (toLowerCase c) = true.
Proof.
  unfold toLowerCase, isLower, isUpper. intros H.
  destruct (N.leb 65 c && N.leb c 90) eqn:U.
  - apply andb_true_iff in U as [U1 U2].
    apply N.leb_le in U1, U2. apply andb_true_iff.
    split; apply N.leb_le; lia.
  - rewrite orb_false_r in H. exact H.
Qed.

(** X8: A lettered sub-item is written as one ASCII letter, a dot or a closing
    bracket, white space that is not empty and the content, which holds no
    line terminator; its paragraph starts with a run that holds the letter in
    lower case, a dot and a space, whichever case and whichever of the two
    marks the line has, and the counter of the ordered items is left as it
    is. *)
Theorem lettered_prefix (n : N) (line letter content : jsstring) :
  kindOf line = LetteredSub letter content ->
  exists c p ws,
    trim line = c :: p :: ws ++ content /\
    (isLower c || isUpper c) = true /\
    (isChar "." p || isChar ")" p) = true /\
    ws <> [] /\ forallb isWhiteSpace ws = true /\
    forallb dot content = true /\
    letter = [toLowerCase c] /\
    isLower (toLowerCase c) = true /\
    processLine n line =
    (MkPara
       (MkRun (letter ++ str ". ") false false None (Some (str "000000"))
          :: parseInlineMarkdown content)
       None (Some 50%N) None (Some 60%N), n).
Proof.
  intros K. unfold processLine. fold (kindOf line). rewrite K.
  unfold kindOf, classify in K.
  destruct (negb (truthy (trim line))); [discriminate|].
  destruct (startsWith (trim line) (str "### ")); [discriminate|].
  destruct (startsWith (trim line) (str "## ")); [discriminate|].
  destruct (startsWith (trim line) (str "# ")); [discriminate|].
  destruct (startsWith (trim line) (str "- ") ||
            startsWith (trim line) (str "* ")); [discriminate|].
  destruct (exec numberedRe (trim line)); [discriminate|].
  destruct (exec subItemRe (trim line)) as [a|] eqn:E; [|discriminate].
  apply subItem_match in E
    as (c & p & ws & ct & Hl & Hc & Hp & Hw & Fw & Fc & ->).
  unfold get in K. cbn [nth map] in K. injection K as <- <-.
  exists c, p, ws. repeat split; auto using toLowerCase_lower.
Qed.

Lemma lettered_prefix_witness :
  (exists c p ws,
      str "B)  see **log**" = c :: p :: ws ++ str "see **log**" /\
      ws <> [] /\ forallb isWhiteSpace ws = true) /\
  processLine 3 (str "  B)  see **log**") =
  (MkPara
     [ MkRun (str "b. ") false false None (Some (str "000000"));
       MkRun (str "see ") false false (Some 20%N) (Some (str "000000"));
       MkRun (str "log") true false (Some 20%N) (Some (str "000000")) ]
     None (Some 50%N) None (Some 60%N), 3%N).
Proof.
  destruct (lettered_prefix 3 (str "  B)  see **log**") (str "b")
              (str "see **log**") eq_refl)
    as (c & p & ws & T & _ & _ & W & F & _ & _ & _ & H).
  split.
  - exists c, p, ws. repeat split; assumption.
  - rewrite H. reflexivity.
Defined.

(** *** One paragraph for each line *)

Lemma split_length (sep : char) (s : jsstring) :
  length (split sep s) = S (count_occ N.eq_dec s sep).
Proof.
  induction s as [|c s IH]; [reflexivity|].
  cbn [split count_occ]. destruct (N.eqb_spec c sep) as [->|Hne].
  - destruct (N.eq_dec sep sep); [|congruence]. cbn [length]. rewrite IH.
    reflexivity.
  - destruct (N.eq_dec c sep); [congruence|].
    destruct (split sep s); cbn [length] in *; [discriminate|exact IH].
Qed.

(** X10: The compiler returns one paragraph for a text that is empty or white
    space only, and otherwise one paragraph for each line: one more than the
    text has line feeds. *)
Theorem parseMarkdownToParagraphs_count (t : jsstring) :
  length (parseMarkdownToParagraphs t) =
  match trim t with
  | [] => 1
  | _ :: _ => S (count_occ N.eq_dec t 10%N)
  end.
Proof.
  destruct (trim t) as [|c s] eqn:E.
  - rewrite parseMarkdownToParagraphs_white by exact E. reflexivity.
  - rewrite parseMarkdownToParagraphs_length by congruence.
    apply split_length.
Qed.

(** *** Texts that differ by white space at the ends of their lines *)

Lemma split_line (l : jsstring) : isLine l -> split 10%N l = [l].
Proof.
  unfold isLine. induction l as [|c l IH]; cbn [forallb split]; intros H;
    [reflexivity|].
  apply andb_true_iff in H as [Hc Hl]. apply negb_true_iff in Hc.
  rewrite Hc, (IH Hl). reflexivity.
Qed.

Lemma split_line_app (l r : jsstring) :
  isLine l -> split 10%N (l ++ 10%N :: r) = l :: split 10%N r.
Proof.
  unfold isLine. induction l as [|c l IH]; cbn [forallb split app]; intros H.
  - reflexivity.
  - apply andb_true_iff in H as [Hc Hl]. apply negb_true_iff in Hc.
    rewrite Hc, (IH Hl). reflexivity.
Qed.

(** Splitting the text made of lines gives the lines back. *)
Lemma split_doc (ls : list jsstring) :
  ls <> [] -> Forall isLine ls -> split 10%N (doc ls) = ls.
Proof.
  unfold doc. induction ls as [|x ls IH]; intros Hne H; [congruence|].
  apply Forall_cons_iff in H as [Hx Hls].
  destruct ls as [|y ls].
  - cbn [join]. apply split_line, Hx.
  - change (join [10%N] (x :: y :: ls))
      with (x ++ 10%N :: join [10%N] (y :: ls)).
    rewrite split_line_app by exact Hx. f_equal.
   apply IH; [discriminate|exact Hls].
Qed.

Lemma doc_white (ls : list jsstring) :
  forallb isWhiteSpace (doc ls) = true <->
  Forall (fun l => forallb isWhiteSpace l = true) ls.
Proof.
  unfold doc. induction ls as [|x ls IH].
  - cbn. split; [constructor|reflexivity].
  - destruct ls as [|y ls].
    + cbn [join]. split; [intros H; repeat constructor; exact H|].
      intros H. apply Forall_cons_iff in H as [H _]. exact H.
    + change (join [10%N] (x :: y :: ls))
        with (x ++ 10%N :: join [10%N] (y :: ls)).
      rewrite forallb_app. cbn [forallb].
      change (isWhiteSpace 10%N) with true. cbn [andb].
      rewrite andb_true_iff, IH. split.
      * intros [Hx Hl]. constructor; assumption.
      * intros H. apply Forall_cons_iff in H. exact H.
Qed.

Lemma trim_nil_iff (s : jsstring) :
  trim s = [] <-> forallb isWhiteSpace s = true.
Proof. split; [apply trim_nil_white | apply trim_white]. Qed.

Lemma paragraphsFrom_same_trim (ls ls' : list jsstring) :
  Forall2 (fun l l' => trim l = trim l') ls ls' ->
  forall n, paragraphsFrom n ls = paragraphsFrom n ls'.
Proof.
  induction 1 as [|l l' ls ls' Hl _ IH]; intros n; [reflexivity|].
  cbn [paragraphsFrom]. unfold processLine. rewrite Hl, IH. reflexivity.
Qed.

Lemma doc_same_trim (ls ls' : list jsstring) :
  Forall isLine ls -> Forall isLine ls' ->
  Forall2 (fun l l' => trim l = trim l') ls ls' ->
  parseMarkdownToParagraphs (doc ls) = parseMarkdownToParagraphs (doc ls').
Proof.
  intros L L' H.
  destruct ls as [|x ls]; [inversion H; reflexivity|].
  destruct ls' as [|x' ls']; [inversion H|].
  destruct (trim (doc (x :: ls))) as [|c s] eqn:E.
  - assert (E' : trim (doc (x' :: ls')) = []).
    { apply trim_nil_iff, doc_white. apply trim_nil_iff, doc_white in E.
      clear -E H. induction H as [|a b la lb Hab _ IH]; [constructor|].
      apply Forall_cons_iff in E as [Ea Ela].
      constructor; [|exact (IH Ela)].
      apply trim_nil_iff. rewrite <- Hab. apply trim_nil_iff, Ea. }
    rewrite !parseMarkdownToParagraphs_white by assumption. reflexivity.
  - assert (E' : trim (doc (x' :: ls')) <> []).
    { intros E'. apply trim_nil_iff, doc_white in E'.
      assert (X : trim (doc (x :: ls)) = []); [|congruence].
      apply trim_nil_iff, doc_white.
      clear -E' H. induction H as [|a b la lb Hab _ IH]; [constructor|].
      apply Forall_cons_iff in E' as [Ea Ela].
      constructor; [|exact (IH Ela)].
      apply trim_nil_iff. rewrite Hab. apply trim_nil_iff, Ea. }
    rewrite !parseMarkdownToParagraphs_lines by congruence.
    rewrite !split_doc by (assumption || discriminate).
    apply paragraphsFrom_same_trim, H.
Qed.

(** X11: Two texts whose lines are the same but for white space at their ends
    compile to the same paragraphs. *)
Theorem same_lines_same_paragraphs (ls ls' : list jsstring) :
  Forall isLine ls -> Forall isLine ls' ->
  Forall2 (fun l l' => trim l = trim l') ls ls' ->
  parseMarkdownToParagraphs (doc ls) = parseMarkdownToParagraphs (doc ls').
Proof. exact (doc_same_trim ls ls'). Qed.

Lemma same_lines_same_paragraphs_witness :
  parseMarkdownToParagraphs (doc [str "  1. A "; str "- x"; [9; 32]%N]) =
  parseMarkdownToParagraphs (doc [str "1. A"; str " - x  "; str ""]).
Proof.
  apply same_lines_same_paragraphs.
  - repeat constructor.
  - repeat constructor.
  - repeat constructor.
Defined.

Lemma isLine_app (a b : jsstring) : isLine a -> isLine b -> isLine (a ++ b).
Proof.
  unfold isLine. intros Ha Hb. rewrite forallb_app.
  apply andb_true_iff. split; assumption.
Qed.

Lemma docCRLF_doc (ls : list jsstring) : docCRLF ls = doc (withCR ls).
Proof.
  unfold docCRLF, doc. induction ls as [|x ls IH]; [reflexivity|].
  destruct ls as [|y ls]; [reflexivity|].
  change (join [13; 10]%N (x :: y :: ls))
    with (x ++ [13; 10]%N ++ join [13; 10]%N (y :: ls)).
  change (withCR (x :: y :: ls)) with ((x ++ [13%N]) :: withCR (y :: ls)).
  rewrite IH. destruct (withCR (y :: ls)) as [|z zs] eqn:W.
  - destruct ls; discriminate.
  - change (join [10%N] ((x ++ [13%N]) :: z :: zs))
      with ((x ++ [13%N]) ++ [10%N] ++ join [10%N] (z :: zs)).
    rewrite <- app_assoc. reflexivity.
Qed.

(** X12: Line ends written as carriage return and line feed give the same
    paragraphs as line ends written as line feed. *)
Theorem crlf_same_paragraphs (ls : list jsstring) :
  Forall isLine ls ->
  parseMarkdownToParagraphs (docCRLF ls) = parseMarkdownToParagraphs (doc ls).
Proof.
  intros L. rewrite docCRLF_doc. apply doc_same_trim.
  - induction ls as [|x ls IH]; [constructor|].
    apply Forall_cons_iff in L as [Lx Lls].
    destruct ls as [|y ls]; [repeat constructor; exact Lx|].
    change (withCR (x :: y :: ls)) with ((x ++ [13%N]) :: withCR (y :: ls)).
    constructor; [|exact (IH Lls)].
    apply isLine_app; [exact Lx|reflexivity].
  - exact L.
  - clear L. induction ls as [|x ls IH]; [constructor|].
    destruct ls as [|y ls]; [repeat constructor|].
    change (withCR (x :: y :: ls)) with ((x ++ [13%N]) :: withCR (y :: ls)).
    constructor; [|exact IH].
    apply (trim_pad [] x [13%N]); reflexivity.
Qed.

Lemma crlf_same_paragraphs_witness :
  parseMarkdownToParagraphs (str "1. A" ++ [13; 10]%N ++ str "2. B") =
  parseMarkdownToParagraphs (str "1. A" ++ [10]%N ++ str "2. B").
Proof.
  apply (crlf_same_paragraphs [str "1. A"; str "2. B"]).
  repeat constructor.
Defined.

(** *** The first span of a text *)

Lemma lastOr_cons (pv : option char) (c : char) (w : jsstring) :
  lastOr pv (c :: w) = lastOr (Some c) w.
Proof. reflexivity. Qed.

(** A lazy class walks over a prefix on which the continuation fails. *)
Lemma rep_lazy_skip (p q : char -> bool) (k : cont) (w : jsstring) :
  forall pv t cs,
    forallb p w = true -> forallb q w = true ->
    (forall pv' c r, q c = true -> k (MState pv' (c :: r) cs) = None) ->
    rep false p k 0 pv (w ++ t) cs = rep false p k 0 (lastOr pv w) t cs.
Proof.
  induction w as [|c w IH]; intros pv t cs Hp Hq Hk; [reflexivity|].
  cbn [forallb] in Hp, Hq.
  apply andb_true_iff in Hp as [Pc Pw]. apply andb_true_iff in Hq as [Qc Qw].
  cbn [app rep]. rewrite (Hk pv c (w ++ t) Qc), Pc. cbn [Nat.pred].
  rewrite lastOr_cons. apply IH; assumption.
Qed.

Lemma rep_lazy_stop (p : char -> bool) (k : cont) (pv : option char)
    (s : jsstring) (cs : list jsstring) (r : mstate) :
  k (MState pv s cs) = Some r -> rep false p k 0 pv s cs = Some r.
Proof. intros H. destruct s; cbn [rep]; rewrite H; reflexivity. Qed.

(** A greedy class takes a whole prefix when the continuation succeeds
    after it and the class does not go on. *)
Lemma rep_greedy_all (p : char -> bool) (k : cont) (w : jsstring) :
  forall n pv t cs r,
    forallb p w = true ->
    n <= length w ->
    match t with c :: _ => p c = false | [] => True end ->
    k (MState (lastOr pv w) t cs) = Some r ->
    rep true p k n pv (w ++ t) cs = Some r.
Proof.
  induction w as [|c w IH]; intros n pv t cs r Hp Hn Ht Hk.
  - cbn [length] in Hn. assert (n = 0) by lia. subst n.
    cbn [app]. destruct t as [|c t]; cbn [rep].
    + exact Hk.
    + rewrite Ht. exact Hk.
  - cbn [forallb] in Hp. apply andb_true_iff in Hp as [Pc Pw].
    cbn [app rep]. rewrite Pc.
    rewrite (IH (Nat.pred n) (Some c) t cs r); auto.
    cbn [length] in Hn. lia.
Qed.

Lemma lit_fails (d : ascii) (k : cont) (pv : option char) (c : char)
    (r : jsstring) (cs : list jsstring) :
  isNot d c = true -> m (lit d) k (MState pv (c :: r) cs) = None.
Proof.
  unfold isNot, lit. intros H. apply negb_true_iff in H.
  cbn [m rest]. rewrite H. reflexivity.
Qed.

Lemma isChar_chr (d : ascii) : isChar d (chr d) = true.
Proof. unfold isChar. apply N.eqb_refl. Qed.

(** The bold pattern on a text whose first delimiters are those of a bold
    span. *)
Lemma exec_bold (d : ascii) (before span tail : jsstring) :
  forallb dot before = true -> forallb (isNot d) before = true ->
  span <> [] ->
  forallb dot span = true -> forallb (isNot d) span = true ->
  exec (spanRe bold_span d)
    (before ++ chr d :: chr d :: span ++ chr d :: chr d :: tail) =
  Some [before ++ chr d :: chr d :: span ++ [chr d; chr d]; before; span].
Proof.
  intros Db Nb Hs Ds Ns. unfold exec, spanRe.
  set (t := chr d :: chr d :: span ++ chr d :: chr d :: tail).
  set (k0 := fun st : mstate => Some st).
  cbn [m prev rest caps].
  set (K := fun st' : mstate => _).
  rewrite (rep_lazy_skip dot (isNot d) K before None t [] Db Nb).
  2:{ intros pv' c r Q. subst K. cbv beta. cbn [prev rest caps].
      apply lit_fails, Q. }
  assert (HK : K (MState (lastOr None before) t []) =
               Some (MState (Some (chr d)) tail [before; span])).
  { subst K. cbv beta. cbn [prev rest caps].
    rewrite firstn_consumed. subst t. cbn [app m rest caps prev lit].
    rewrite !isChar_chr.
    destruct span as [|c span]; [congruence|].
    cbn [forallb] in Ds, Ns.
    apply andb_true_iff in Ds as [Dc Ds]. apply andb_true_iff in Ns as [Nc Ns].
    set (K2 := fun st' : mstate => _).
    cbn [app rep]. rewrite Dc. cbn [Nat.pred].
    refine (eq_trans (rep_lazy_skip dot (isNot d) K2 span (Some c)
                        (chr d :: chr d :: tail) [before] Ds Ns _) _).
    { intros pv' x r Q. subst K2. cbv beta. cbn [prev rest caps].
      apply negb_true_iff in Q. unfold isChar in *. rewrite Q. reflexivity. }
    apply rep_lazy_stop. subst K2. cbv beta. cbn [prev rest caps].
    change (c :: span ++ chr d :: chr d :: tail)
      with ((c :: span) ++ chr d :: chr d :: tail).
    rewrite firstn_consumed. cbn [m rest caps prev app].
    rewrite !isChar_chr. reflexivity. }
  rewrite (rep_lazy_stop dot K _ _ _ _ HK). cbn [rest caps].
  f_equal. f_equal.
  replace (before ++ t)
    with ((before ++ chr d :: chr d :: span ++ [chr d; chr d]) ++ tail).
  - apply firstn_consumed.
  - subst t. rewrite <- app_assoc. cbn [app]. rewrite <- app_assoc.
    reflexivity.
Qed.

Lemma lastOr_not (d : ascii) (w : jsstring) :
  forallb (isNot d) w = true ->
  match lastOr None w with
  | Some c => isChar d c = false
  | None => True
  end.
Proof.
  intros H.
  assert (G : forall pv,
             match pv with Some c => isChar d c = false | None => True end ->
             match lastOr pv w with
             | Some c => isChar d c = false
             | None => True
             end).
  { induction w as [|c w IH]; intros pv Hpv; [exact Hpv|].
    cbn [forallb] in H. apply andb_true_iff in H as [Hc Hw].
    rewrite lastOr_cons. apply IH; [exact Hw|].
    apply negb_true_iff in Hc. exact Hc. }
  apply G. exact I.
Qed.

(** The italic pattern on a text whose first delimiters are those of an
    italic span. *)
Lemma exec_italic (d : ascii) (before span tail : jsstring) :
  forallb dot before = true -> forallb (isNot d) before = true ->
  span <> [] -> forallb (isNot d) span = true ->
  match tail with c :: _ => isChar d c = false | [] => True end ->
  exec (spanRe italic_span d) (before ++ chr d :: span ++ chr d :: tail) =
  Some [before ++ chr d :: span ++ [chr d]; before; span].
Proof.
  intros Db Nb Hs Ns Ht. unfold exec, spanRe.
  set (t := chr d :: span ++ chr d :: tail).
  cbn [m prev rest caps].
  set (K := fun st' : mstate => _).
  rewrite (rep_lazy_skip dot (isNot d) K before None t [] Db Nb).
  2:{ intros pv' c r Q. subst K. cbv beta. cbn [prev rest caps m].
      apply negb_true_iff in Q. unfold lit.
      destruct pv' as [x|]; [destruct (isChar d x); [reflexivity|]|];
        cbn [m rest]; rewrite Q; reflexivity. }
  assert (HK : K (MState (lastOr None before) t []) =
               Some (MState (Some (chr d)) tail [before; span])).
  { subst K. cbv beta. cbn [prev rest caps].
    rewrite firstn_consumed. subst t. cbn [m prev].
    pose proof (lastOr_not d before Nb) as L.
    assert (E : forall X : option mstate,
               match lastOr None before with
               | Some c => if isChar d c then None else X
               | None => X
               end = X).
    { intros X. destruct (lastOr None before) as [c|]; [|reflexivity].
      rewrite L. reflexivity. }
    rewrite E. clear E L. cbn [m rest caps prev lit].
    rewrite isChar_chr.
    set (K2 := fun st' : mstate => _).
    apply (rep_greedy_all (isNot d) K2 span 1 (Some (chr d))
             (chr d :: tail) [before]).
    - exact Ns.
    - destruct span; [congruence|cbn; lia].
    - unfold isNot. rewrite isChar_chr. reflexivity.
    - subst K2. cbv beta. cbn [prev rest caps].
      rewrite firstn_consumed. cbn [m rest caps prev app].
      rewrite isChar_chr.
      destruct tail as [|c tail]; [reflexivity|]. rewrite Ht. reflexivity. }
  rewrite (rep_lazy_stop dot K _ _ _ _ HK). cbn [rest caps].
  f_equal. f_equal.
  replace (before ++ t) with ((before ++ chr d :: span ++ [chr d]) ++ tail).
  - apply firstn_consumed.
  - subst t. rewrite <- app_assoc. cbn [app]. rewrite <- app_assoc.
    reflexivity.
Qed.


Lemma chr_inj (d d' : ascii) :
  (d = "*"%char \/ d = "_"%char) -> (d' = "*"%char \/ d' = "_"%char) ->
  chr d' = chr d -> d' = d.
Proof. intros [-> | ->] [-> | ->] H; try reflexivity; discriminate. Qed.

Lemma isNot_delimiter (d : ascii) (w : jsstring) :
  (d = "*"%char \/ d = "_"%char) ->
  forallb notDelimiter w = true -> forallb (isNot d) w = true.
Proof.
  intros Hd H. rewrite forallb_forall in *. intros c Hc.
  specialize (H c Hc). unfold notDelimiter, isDelimiter, isNot in *.
  apply negb_true_iff in H. apply orb_false_iff in H as [H1 H2].
  destruct Hd as [-> | ->]; apply negb_true_iff; assumption.
Qed.

(** A delimiter is not found inside a prefix that has none. *)
Lemma prefix_free_le (w : jsstring) :
  forall x before c r,
    w ++ x = before ++ c :: r ->
    forallb notDelimiter w = true -> notDelimiter c = false ->
    length w <= length before.
Proof.
  induction w as [|a w IH]; intros x before c r E F Hc; [cbn; lia|].
  cbn [forallb] in F. apply andb_true_iff in F as [Fa Fw].
  destruct before as [|b before].
  - cbn [app] in E. injection E as -> _. congruence.
  - cbn [app] in E. injection E as _ E. cbn [length].
    apply le_n_S. exact (IH x before c r E Fw Hc).
Qed.

Lemma notDelimiter_chr (d : ascii) :
  (d = "*"%char \/ d = "_"%char) -> notDelimiter (chr d) = false.
Proof. intros [-> | ->]; reflexivity. Qed.

(** Each candidate is the match of one of the four patterns. *)
Lemma candidate_of (remaining : jsstring) (c : candidate) :
  In c (candidates (exec boldRe remaining) (exec boldRe2 remaining)
          (exec italicRe remaining) (exec italicRe2 remaining)) ->
  exists d,
    (d = "*"%char \/ d = "_"%char) /\
    exec (spanRe (type c) d) remaining = Some (match_ c) /\
    index c = length (get (match_ c) 1).
Proof.
  intros H. apply In_candidates_typed in H as [I H].
  destruct (type c); destruct H as [H|H].
  - exists "*"%char. auto.
  - exists "_"%char. auto.
  - exists "*"%char. auto.
  - exists "_"%char. auto.
Qed.

(** Where a candidate starts: its delimiter, and after it the delimiter
    again for bold, another code unit for italic. *)
Lemma candidate_start (remaining : jsstring) (c : candidate) :
  In c (candidates (exec boldRe remaining) (exec boldRe2 remaining)
          (exec italicRe remaining) (exec italicRe2 remaining)) ->
  exists d before x r,
    (d = "*"%char \/ d = "_"%char) /\
    exec (spanRe (type c) d) remaining = Some (match_ c) /\
    remaining = before ++ chr d :: x :: r /\
    index c = length before /\
    match type c with
    | bold_span => x = chr d
    | italic_span => x <> chr d
    end.
Proof.
  intros H. apply candidate_of in H as (d & Hd & E & I).
  exists d. destruct (type c) eqn:T; cbn [spanRe] in E.
  - pose proof E as E'.
    apply bold_match in E' as (before & span & tail & St & _ & _ & _ & M).
    exists before, (chr d), (span ++ chr d :: chr d :: tail).
    rewrite I, M. rewrite M in E. unfold get. cbn [nth].
    repeat split; auto.
  - pose proof E as E'.
    apply italic_match in E'
      as (before & span & tail & St & N & _ & F & _ & _ & M).
    destruct span as [|x span]; [congruence|].
    exists before, x, (span ++ chr d :: tail).
    rewrite I, M. rewrite M in E. unfold get. cbn [nth].
    repeat split; auto.
    cbn [forallb] in F. apply andb_true_iff in F as [Fx _].
    unfold isNot, isChar in Fx. apply negb_true_iff, N.eqb_neq in Fx.
    exact Fx.
Qed.

Lemma selectFirst_some (l : list candidate) (c : candidate) :
  In c l -> exists fm, selectFirst l = Some fm.
Proof.
  destruct l as [|x l]; [contradiction|]. intros _.
  rewrite selectFirst_cons.
  destruct (selectFirst l) as [e|]; [destruct (index x <=? index e)|];
    eauto.
Qed.

Lemma exec_span (ty : spanType) (d : ascii) (before span tail : jsstring) :
  (d = "*"%char \/ d = "_"%char) ->
  forallb dot before = true -> forallb notDelimiter before = true ->
  span <> [] -> forallb (isNot d) span = true ->
  match ty with
  | bold_span => forallb dot span = true
  | italic_span =>
      match tail with c :: _ => isChar d c = false | [] => True end
  end ->
  exec (spanRe ty d)
    (before ++ delimiter ty d ++ span ++ delimiter ty d ++ tail) =
  Some [before ++ delimiter ty d ++ span ++ delimiter ty d; before; span].
Proof.
  intros Hd Db Nb Hs Ns Hty.
  apply (isNot_delimiter d) in Nb; [|exact Hd].
  destruct ty; cbn [delimiter app].
  - apply exec_bold; assumption.
  - apply exec_italic; assumption.
Qed.

(** The first delimited span of a text is the one the loop picks. *)
Lemma firstMatch_span (ty : spanType) (d : ascii)
    (before span tail : jsstring) :
  (d = "*"%char \/ d = "_"%char) ->
  forallb dot before = true -> forallb notDelimiter before = true ->
  span <> [] -> forallb (isNot d) span = true ->
  match ty with
  | bold_span => forallb dot span = true
  | italic_span =>
      match tail with c :: _ => isChar d c = false | [] => True end
  end ->
  firstMatch (before ++ delimiter ty d ++ span ++ delimiter ty d ++ tail) =
  Some (MkCand ty
          [before ++ delimiter ty d ++ span ++ delimiter ty d; before; span]
          (length before)).
Proof.
  intros Hd Db Nb Hs Ns Hty.
  pose proof (exec_span ty d before span tail Hd Db Nb Hs Ns Hty) as E.
  set (t := before ++ delimiter ty d ++ span ++ delimiter ty d ++ tail) in *.
  set (a := [before ++ delimiter ty d ++ span ++ delimiter ty d; before; span])
    in *.
  set (cands := candidates (exec boldRe t) (exec boldRe2 t)
                  (exec italicRe t) (exec italicRe2 t)).
  assert (In0 : In (MkCand ty a (length before)) cands).
  { subst cands. unfold candidates.
    destruct ty; destruct Hd as [-> | ->];
      [ change (exec boldRe t) with (exec (spanRe bold_span "*") t)
      | change (exec boldRe2 t) with (exec (spanRe bold_span "_") t)
      | change (exec italicRe t) with (exec (spanRe italic_span "*") t)
      | change (exec italicRe2 t) with (exec (spanRe italic_span "_") t) ];
      rewrite E;
      repeat match goal with
             | |- context [exec ?r t] => destruct (exec r t)
             end; cbn; tauto. }
  unfold firstMatch. fold cands.
  destruct (selectFirst_some cands _ In0) as [fm Hfm]. rewrite Hfm. f_equal.
  pose proof (selectFirst_least cands fm Hfm _ In0) as Hle.
  cbn [index] in Hle.
  apply selectFirst_In in Hfm.
  apply candidate_start in Hfm
    as (d' & before' & x & r & Hd' & E' & St & I & X).
  assert (L : length before = length before').
  { assert (length before <= length before'); [|lia].
    eapply prefix_free_le; [exact St|exact Nb|].
    apply notDelimiter_chr, Hd'. }
  unfold t in St. apply app_eq_length in St as [<- St]; [|exact L].
  assert (Dd : d' = d).
  { apply chr_inj; try assumption.
    destruct ty; cbn [delimiter app] in St; congruence. }
  subst d'.
  assert (T : type fm = ty).
  { destruct (type fm), ty; try reflexivity; cbn [delimiter app] in St.
    - (* the candidate is bold, the span italic *)
      destruct span as [|y span]; [congruence|]. cbn [app] in St.
      injection St as Y _.
      cbn [forallb] in Ns. apply andb_true_iff in Ns as [Ny _].
      rewrite Y, X in Ny. unfold isNot in Ny. rewrite isChar_chr in Ny.
     discriminate.
    - (* the candidate is italic, the span bold *)
      injection St as Y _. congruence. }
  rewrite T in E'. rewrite E in E'. injection E' as M.
  destruct fm as [ty' a' i']. cbn [type match_ index] in *.
  subst. reflexivity.
Qed.

(** The runs the loop returns are the runs it was given followed by the
    runs of the text, which are not none for a text that is not empty. *)
Lemma inlineLoop_acc (fuel : nat) :
  forall remaining acc runs,
    inlineLoop fuel remaining (acc ++ runs) =
    option_map (app acc) (inlineLoop fuel remaining runs).
Proof.
  induction fuel as [|fuel IH]; intros remaining acc runs.
  - destruct remaining; reflexivity.
  - destruct remaining as [|c s]; [reflexivity|].
    cbn [inlineLoop]. destruct (firstMatch (c :: s)) as [fm|].
    + destruct (truthy (get (match_ fm) 1)).
      * rewrite <- !app_assoc. apply IH.
      * rewrite <- !app_assoc. apply IH.
    + cbn [option_map]. rewrite app_assoc. reflexivity.
Qed.

Lemma inlineLoop_le (fuel : nat) :
  forall remaining runs out,
    inlineLoop fuel remaining runs = Some out -> length runs <= length out.
Proof.
  induction fuel as [|fuel IH]; intros remaining runs out H.
  - destruct remaining; [|discriminate]. injection H as <-. lia.
  - destruct remaining as [|c s]; [injection H as <-; lia|].
    cbn [inlineLoop] in H. destruct (firstMatch (c :: s)) as [fm|].
    + apply IH in H. rewrite length_app in H.
      destruct (truthy _); rewrite ?length_app in H; lia.
    + injection H as <-. rewrite length_app. lia.
Qed.

Lemma inlineLoop_more (fuel : nat) (remaining : jsstring)
    (runs out : list TextRun) :
  remaining <> [] ->
  inlineLoop fuel remaining runs = Some out ->
  length runs < length out.
Proof.
  intros Hne H. destruct remaining as [|c s]; [congruence|].
  destruct fuel as [|fuel]; [discriminate|].
  cbn [inlineLoop] in H. destruct (firstMatch (c :: s)) as [fm|].
  - apply inlineLoop_le in H. rewrite length_app in H. cbn [length] in H.
    destruct (truthy _); rewrite ?length_app in H; lia.
  - injection H as <-. rewrite length_app. cbn [length]. lia.
Qed.

(** X4: The runs of a text that begins with plain text and a delimited span:
    the plain text if there is any, the span in its style, and the runs of
    what follows the span. *)
Theorem first_span (ty : spanType) (d : ascii) (before span tail : jsstring) :
  (d = "*"%char \/ d = "_"%char) ->
  forallb dot before = true -> forallb notDelimiter before = true ->
  span <> [] -> forallb (isNot d) span = true ->
  match ty with
  | bold_span => forallb dot span = true
  | italic_span =>
      match tail with c :: _ => isChar d c = false | [] => True end
  end ->
  parseInlineMarkdown
    (before ++ delimiter ty d ++ span ++ delimiter ty d ++ tail) =
  match before with [] => [] | _ :: _ => [plainRun before] end ++
  styledRun ty span ::
  match tail with [] => [] | _ :: _ => parseInlineMarkdown tail end.
Proof.
  intros Hd Db Nb Hs Ns Hty.
  pose proof (firstMatch_span ty d before span tail Hd Db Nb Hs Ns Hty) as F.
  set (t := before ++ delimiter ty d ++ span ++ delimiter ty d ++ tail) in *.
  set (pre := match before with [] => [] | _ :: _ => [plainRun before] end ++
              [styledRun ty span]).
  assert (Lt : length t = S (length t - 1) /\ length tail <= length t - 1).
  { unfold t. rewrite !length_app.
    assert (0 < length (delimiter ty d)) by (destruct ty; cbn; lia). lia. }
  destruct Lt as [Lt Ltail].
  assert (Step : forall fuel,
             inlineLoop (S fuel) t [] = inlineLoop fuel tail pre).
  { intros fuel. destruct t as [|c s] eqn:T; [discriminate|].
    cbn [inlineLoop]. rewrite F. cbn [match_ type]. unfold get. cbn [nth].
    assert (Sub : substring (c :: s)
                    (length (before ++ delimiter ty d ++ span ++
                             delimiter ty d)) = tail).
    { rewrite <- T. unfold t, substring.
      replace (before ++ delimiter ty d ++ span ++ delimiter ty d ++ tail)
        with ((before ++ delimiter ty d ++ span ++ delimiter ty d) ++ tail)
        by (rewrite <- !app_assoc; reflexivity).
      rewrite skipn_app, skipn_all, Nat.sub_diag. reflexivity. }
    rewrite Sub. f_equal. unfold pre, styledRun.
    destruct before, ty; reflexivity. }
  destruct (parseInlineMarkdown_loop tail) as (runs & Hloop & Htail).
  unfold parseInlineMarkdown at 1. rewrite Lt, Step.
  replace (inlineLoop (length t - 1) tail pre)
    with (option_map (app pre) (inlineLoop (length t - 1) tail []))
    by (rewrite <- inlineLoop_acc, app_nil_r; reflexivity).
  rewrite (Hloop _ Ltail). cbn [option_map].
  assert (Hpre : pre ++ runs =
                 match before with [] => [] | _ :: _ => [plainRun before] end ++
                 styledRun ty span :: runs).
  { unfold pre. rewrite <- app_assoc. reflexivity. }
  assert (Hruns : runs =
                  match tail with
                  | [] => []
                  | _ :: _ => parseInlineMarkdown tail
                  end).
  { destruct tail as [|c tail'].
    - specialize (Hloop 0 (le_n _)). cbn in Hloop. congruence.
    - rewrite Htail. destruct runs as [|r runs]; [|reflexivity].
      specialize (Hloop _ (le_n _)).
      apply inlineLoop_more in Hloop; [cbn in Hloop; lia|discriminate]. }
  rewrite <- Hruns, <- Hpre.
  destruct (pre ++ runs) eqn:P; [|reflexivity].
  unfold pre in P. destruct before; discriminate.
Qed.

Lemma first_span_witness :
  parseInlineMarkdown (str "see **this** and _that_") =
  [plainRun (str "see "); boldRun (str "this");
   plainRun (str " and "); italicRun (str "that")].
Proof.
  change (str "see **this** and _that_")
    with (str "see " ++ delimiter bold_span "*" ++ str "this" ++
          delimiter bold_span "*" ++ str " and _that_").
  rewrite (first_span bold_span "*" (str "see ") (str "this")
             (str " and _that_"));
    [ | left; reflexivity | reflexivity | reflexivity | discriminate
      | reflexivity | reflexivity ].
  change (str " and _that_")
    with (str " and " ++ delimiter italic_span "_" ++ str "that" ++
          delimiter italic_span "_" ++ []).
  rewrite (first_span italic_span "_" (str " and ") (str "that") []);
    [ reflexivity | right; reflexivity | reflexivity | reflexivity
      | discriminate | reflexivity | exact I ].
Defined.

(** *** The bold span at the earliest offset *)

(** One turn of the loop seen from outside: the runs of a text in which the
    loop finds a span are the plain run of the text before the span, when
    there is any, the run of the span in the style of the selected
    candidate, and the runs of what follows the match. *)
Lemma parseInlineMarkdown_step (text : jsstring) (fm : candidate) :
  firstMatch text = Some fm ->
  parseInlineMarkdown text =
  match get (match_ fm) 1 with
  | [] => []
  | _ :: _ => [plainRun (get (match_ fm) 1)]
  end ++
  styledRun (type fm) (get (match_ fm) 2) ::
  match substring text (length (get (match_ fm) 0)) with
  | [] => []
  | _ :: _ => parseInlineMarkdown (substring text (length (get (match_ fm) 0)))
  end.
Proof.
  intros F.
  destruct (firstMatch_shape text fm F)
    as (d & k & before & span & tail & Hd & Hk & Hn & Hs & Hm).
  rewrite Hm. unfold get. cbn [nth].
  assert (Sub : substring text
                  (length (before ++ repeat (chr d) k ++ span ++
                           repeat (chr d) k)) = tail).
  { unfold substring. rewrite Hs at 1.
    replace (before ++ repeat (chr d) k ++ span ++ repeat (chr d) k ++ tail)
      with ((before ++ repeat (chr d) k ++ span ++ repeat (chr d) k) ++ tail)
      by (rewrite <- !app_assoc; reflexivity).
    rewrite skipn_app, skipn_all, Nat.sub_diag. reflexivity. }
  rewrite Sub.
  set (pre := match before with [] => [] | _ :: _ => [plainRun before] end ++
              [styledRun (type fm) span]).
  assert (Lt : length text = S (length text - 1) /\
               length tail <= length text - 1).
  { rewrite Hs, !length_app.
    assert (0 < length (repeat (chr d) k))
      by (rewrite repeat_length; destruct Hk as [[_ ->]|[_ ->]]; lia).
    lia. }
  destruct Lt as [Lt Ltail].
  assert (Step : forall fuel,
             inlineLoop (S fuel) text [] = inlineLoop fuel tail pre).
  { intros fuel. destruct text as [|c s] eqn:T.
    - cbn [length] in Lt. discriminate.
    - cbn [inlineLoop]. rewrite F, Hm. unfold get. cbn [nth].
      rewrite Sub. f_equal. unfold pre, styledRun.
      destruct before, (type fm); reflexivity. }
  destruct (parseInlineMarkdown_loop tail) as (runs & Hloop & Htail).
  unfold parseInlineMarkdown at 1. rewrite Lt, Step.
  replace (inlineLoop (length text - 1) tail pre)
    with (option_map (app pre) (inlineLoop (length text - 1) tail []))
    by (rewrite <- inlineLoop_acc, app_nil_r; reflexivity).
  rewrite (Hloop _ Ltail). cbn [option_map].
  assert (Hruns : runs =
                  match tail with
                  | [] => []
                  | _ :: _ => parseInlineMarkdown tail
                  end).
  { destruct tail as [|c tail'].
    - specialize (Hloop 0 (le_n _)). cbn in Hloop. congruence.
    - rewrite Htail. destruct runs as [|r runs]; [|reflexivity].
      specialize (Hloop _ (le_n _)).
      apply inlineLoop_more in Hloop; [cbn in Hloop; lia|discriminate]. }
  rewrite <- Hruns.
  replace (match before with [] => [] | _ :: _ => [plainRun before] end ++
           styledRun (type fm) span :: runs) with (pre ++ runs)
    by (unfold pre; rewrite <- app_assoc; reflexivity).
  destruct (pre ++ runs) eqn:P; [|reflexivity].
  unfold pre in P. destruct before; discriminate.
Qed.

(** Two bold candidates of one text that start at the same offset are the
    same candidate. *)
Lemma bold_candidates_same (text : jsstring) (b c : candidate) :
  In b (candidates (exec boldRe text) (exec boldRe2 text)
          (exec italicRe text) (exec italicRe2 text)) ->
  In c (candidates (exec boldRe text) (exec boldRe2 text)
          (exec italicRe text) (exec italicRe2 text)) ->
  type b = bold_span -> type c = bold_span -> index b = index c -> b = c.
Proof.
  intros Hb Hc Tb Tc I.
  apply candidate_start in Hb as (d & wb & x & r & Hd & Eb & Sb & Ib & _).
  apply candidate_start in Hc as (d' & wc & x' & r' & Hd' & Ec & Sc & Ic & _).
  rewrite Sb in Sc. apply app_eq_length in Sc as [_ Sc]; [|congruence].
  injection Sc as Sc _ _.
  symmetry in Sc. apply (chr_inj d d' Hd Hd') in Sc. subst d'.
  rewrite Tb in Eb. rewrite Tc in Ec. rewrite Eb in Ec. injection Ec as M.
  destruct b as [tb mb ib], c as [tc mc ic]. cbn [type match_ index] in *.
  congruence.
Qed.

(** An italic candidate of a text never starts where a bold one does. *)
Lemma italic_not_at_bold (text : jsstring) (b i : candidate) :
  In b (candidates (exec boldRe text) (exec boldRe2 text)
          (exec italicRe text) (exec italicRe2 text)) ->
  In i (candidates (exec boldRe text) (exec boldRe2 text)
          (exec italicRe text) (exec italicRe2 text)) ->
  type b = bold_span -> type i = italic_span -> index b <> index i.
Proof.
  intros Hb Hi Tb Ti.
  apply In_candidates_typed in Hb as [Ib Hb], Hi as [Ii Hi].
  rewrite Tb in Hb. rewrite Ti in Hi. rewrite Ib, Ii.
  destruct Hb as [Hb|Hb], Hi as [Hi|Hi]; symmetry in Hb, Hi;
    eapply bold_italic_offsets_differ; eassumption.
Qed.

(** C4: on every text, when a bold candidate starts at the earliest offset
    of all the candidates the four patterns give on the text, ties with
    italic candidates included, the loop selects that bold candidate, and
    the parser returns the plain run of the text before the span (if there
    is any), the span as a bold run, and the runs of the rest.  In
    particular the line of the claim parses into the three runs bold
    "bold", plain " and ", italic "italic". *)
Theorem C4_bold_selected_on_tie :
  (forall (text : jsstring) (b : candidate),
      In b (candidates (exec boldRe text) (exec boldRe2 text)
              (exec italicRe text) (exec italicRe2 text)) ->
      type b = bold_span ->
      (forall c,
          In c (candidates (exec boldRe text) (exec boldRe2 text)
                  (exec italicRe text) (exec italicRe2 text)) ->
          index b <= index c) ->
      firstMatch text = Some b /\
      parseInlineMarkdown text =
      match get (match_ b) 1 with
      | [] => []
      | _ :: _ =>
          [MkRun (get (match_ b) 1) false false (Some 20%N)
             (Some (str "000000"))]
      end ++
      MkRun (get (match_ b) 2) true false (Some 20%N) (Some (str "000000")) ::
      match substring text (length (get (match_ b) 0)) with
      | [] => []
      | _ :: _ =>
          parseInlineMarkdown (substring text (length (get (match_ b) 0)))
      end)
  /\
  parseInlineMarkdown (str "**bold** and *italic*") =
    [ MkRun (str "bold") true false (Some 20%N) (Some (str "000000"));
      MkRun (str " and ") false false (Some 20%N) (Some (str "000000"));
      MkRun (str "italic") false true (Some 20%N) (Some (str "000000")) ].
Proof.
  split; [|vm_compute; reflexivity].
  intros text b Hb Tb Hmin.
  assert (F : firstMatch text = Some b).
  { unfold firstMatch.
    destruct (selectFirst_some _ _ Hb) as [fm Hfm]. rewrite Hfm. f_equal.
    pose proof (selectFirst_least _ fm Hfm _ Hb) as L1.
    pose proof (selectFirst_In _ _ Hfm) as Hin.
    pose proof (Hmin fm Hin) as L2.
    assert (I : index b = index fm) by lia.
    symmetry. apply (bold_candidates_same text); auto.
    destruct (type fm) eqn:Tf; [reflexivity|].
    exfalso. exact (italic_not_at_bold text b fm Hb Hin Tb Tf I). }
  split; [exact F|].
  rewrite (parseInlineMarkdown_step text b F), Tb. reflexivity.
Qed.

(** C4 on the line "**x** *y*": the bold candidate at offset 0 is at the
    earliest offset (the italic candidate is at 6). *)
Lemma C4_bold_selected_on_tie_witness :
  firstMatch (str "**x** *y*") =
  Some (MkCand bold_span [str "**x**"; []; str "x"] 0) /\
  parseInlineMarkdown (str "**x** *y*") =
  MkRun (str "x") true false (Some 20%N) (Some (str "000000")) ::
  parseInlineMarkdown (str " *y*").
Proof.
  apply (proj1 C4_bold_selected_on_tie (str "**x** *y*")
           (MkCand bold_span [str "**x**"; []; str "x"] 0)).
  - vm_compute. left. reflexivity.
  - reflexivity.
  - intros c _. cbn [index]. lia.
Defined.


(* ================================================================== *)
(** ** The form page: the impact selection *)
(* ================================================================== *)

Section FormPageFacts.

Import FormPage.

Lemma includes_In (arr : list jsstring) (x : jsstring) :
  includes arr x = true <-> In x arr.
Proof.
  unfold includes. rewrite existsb_exists. split.
  - intros (y & Hy & E). apply eqb_eq in E. congruence.
  - intros H. exists x. split; [exact H|]. apply eqb_eq. reflexivity.
Qed.

Lemma includes_false (arr : list jsstring) (x : jsstring) :
  includes arr x = false <-> ~ In x arr.
Proof.
  rewrite <- includes_In. destruct (includes arr x); split; congruence.
Qed.

Lemma In_removed (c category : jsstring) (prev : list jsstring) :
  In c (filter (fun c => negb (eqb c category)) prev) <->
  In c prev /\ c <> category.
Proof.
  rewrite filter_In, negb_true_iff, eqb_neq. reflexivity.
Qed.

(** X15: Ticking a check box flips the category it stands for and no other:
    afterwards the category is selected exactly when it was not before, and
    every other category is selected exactly when it was before. *)
Theorem toggle_flips_one (category c : jsstring) (st : Impact) :
  includes (impactCategories (toggleImpactCategory category st)) c =
  if eqb c category then negb (includes (impactCategories st) category)
  else includes (impactCategories st) c.
Proof.
  unfold toggleImpactCategory.
  destruct (includes (impactCategories st) category) eqn:I;
    cbn [impactCategories].
  - destruct (eqb c category) eqn:E.
    + apply eqb_eq in E. subst c. apply includes_false.
      rewrite In_removed. tauto.
    + apply eqb_neq in E.
      destruct (includes (impactCategories st) c) eqn:J.
      * apply includes_In. apply includes_In in J. apply In_removed. tauto.
      * apply includes_false. apply includes_false in J.
        rewrite In_removed. tauto.
  - destruct (eqb c category) eqn:E.
    + apply eqb_eq in E. subst c. apply includes_In, in_or_app.
      right. left. reflexivity.
    + apply eqb_neq in E.
      destruct (includes (impactCategories st) c) eqn:J.
      * apply includes_In. apply includes_In in J. apply in_or_app. tauto.
      * apply includes_false. apply includes_false in J.
        intros H. apply in_app_or in H as [H|[H|[]]]; congruence.
Qed.

(** X16: Ticking a box that was not ticked and unticking it again gives the
    selection back, in the same order. *)
Theorem toggle_twice (category : jsstring) (st : Impact) :
  includes (impactCategories st) category = false ->
  impactCategories
    (toggleImpactCategory category (toggleImpactCategory category st)) =
  impactCategories st.
Proof.
  intros I. unfold toggleImpactCategory at 2. rewrite I.
  unfold toggleImpactCategory. cbn [impactCategories].
  assert (J : includes (impactCategories st ++ [category]) category = true).
  { apply includes_In, in_or_app. right. left. reflexivity. }
  rewrite J. cbn [impactCategories]. rewrite filter_app. cbn [filter].
  assert (E : eqb category category = true) by (apply eqb_eq; reflexivity).
  rewrite E. cbn [negb]. rewrite app_nil_r.
  apply includes_false in I. clear J.
  induction (impactCategories st) as [|x l IH]; [reflexivity|].
  cbn [filter]. destruct (eqb x category) eqn:X.
  - apply eqb_eq in X. subst x. exfalso. apply I. left. reflexivity.
  - cbn [negb]. f_equal. apply IH. intros H. apply I. right. exact H.
Qed.

Lemma toggle_twice_witness :
  impactCategories
    (toggleImpactCategory (str "Peers")
       (toggleImpactCategory (str "Peers")
          (MkImpact [str "Others"; str "Client"] (str "Vendor")))) =
  [str "Others"; str "Client"].
Proof. apply toggle_twice. reflexivity. Defined.

Lemma NoDup_removed (category : jsstring) (prev : list jsstring) :
  NoDup prev -> NoDup (filter (fun c => negb (eqb c category)) prev).
Proof. apply NoDup_filter. Qed.

(** X17: Whatever the user does to the impact section, no category is selected
    twice, only the five categories are selected, so at most five, and the
    text typed for the other party is empty unless "Others" is selected:
    unticking "Others" clears it. *)
Theorem impact_invariant (st : Impact) :
  impactReachable st ->
  NoDup (impactCategories st) /\
  incl (impactCategories st) IMPACT_CATEGORIES /\
  length (impactCategories st) <= 5 /\
  (includes (impactCategories st) (str "Others") = false ->
   impactOthersSpecify st = []).
Proof.
  intros R.
  enough (NoDup (impactCategories st) /\
          incl (impactCategories st) IMPACT_CATEGORIES /\
          (includes (impactCategories st) (str "Others") = false ->
           impactOthersSpecify st = [])) as (ND & IN & OT).
  { repeat split; try assumption. exact (NoDup_incl_length ND IN). }
  induction R as [|st st' _ (ND & IN & OT) S].
  - split; [constructor|]. split; [intros x []|reflexivity].
  - destruct S as [category st Hcat|value st Hot].
    + unfold toggleImpactCategory.
      destruct (includes (impactCategories st) category) eqn:I;
        cbn [impactCategories impactOthersSpecify].
      * split; [apply NoDup_removed, ND|]. split.
        -- intros x Hx. apply In_removed in Hx. apply IN, Hx.
        -- intros J. destruct (eqb category (str "Others")) eqn:E;
             [reflexivity|].
           apply OT. apply includes_false. apply includes_false in J.
           intros K. apply J, In_removed. split; [exact K|].
           apply eqb_neq in E. congruence.
      * apply includes_false in I. split.
        -- apply NoDup_app; [exact ND|repeat constructor; intros []|].
           intros x Hx [<-|[]]. exact (I Hx).
        -- split.
           ++ intros x Hx. apply in_app_or in Hx as [Hx|[<-|[]]];
                [apply IN, Hx|exact Hcat].
           ++ intros J. apply OT. apply includes_false.
              apply includes_false in J. intros K. apply J, in_or_app.
              left. exact K.
    + cbn [impactCategories impactOthersSpecify].
      split; [exact ND|]. split; [exact IN|]. congruence.
Qed.

Lemma impact_invariant_witness :
  impactOthersSpecify
    (toggleImpactCategory (str "Others")
       (MkImpact [str "Others"] (str "Vendor"))) = [].
Proof.
  apply (impact_invariant
           (toggleImpactCategory (str "Others")
              (MkImpact [str "Others"] (str "Vendor")))).
  - apply (ImpactStep (MkImpact [str "Others"] (str "Vendor"))).
    + apply (ImpactStep (MkImpact [str "Others"] [])).
      * apply (ImpactStep (MkImpact [] [])); [constructor|].
        apply (ToggleCategory (str "Others") (MkImpact [] [])).
        cbn. tauto.
      * apply (SpecifyOthers (str "Vendor") (MkImpact [str "Others"] [])).
        reflexivity.
    + apply ToggleCategory. cbn. tauto.
  - reflexivity.
Defined.

End FormPageFacts.

(* ================================================================== *)
(** ** The form page: guiding questions, attachments, file name *)
(* ================================================================== *)

Section FormPageQuestions.

Import FormPage.

Lemma startsWith_prefix (p x : jsstring) : startsWith (p ++ x) p = true.
Proof.
  induction p as [|c p IH]; [reflexivity|].
  cbn [app startsWith]. rewrite N.eqb_refl. exact IH.
Qed.

Lemma skipn_prefix (p x : jsstring) : skipn (length p) (p ++ x) = x.
Proof. induction p as [|c p IH]; [reflexivity|exact IH]. Qed.

Lemma replaceFirst_unfold (pattern replacement s : jsstring) :
  replaceFirst pattern replacement s =
  if startsWith s pattern then replacement ++ skipn (length pattern) s
  else match s with
       | [] => []
       | c :: s' => c :: replaceFirst pattern replacement s'
       end.
Proof. destruct s; reflexivity. Qed.

Lemma replaceFirst_prefix (pattern replacement x : jsstring) :
  replaceFirst pattern replacement (pattern ++ x) = replacement ++ x.
Proof.
  rewrite replaceFirst_unfold, startsWith_prefix, skipn_prefix. reflexivity.
Qed.

Lemma splitFirst_cons (sep : jsstring) (c : char) (s : jsstring) :
  startsWith (c :: s) sep = false ->
  splitFirst sep (c :: s) = c :: splitFirst sep s.
Proof. intros H. cbn [splitFirst]. rewrite H. reflexivity. Qed.

(** The key read off an impact context starts with "impact_description"
    and a space: it is none of the keys of the table. *)
Lemma impact_key (rest : jsstring) :
  match rest with [] => True | c :: _ => N.eqb 45 c = false end ->
  exists x,
    splitFirst (str " - ") (str "impact_description" ++ 32%N :: rest) =
    str "impact_description " ++ x.
Proof.
  intros H. exists (splitFirst (str " - ") rest).
  change (str "impact_description" ++ 32%N :: rest)
    with ([105; 109; 112; 97; 99; 116; 95; 100; 101; 115; 99; 114; 105; 112;
           116; 105; 111; 110]%N ++ 32%N :: rest).
  cbn [app]. do 18 (rewrite splitFirst_cons by reflexivity).
  rewrite splitFirst_cons; [reflexivity|].
  destruct rest as [|c rest]; [reflexivity|].
  change (str " - ") with [32; 45; 32]%N. cbn [startsWith].
  rewrite H. reflexivity.
Qed.

Lemma impact_key_questions (x : jsstring) :
  lookup (str "impact_description " ++ x) GUIDING_QUESTIONS = None /\
  includes inheritedNames (str "impact_description " ++ x) = false.
Proof. split; reflexivity. Qed.

Lemma category_first (c : jsstring) (tail : jsstring) :
  In c IMPACT_CATEGORIES ->
  exists ch r, c ++ tail = ch :: r /\ N.eqb 45 ch = false.
Proof.
  intros [<-|[<-|[<-|[<-|[<-|[]]]]]]; eexists; eexists;
    (split; [reflexivity|reflexivity]).
Qed.

Lemma join_cons_app (sep x : jsstring) (l : list jsstring) :
  exists tail, join sep (x :: l) = x ++ tail.
Proof.
  destruct l as [|y l].
  - exists []. cbn [join]. rewrite app_nil_r. reflexivity.
  - eexists. reflexivity.
Qed.

(** X18: For the impact section no guiding question is ever sent: the context
    that [getImpactContext] builds, with the parties listed after a colon,
    gives a key that is not in the table, whatever is selected and typed. *)
Theorem impact_context_has_no_questions (st : Impact) :
  Forall (fun c => In c IMPACT_CATEGORIES) (impactCategories st) ->
  getGuidingQuestions (getImpactContext st) = Some [].
Proof.
  intros H. unfold getGuidingQuestions, getImpactContext.
  set (rest := join (str ", ") (impactCategories st) ++
               (if includes (impactCategories st) (str "Others") &&
                   truthy (impactOthersSpecify st)
                then str " (Others: " ++ impactOthersSpecify st ++ str ")"
                else [])).
  change (str "impact_description - Impacted parties: " ++ rest)
    with (str "impact_description - Impacted parties:" ++ 32%N :: rest).
  rewrite replaceFirst_prefix.
  destruct (impact_key rest) as [x Hx].
  { subst rest. destruct (impactCategories st) as [|c cs]; [exact I|].
    apply Forall_cons_iff in H as [Hc _].
    destruct (join_cons_app (str ", ") c cs) as [tail ->].
    rewrite <- app_assoc.
    destruct (category_first c
                (tail ++
                 (if includes (c :: cs) (str "Others") &&
                     truthy (impactOthersSpecify st)
                  then str " (Others: " ++ impactOthersSpecify st ++ str ")"
                  else [])) Hc) as (ch & r & -> & Hch).
    exact Hch. }
  rewrite Hx.
  destruct (impact_key_questions x) as [-> ->]. reflexivity.
Qed.

Lemma impact_context_has_no_questions_witness :
  getGuidingQuestions
    (getImpactContext (MkImpact [str "Client"; str "Others"] (str "Vendor")))
  = Some [].
Proof.
  apply impact_context_has_no_questions.
  repeat constructor; cbn; tauto.
Defined.

(** X19: For a section name that is a key of the table, the questions of the
    section are returned, one on each line. *)
Theorem section_name_has_its_questions
    (key : jsstring) (questions : list jsstring) :
  In (key, questions) GUIDING_QUESTIONS ->
  getGuidingQuestions key = Some (join [10%N] questions).
Proof.
  intros [E|[E|[E|[E|[E|[]]]]]]; injection E as <- <-; vm_compute; reflexivity.
Qed.

Lemma section_name_has_its_questions_witness :
  getGuidingQuestions (str "attachment_description") =
  Some (str "What does this attachment show or prove?" ++ [10%N] ++
        str "When was this evidence captured (date/time)?" ++ [10%N] ++
        str "Who is involved in this evidence?").
Proof.
  apply (section_name_has_its_questions (str "attachment_description")
           [ str "What does this attachment show or prove?";
             str "When was this evidence captured (date/time)?";
             str "Who is involved in this evidence?" ]).
  cbn. tauto.
Defined.

(** *** Attachments *)

(** X20: Removing the attachment that was just added gives the list back, when
    no older attachment has the identifier of the new one. *)
Theorem remove_added_attachment (now : N) (attachments : list Attachment) :
  Forall (fun att => id att <> str "att_" ++ Number_toString now) attachments ->
  removeAttachment (str "att_" ++ Number_toString now)
    (addAttachment now attachments) = attachments.
Proof.
  intros H. unfold removeAttachment, addAttachment.
  rewrite filter_app. cbn [filter id].
  assert (E : eqb (str "att_" ++ Number_toString now)
                (str "att_" ++ Number_toString now) = true)
    by (apply eqb_eq; reflexivity).
  rewrite E. cbn [negb]. rewrite app_nil_r.
  induction H as [|att l Ha _ IH]; [reflexivity|].
  cbn [filter]. apply eqb_neq in Ha. rewrite Ha. cbn [negb]. f_equal. exact IH.
Qed.

Lemma remove_added_attachment_witness :
  removeAttachment (str "att_1700")
    (addAttachment 1700 [MkAttachment (str "att_1500") (str "a") (str "b")]) =
  [MkAttachment (str "att_1500") (str "a") (str "b")].
Proof.
  apply (remove_added_attachment 1700
           [MkAttachment (str "att_1500") (str "a") (str "b")]).
  repeat constructor. discriminate.
Defined.

(** X21: Editing a field of an attachment changes neither the number nor the
    order nor the identifiers of the attachments, and an attachment with
    another identifier stays as it is. *)
Theorem updateAttachment_keeps (id_ : jsstring) (field : AttachmentField)
    (value : jsstring) (attachments : list Attachment) :
  map id (updateAttachment id_ field value attachments) = map id attachments /\
  forall k att,
    nth_error attachments k = Some att ->
    nth_error (updateAttachment id_ field value attachments) k =
    Some (if eqb (id att) id_ then
            match field with
            | nameOrLinkField => MkAttachment (id att) value (description att)
            | descriptionField => MkAttachment (id att) (nameOrLink att) value
            end
          else att).
Proof.
  unfold updateAttachment. split.
  - rewrite map_map. apply map_ext. intros att.
    destruct (eqb (id att) id_); [destruct field|]; reflexivity.
  - intros k att H. rewrite nth_error_map, H. reflexivity.
Qed.

(** *** The file name *)

Lemma underscoreRuns_black (s : jsstring) :
  forall inRun,
    Forall (fun c => isWhiteSpace c = false) (underscoreRuns inRun s).
Proof.
  induction s as [|c s IH]; intros inRun; cbn [underscoreRuns];
    [constructor|].
  destruct (isWhiteSpace c) eqn:W.
  - destruct inRun; [apply IH|]. constructor; [reflexivity|apply IH].
  - constructor; [exact W|apply IH].
Qed.

Lemma underscoreRuns_id (s : jsstring) :
  forallb (fun c => negb (isWhiteSpace c)) s = true ->
  forall inRun, underscoreRuns inRun s = s.
Proof.
  induction s as [|c s IH]; intros H inRun; [reflexivity|].
  cbn [forallb] in H. apply andb_true_iff in H as [Hc Hs].
  apply negb_true_iff in Hc. cbn [underscoreRuns]. rewrite Hc.
  f_equal. apply IH, Hs.
Qed.

(** X22: The name of the downloaded file holds no white space, whatever the
    name of the employee, as long as the date the host prints holds none; and
    a name without white space is used as it is. *)
Theorem filename_no_white_space
    (employee_name : option jsstring) (dateStr : jsstring) :
  Forall (fun c => isWhiteSpace c = false) dateStr ->
  Forall (fun c => isWhiteSpace c = false) (filename employee_name dateStr) /\
  (forall name,
      employee_name = Some name ->
      forallb (fun c => negb (isWhiteSpace c)) name = true ->
      filename employee_name dateStr =
      str "Incident_Report_" ++ name ++ str "_" ++ dateStr ++ str ".docx").
Proof.
  intros Hd. split.
  - unfold filename. repeat (apply Forall_app; split).
    + repeat constructor.
    + destruct employee_name; [apply underscoreRuns_black|repeat constructor].
    + repeat constructor.
    + exact Hd.
    + repeat constructor.
  - intros name -> Hn. unfold filename. rewrite underscoreRuns_id by exact Hn.
    reflexivity.
Qed.

Lemma filename_no_white_space_witness :
  filename (Some (str "Ana  Maria" ++ [9%N] ++ str "Cruz")) (str "2024-03-15") =
  str "Incident_Report_Ana_Maria_Cruz_2024-03-15.docx" /\
  Forall (fun c => isWhiteSpace c = false)
    (filename (Some (str "Ana  Maria" ++ [9%N] ++ str "Cruz"))
       (str "2024-03-15")).
Proof.
  split; [reflexivity|].
  apply (filename_no_white_space
           (Some (str "Ana  Maria" ++ [9%N] ++ str "Cruz")) (str "2024-03-15")).
  repeat constructor.
Defined.

End FormPageQuestions.

(* ================================================================== *)
(** ** The report: optional boxes and what a complete form gives *)
(* ================================================================== *)

Section ReportFacts.

Import Report.

Lemma processLine_spaced (n : N) (line : jsstring) :
  spacing_after (fst (processLine n line)) <> None.
Proof.
  unfold processLine. destruct (classify (trim line)); discriminate.
Qed.

Lemma paragraphsFrom_spaced (lines : list jsstring) :
  forall n p, In p (paragraphsFrom n lines) -> spacing_after p <> None.
Proof.
  induction lines as [|l ls IH]; intros n p H; [contradiction|].
  cbn [paragraphsFrom] in H. destruct H as [<-|H].
  - apply processLine_spaced.
  - eapply IH, H.
Qed.

(** A text that is not white space only never compiles to the
    placeholder. *)
Lemma no_placeholder (t : jsstring) :
  trim t <> [] -> ~ In placeholderParagraph (parseMarkdownToParagraphs t).
Proof.
  intros H Hin. rewrite parseMarkdownToParagraphs_lines in Hin by exact H.
  apply paragraphsFrom_spaced in Hin. apply Hin. reflexivity.
Qed.

(** X13: The boxes of the findings and of the policy concerns are there
    exactly when their text is not the empty string; the box of the incident
    details is always the first element.  A text of white space only is not
    the empty string: its box is there and holds the placeholder "No content
    provided". *)
Theorem optional_boxes (data : ReportData) :
  narrativeElements data =
  [ ETable (createContentBox (str "Incident Details:") (incidentDetails data)
              (str "1d4ed8"));
    EParagraph (MkPara [] None None None (Some 200%N)) ]
  ++ match findings data with
     | [] => []
     | _ :: _ =>
         [ ETable (createContentBox (str "Findings:") (findings data)
                     (str "1d4ed8"));
           EParagraph (MkPara [] None None None (Some 200%N)) ]
     end
  ++ match policyViolation data with
     | [] => []
     | _ :: _ =>
         [ ETable (createContentBox (str "Policy/Code of Conduct Concerns:")
                     (policyViolation data) (str "1d4ed8"));
           EParagraph (MkPara [] None None None (Some 200%N)) ]
     end
  /\
  forall title content color,
    boxTitle (createContentBox title content color) = title /\
    (forallb isWhiteSpace content = true ->
     boxContent (createContentBox title content color) =
     [placeholderParagraph]) /\
    (trim content <> [] ->
     length (boxContent (createContentBox title content color)) =
     S (count_occ N.eq_dec content 10%N) /\
     ~ In placeholderParagraph
         (boxContent (createContentBox title content color))).
Proof.
  split.
  - unfold narrativeElements.
    destruct (findings data), (policyViolation data); reflexivity.
  - intros title content color. split; [|split].
    + cbn. apply app_nil_r.
    + intros H. cbn [boxContent createContentBox rows cell_children].
      apply parseMarkdownToParagraphs_white, trim_white, H.
    + intros H. cbn [boxContent createContentBox rows cell_children].
      split; [|apply no_placeholder, H].
      rewrite parseMarkdownToParagraphs_length by exact H.
      apply split_length.
Qed.

Lemma optional_boxes_witness :
  boxContent (createContentBox (str "Findings:") (str "  ") (str "1d4ed8")) =
  [placeholderParagraph] /\
  length (boxContent (createContentBox (str "Findings:")
                        (str "seen" ++ [10%N] ++ str "- twice")
                        (str "1d4ed8"))) = 2.
Proof.
  destruct (proj2 (optional_boxes
                     (MkReportData [] None [] [] [] [] [] [] [] [] [] []
                        (MkEmployee 0 0 [] [] [] [] None) None))
              (str "Findings:") (str "  ") (str "1d4ed8")) as (_ & H1 & _).
  destruct (proj2 (optional_boxes
                     (MkReportData [] None [] [] [] [] [] [] [] [] [] []
                        (MkEmployee 0 0 [] [] [] [] None) None))
              (str "Findings:") (str "seen" ++ [10%N] ++ str "- twice")
              (str "1d4ed8")) as (_ & _ & H2).
  split.
  - apply H1. reflexivity.
  - apply H2. discriminate.
Defined.

End ReportFacts.

Section DownloadFacts.

Import Report.

Variable toLocaleString : jsstring -> jsstring.
Variable toLocaleDateString : jsstring -> jsstring.

Lemma truthy_trim (s : jsstring) : truthy (trim s) = true -> truthy s = true.
Proof.
  intros H. apply truthy_true. intros ->. discriminate.
Qed.

(** X14: What [handleDownloadDocx] hands to the generator never needs a
    placeholder for a required field: the incident details and the impact
    description compile to their own lines, the impacted parties are listed,
    what and where are the texts typed, the dates are handed to the host's
    formatter, and both employees are there. *)
Theorem download_needs_no_placeholder
    (f : FormPage.Form) (data : ReportData) :
  FormPage.downloadData f = Some data ->
  Forall (fun c => c <> []) (FormPage.impactCategories (FormPage.impact f)) ->
  ~ In placeholderParagraph
     (parseMarkdownToParagraphs (incidentDetails data)) /\
  ~ In placeholderParagraph
      (parseMarkdownToParagraphs (impactDescription data)) /\
  (exists parties,
      parties <> [] /\
      children (impactParagraph (impactCategories data)
                  (impactOthersSpecify data)) =
      [ MkRun (str "Impacted Parties: ") true false (Some 20%N)
          (Some (str "000000"));
        MkRun parties false false (Some 20%N) (Some (str "000000")) ]) /\
  rows (incidentTable toLocaleString data) =
  [ [ headerCell (str "What:") (Some 12%N);
      createCell (incidentWhat data)
        (MkCellOptions false false (Some 88%N) None) ];
    [ headerCell (str "Location:") None;
      createCell (incidentLocation data) noOptions ];
    [ headerCell (str "Time:") None;
      createCell (toLocaleString (incidentDateTime data)) noOptions ] ] /\
  formatDate toLocaleDateString (datePrepared data) =
  toLocaleDateString (datePrepared data) /\
  employeeDetails data <> None /\ attestedBy data <> None.
Proof.
  unfold FormPage.downloadData, FormPage.canSubmit. intros H Hc.
  destruct (FormPage.user f) as [u|]; [|destruct (negb _); discriminate].
  match type of H with
  | (if negb ?b then _ else _) = _ => destruct b eqn:C
  end; [|discriminate].
  cbn [negb] in H. injection H as <-.
  repeat (apply andb_true_iff in C as [C ?]).
  cbn [incidentDetails impactDescription impactCategories
       impactOthersSpecify incidentWhat incidentLocation incidentDateTime
       datePrepared employeeDetails attestedBy].
  split; [apply no_placeholder, truthy_true; assumption|].
  split; [apply no_placeholder, truthy_true; assumption|].
  split.
  { unfold impactParagraph. cbn [children].
    destruct (FormPage.impactCategories (FormPage.impact f)) as [|c cs] eqn:Ec;
      [discriminate|].
    apply Forall_cons_iff in Hc as [Hc _].
    rewrite impactList_shown.
    pose proof (join_nonempty (str ", ") _
                  (map (shownCategory (FormPage.impactOthersSpecify
                                         (FormPage.impact f))) cs)
                  (shownCategory_nonempty
                     (FormPage.impactOthersSpecify (FormPage.impact f))
                     c Hc)) as Hne.
    cbn [map] in *.
    destruct (join (str ", ") _) as [|x xs] eqn:J; [congruence|].
    exists (x :: xs). split; [discriminate|reflexivity]. }
  split.
  { unfold incidentTable. cbn [rows incidentWhat incidentLocation
                                    incidentDateTime].
    unfold or_else, formatDateTime.
    rewrite (truthy_trim (FormPage.incidentWhat f)) by assumption.
    rewrite (truthy_trim (FormPage.incidentLocation f)) by assumption.
    match goal with
    | T : truthy (FormPage.incidentDateTime f) = true |- _ => rewrite T
    end.
    reflexivity. }
  split.
  { unfold formatDate. rewrite C. reflexivity. }
  split; [destruct (FormPage.employeeDetails f)|
          destruct (FormPage.attestedByDetails f)]; discriminate.
Qed.

End DownloadFacts.

Lemma download_needs_no_placeholder_witness :
  let somebody := Report.MkEmployee 1 7 (str "Ana") (str "a@x.io")
                    (str "Lead") (str "Acme") None in
  let f := FormPage.MkForm (Some somebody) (str "2024-03-15") (Some somebody)
             (str "Late") (str "Office") (str "2024-03-14T09:30")
             (str "1. came late") [] [] []
             (FormPage.MkImpact [str "Client"] []) (str "Client waited")
             (Some somebody) in
  exists parties,
    parties <> [] /\
    children (impactParagraph [str "Client"] []) =
    [ MkRun (str "Impacted Parties: ") true false (Some 20%N)
        (Some (str "000000"));
      MkRun parties false false (Some 20%N) (Some (str "000000")) ].
Proof.
  intros somebody f.
  destruct (download_needs_no_placeholder (fun s => s) (fun s => s) f
              (Report.MkReportData (str "2024-03-15") (Some somebody)
                 (str "Late") (str "Office") (str "2024-03-14T09:30")
                 (str "1. came late") [] [] [] [str "Client"] []
                 (str "Client waited") somebody (Some somebody)))
    as (_ & _ & H & _).
  - reflexivity.
  - repeat constructor. discriminate.
  - exact H.
Defined.

(* ================================================================== *)
(** ** The editor: what holds of every run *)
(* ================================================================== *)

Section SyncRuns.

Import RichTextArea.

Variable turndown : jsstring -> jsstring.
Variable makeHtml : jsstring -> jsstring.

Lemma run_app (c : Component) (es es' : list event) :
  run turndown makeHtml c (es ++ es') =
  run turndown makeHtml (run turndown makeHtml c es) es'.
Proof. apply fold_left_app. Qed.

Lemma step_guarded (c : Component) (e : event) :
  guarded c -> guarded (step turndown makeHtml c e).
Proof.
  unfold guarded. intros G. destruct e as [v|v|h|]; cbn.
  - destruct (editor c); exact G.
  - destruct (editor c); [|exact G].
    destruct (negb _); [right; cbn; lia|exact G].
  - destruct (isUpdatingFromProp c) eqn:F; cbn; [|left; reflexivity].
    destruct G as [G|G]; [discriminate|right; exact G].
  - destruct (timers c) eqn:T; [rewrite T; exact G|left; reflexivity].
Qed.

Lemma run_guarded (es : list event) :
  forall c, guarded c -> guarded (run turndown makeHtml c es).
Proof.
  unfold run.
  induction es as [|e es IH]; intros c G; [exact G|].
  cbn [fold_left]. apply IH, step_guarded, G.
Qed.

Lemma timeouts_clear (c : Component) :
  guarded c ->
  isUpdatingFromProp
    (run turndown makeHtml c (repeat Timeout (timers c))) = false.
Proof.
  unfold guarded, run. intros G.
  destruct (timers c) as [|t] eqn:T.
  - destruct G as [G|G]; [exact G|lia].
  - cbn [repeat fold_left step]. rewrite T. clear.
    generalize (lastExternalValue c) (editor c) (onChangeCalls c).
    induction t as [|t IH]; intros l e o; [reflexivity|].
    cbn [repeat fold_left step timers]. apply IH.
Qed.

(** X24: Suppression always ends.  In every state the component reaches from
    its mount, the flag is set only while a scheduled callback is pending, and
    once the pending callbacks have run the flag is clear. *)
Theorem suppression_ends (value : jsstring) (es : list event) :
  let c := run turndown makeHtml (mount value) es in
  (isUpdatingFromProp c = false \/ 0 < timers c) /\
  isUpdatingFromProp
    (run turndown makeHtml c (repeat Timeout (timers c))) = false.
Proof.
  intros c.
  assert (G : guarded c) by (apply run_guarded; left; reflexivity).
  split; [exact G|apply timeouts_clear, G].
Qed.

(** X25: The window of a second external value is cut short by the callback of
    the first: the callbacks do not know which value scheduled them, so after
    two values and one callback a local edit is reported although the callback
    of the second value is still pending. *)
Theorem first_callback_ends_second_window
    (c : Component) (content v1 v2 html : jsstring) :
  editor c = Some content ->
  v1 <> lastExternalValue c ->
  v2 <> v1 ->
  let c' := run turndown makeHtml c
              [Effect v1; Effect v2; Timeout; Update html] in
  timers c' = S (timers c) /\
  onChangeCalls c' = onChangeCalls c ++ [htmlToMarkdown turndown html].
Proof.
  intros He H1 H2. apply eqb_neq in H1. apply eqb_neq in H2.
  cbn. rewrite He, H1. cbn. rewrite H2. cbn. auto.
Qed.

(** X26: A reported edit does not come back: when the parent hands the
    markdown it was given back as [value], the effect leaves the editor alone.
    *)
Theorem reported_edit_not_reapplied (c : Component) (html : jsstring) :
  isUpdatingFromProp c = false ->
  let c' := step turndown makeHtml c (Update html) in
  onChangeCalls c' = onChangeCalls c ++ [htmlToMarkdown turndown html] /\
  editor c' = Some html /\
  step turndown makeHtml c' (Effect (htmlToMarkdown turndown html)) = c'.
Proof.
  intros F. cbn. rewrite F. cbn.
  assert (E : eqb (htmlToMarkdown turndown html)
                (htmlToMarkdown turndown html) = true)
    by (apply eqb_eq; reflexivity).
  rewrite E. auto.
Qed.

Lemma step_calls (c : Component) (e : event) :
  onChangeCalls (step turndown makeHtml c e) = onChangeCalls c \/
  exists html,
    e = Update html /\
    onChangeCalls (step turndown makeHtml c e) =
    onChangeCalls c ++ [htmlToMarkdown turndown html].
Proof.
  destruct e as [v|v|h|]; cbn.
  - destruct (editor c); auto.
  - destruct (editor c); [|auto]. destruct (negb _); auto.
  - destruct (isUpdatingFromProp c); cbn; [auto|].
    right. exists h. auto.
  - destruct (timers c); auto.
Qed.

(** X27: [onChange] is called with the markdown of local edits only: the calls
    made during a run are the earlier calls followed by the markdown of
    contents the editor reported, and a run without local edits makes no call,
    whatever values arrive from outside. *)
Theorem onChange_only_for_local_edits (es : list event) :
  forall c,
  exists htmls,
    onChangeCalls (run turndown makeHtml c es) =
    onChangeCalls c ++ map (htmlToMarkdown turndown) htmls /\
    forall html, In html htmls -> In (Update html) es.
Proof.
  unfold run.
  induction es as [|e es IH]; intros c.
  - exists []. cbn. rewrite app_nil_r. split; [reflexivity|contradiction].
  - cbn [fold_left].
    destruct (IH (step turndown makeHtml c e)) as (hs & E & I).
    destruct (step_calls c e) as [S|(h & -> & S)].
    + exists hs. rewrite E, S. split; [reflexivity|].
      intros x Hx. right. apply I, Hx.
    + exists (h :: hs). rewrite E, S, <- app_assoc. split; [reflexivity|].
      intros x [<-|Hx]; [left; reflexivity|right; apply I, Hx].
Qed.

End SyncRuns.

Lemma first_callback_ends_second_window_witness :
  let c := RichTextArea.run (fun s => s) (fun s => s)
             (RichTextArea.mount (str "old"))
             [RichTextArea.EditorCreated (str "old")] in
  let c' := RichTextArea.run (fun s => s) (fun s => s) c
              [RichTextArea.Effect (str "one"); RichTextArea.Effect (str "two");
               RichTextArea.Timeout; RichTextArea.Update (str "<p>typed</p>")]
  in
  RichTextArea.timers c' = 1 /\
  RichTextArea.onChangeCalls c' = [str "<p>typed</p>"].
Proof.
  intros c c'.
  apply (first_callback_ends_second_window (fun s => s) (fun s => s)
           c (str "old") (str "one") (str "two") (str "<p>typed</p>")).
  - reflexivity.
  - discriminate.
  - discriminate.
Defined.

Lemma reported_edit_not_reapplied_witness :
  let c := RichTextArea.run (fun s => s) (fun s => s)
             (RichTextArea.mount (str "old"))
             [RichTextArea.EditorCreated (str "old")] in
  let c' := RichTextArea.step (fun s => s) (fun s => s) c
              (RichTextArea.Update (str "<p>typed</p>")) in
  RichTextArea.step (fun s => s) (fun s => s) c'
    (RichTextArea.Effect (str "<p>typed</p>")) = c'.
Proof.
  intros c c'.
  destruct (reported_edit_not_reapplied (fun s => s) (fun s => s) c
              (str "<p>typed</p>")) as (_ & _ & H).
  - reflexivity.
  - exact H.
Defined.

(* ================================================================== *)
(** ** The enhance route *)
(* ================================================================== *)

Section EnhanceRouteFacts.

Import EnhanceRoute.

Variable number : Type.
Variable isZero : number -> bool.

Lemma handleError_fails (error : Thrown) :
  exists msg status,
    handleError (number := number) error = Failure msg status /\
    (status = 500 \/ status = 503 \/ status = 504)%N.
Proof.
  unfold handleError.
  destruct (codeIs error _); [eauto 6|].
  destruct (statusIs error 405); [eauto 6|].
  destruct (statusIs error 401 || statusIs error 403); eauto 6.
Qed.

(** X28: The route answers with a text only when everything went well: the
    caller was within its rate, the body has a member [rawText] that is a
    string with more than white space, the address of the webhook is set, the
    webhook answered, and the text found in its answer is truthy.  It never
    answers with success and an empty text. *)
Theorem success_means_text
    (isAllowed : bool) (body : option (json number))
    (n8nWebhookUrl : option jsstring) (now : jsstring)
    (post : jsstring -> Payload number -> Outcome number)
   (text : value number) :
  POST isZero isAllowed body n8nWebhookUrl now post = Success text ->
  isAllowed = true /\
  truthyValue isZero text = true /\
  exists rawText url data,
    get body "rawText" = Some (JString rawText) /\
    trim rawText <> [] /\
    n8nWebhookUrl = Some url /\ url <> [] /\
    post url
      (MkPayload (trim rawText)
         (orElse isZero (get body "sectionContext")
            (Some (JString (str "general"))))
         (orElse isZero (get body "format")
            (Some (JString (str "markdown"))))
         (orElse isZero (get body "guidingQuestions") (Some (JString [])))
         now) = Resolves data /\
    text = formattedText isZero data.
Proof.
  unfold POST. intros H.
  destruct isAllowed; [|discriminate]. cbn [negb] in H.
  assert (E : forall error, handleError (number := number) error
                            <> Success text).
  { intros error. destruct (handleError_fails error) as (m & s & -> & _).
    discriminate. }
  destruct body as [b|]; [|apply E in H; contradiction].
  destruct (get (Some b) "rawText") as [[| | |rawText| |]|] eqn:R;
    try (destruct b; solve [discriminate | apply E in H; contradiction]).
  assert (H' :
    (if negb (truthy rawText) || (length (trim rawText) =? 0) then
       Failure (str "Text content is required.") 400
     else
       match n8nWebhookUrl with
       | None => Failure (str "Internal Server Error") 500
       | Some url =>
           if negb (truthy url) then
             Failure (str "Internal Server Error") 500
           else
             match
               post url
                 (MkPayload (trim rawText)
                    (orElse isZero (get (Some b) "sectionContext")
                       (Some (JString (str "general"))))
                    (orElse isZero (get (Some b) "format")
                       (Some (JString (str "markdown"))))
                    (orElse isZero (get (Some b) "guidingQuestions")
                       (Some (JString [])))
                    now)
             with
             | Resolves data =>
                 if negb (truthyValue isZero (formattedText isZero data)) then
                   Failure
                     (str "Failed to enhance text. Please try again.") 500
                 else Success (formattedText isZero data)
             | Rejects error => handleError error
             end
       end) = Success text).
  { destruct b; try exact H. cbn in R. discriminate. }
  clear H.
  destruct (negb (truthy rawText) || (length (trim rawText) =? 0)) eqn:V;
    [discriminate|].
  apply orb_false_iff in V as [_ V]. apply Nat.eqb_neq in V.
  destruct n8nWebhookUrl as [url|]; [|discriminate].
  destruct (truthy url) eqn:U; [|discriminate]. cbn [negb] in H'.
  destruct (post url _) as [data|error] eqn:P;
    [|apply E in H'; contradiction].
  destruct (truthyValue isZero (formattedText isZero data)) eqn:T;
    [|discriminate].
  cbn [negb] in H'. injection H' as <-.
  split; [reflexivity|]. split; [exact T|].
  exists rawText, url, data. repeat split; try assumption; try reflexivity.
  - intros N. apply V. rewrite N. reflexivity.
  - intros ->. discriminate.
Qed.

Lemma orElse_string (s d : jsstring) :
  orElse isZero (Some (JString s)) (Some (JString d)) =
  Some (JString (or_else s d)).
Proof. unfold orElse, or_else. cbn. destruct (truthy s); reflexivity. Qed.

(** X29: What the form sends is never refused for its text, and the webhook is
    given the trimmed text, the section context of the form or "general" for
    an empty one, the format "markdown" and the guiding questions. The setter
    of the form is called with the text of the answer, and only with a truthy
    one. *)
Theorem form_request_reaches_webhook
    (currentText sectionContext questions url now : jsstring)
    (post : jsstring -> Payload number -> Outcome number) :
  trim currentText <> [] ->
  FormPage.getGuidingQuestions sectionContext = Some questions ->
  url <> [] ->
  let answer :=
    post url
      (MkPayload (trim currentText)
         (Some (JString (or_else sectionContext (str "general"))))
         (Some (JString (str "markdown")))
         (Some (JString questions))
         now) in
  handleAIEnhance isZero
    (fun body => POST isZero true (Some body) (Some url) now post)
    currentText sectionContext =
  match answer with
  | Resolves data =>
      if truthyValue isZero (formattedText isZero data)
      then formattedText isZero data else None
  | Rejects _ => None
  end.
Proof.
  intros Ht Hq Hu answer. unfold handleAIEnhance.
  rewrite (proj2 (truthy_true (trim currentText)) Ht). cbn [negb].
  rewrite Hq. unfold POST, enhanceRequest. cbn [negb].
  assert (R : forall ms : list (jsstring * json number),
             get (Some (JObject ((str "rawText", JString currentText) :: ms)))
               "rawText" = Some (JString currentText)) by reflexivity.
  rewrite R. clear R.
  assert (Hc : truthy currentText = true).
  { apply truthy_true. intros ->. apply Ht. reflexivity. }
  rewrite Hc. cbn [negb orb].
  assert (L : (length (trim currentText) =? 0) = false).
  { apply Nat.eqb_neq. destruct (trim currentText); [congruence|discriminate]. }
  rewrite L. rewrite (proj2 (truthy_true url) Hu). cbn [negb].
  change (get (Some (JObject _)) "sectionContext")
    with (Some (JString (number := number) sectionContext)).
  change (get (Some (JObject _)) "format")
    with (Some (JString (number := number) (str "markdown"))).
  change (get (Some (JObject _)) "guidingQuestions")
    with (Some (JString (number := number) questions)).
  rewrite !orElse_string.
  change (or_else (str "markdown") (str "markdown")) with (str "markdown").
  replace (or_else questions []) with questions
    by (unfold or_else; destruct questions; reflexivity).
  fold answer. destruct answer as [data|error].
  - destruct (truthyValue isZero (formattedText isZero data)) eqn:T;
      cbn [negb]; [rewrite T|]; reflexivity.
  - destruct (handleError_fails error) as (m & s & -> & _). reflexivity.
Qed.

(** X30: Inside [original] the member [improved_text] is taken before
    [formatted_text] and that before [text], each when truthy.  The first
    format that applies decides alone: an answer that is an array, or has an
    array that is not empty as [output], is never searched for a text of its
    own, and a member [text] counts only inside [original]. *)
Theorem first_format_decides
    (item : json number) (items : list (json number))
    (members : list (jsstring * json number)) :
  let inner := pickText isZero (get (Some item) "original") in
  formattedText isZero (JArray (item :: items)) = inner /\
  (member (str "output") members = Some (JArray (item :: items)) ->
   formattedText isZero (JObject members) = inner) /\
  truthyValue isZero
    (formattedText isZero (JObject [(str "text", JString (str "x"))])) = false
  /\
  forall a b c : value number,
    pickText isZero
      (Some (JObject
               (match a with Some v => [(str "improved_text", v)] | None => []
                end ++
                match b with Some v => [(str "formatted_text", v)] | None => []
                end ++
                match c with Some v => [(str "text", v)] | None => [] end))) =
    if truthyValue isZero a then a
    else if truthyValue isZero b then b
    else if truthyValue isZero c then c
    else Some (JString []).
Proof.
  intros inner. split; [reflexivity|]. split; [|split].
  - intros O. unfold formattedText. cbn [isArray andb get].
    rewrite O. reflexivity.
  - reflexivity.
  - intros a b c. unfold pickText.
    set (o := Some (JObject _)).
    assert (Ga : get o "improved_text" = a)
      by (destruct a, b, c; reflexivity).
    assert (Gb : get o "formatted_text" = b)
      by (destruct a, b, c; reflexivity).
    assert (Gc : get o "text" = c) by (destruct a, b, c; reflexivity).
    rewrite Ga, Gb, Gc. unfold orElse.
    destruct (truthyValue isZero a) eqn:Ta; [rewrite Ta, Ta; reflexivity|].
    destruct (truthyValue isZero b) eqn:Tb; [rewrite Tb; reflexivity|].
    destruct (truthyValue isZero c) eqn:Tc; reflexivity.
Qed.

End EnhanceRouteFacts.

Lemma success_means_text_witness :
  let post := fun (_ : jsstring) (_ : EnhanceRoute.Payload N) =>
                EnhanceRoute.Resolves
                  (EnhanceRoute.JObject
                     [(str "improved_text",
                       EnhanceRoute.JString (number := N) (str "Better."))])
  in
  let body := EnhanceRoute.JObject
                [(str "rawText",
                  EnhanceRoute.JString (number := N) (str " ok "))] in
  EnhanceRoute.truthyValue (N.eqb 0)
    (Some (EnhanceRoute.JString (str "Better."))) = true.
Proof.
  intros post body.
  apply (success_means_text N (N.eqb 0) true (Some body)
           (Some (str "http://n8n")) (str "t") post
           (Some (EnhanceRoute.JString (str "Better.")))).
  reflexivity.
Defined.

Lemma form_request_reaches_webhook_witness :
  EnhanceRoute.handleAIEnhance (N.eqb 0)
    (fun body =>
       EnhanceRoute.POST (N.eqb 0) true (Some body) (Some (str "http://n8n"))
         (str "t")
         (fun _ p =>
            EnhanceRoute.Resolves
              (EnhanceRoute.JArray
                 [EnhanceRoute.JObject
                    [(str "original",
                      EnhanceRoute.JObject
                        [(str "improved_text",
                          EnhanceRoute.JString
                            (EnhanceRoute.raw_text p))])]])))
    (str " seen twice ")
    (str "impact_description - Impacted parties: Client") =
  Some (EnhanceRoute.JString (str "seen twice")).
Proof.
  apply (form_request_reaches_webhook N (N.eqb 0) (str " seen twice ")
           (str "impact_description - Impacted parties: Client") []
           (str "http://n8n") (str "t")).
  - discriminate.
  - vm_compute. reflexivity.
  - discriminate.
Defined.

(* ================================================================== *)
(** ** The date formatters on the host *)
(* ================================================================== *)

Section HostDateFacts.

Import JSDate.

Local Open Scope Z_scope.

Variable h : Host.

(** *** Days *)

Lemma nextDay_previousDay (c : Civil) :
  validDate c = true -> nextDay (previousDay c) = c.
Proof.
  destruct c as [y m d]. unfold validDate, previousDay, nextDay.
  cbn [year month day]. intros V.
  repeat (apply andb_true_iff in V as [V ?]).
  repeat match goal with
         | H : (_ <=? _) = true |- _ => apply Z.leb_le in H
         end.
  destruct (Z.ltb_spec 1 d) as [D|D]; cbn [year month day].
  - destruct (Z.ltb_spec (d - 1) (daysInMonth y m)); [|lia].
    f_equal. lia.
  - assert (d = 1) by lia. subst d.
    destruct (Z.ltb_spec 1 m) as [M|M]; cbn [year month day].
    + rewrite Z.ltb_irrefl.
      destruct (Z.ltb_spec (m - 1) 12); [|lia]. f_equal. lia.
    + assert (m = 1) by lia. subst m.
      change (daysInMonth (y - 1) 12) with 31. cbn. f_equal. lia.
Qed.

Lemma previousDay_nextDay (c : Civil) :
  validDate c = true -> previousDay (nextDay c) = c.
Proof.
  destruct c as [y m d]. unfold validDate, previousDay, nextDay.
  cbn [year month day]. intros V.
  repeat (apply andb_true_iff in V as [V ?]).
  repeat match goal with
         | H : (_ <=? _) = true |- _ => apply Z.leb_le in H
         end.
  destruct (Z.ltb_spec d (daysInMonth y m)) as [D|D]; cbn [year month day].
  - destruct (Z.ltb_spec 1 (d + 1)); [|lia]. f_equal. lia.
  - assert (d = daysInMonth y m) by lia.
    destruct (Z.ltb_spec m 12) as [M|M]; cbn [year month day].
    + cbn. destruct (Z.ltb_spec 1 (m + 1)); [|lia].
      replace (m + 1 - 1) with m by lia. congruence.
    + assert (m = 12) by lia. subst m. cbn.
      replace (y + 1 - 1) with y by lia.
      change (daysInMonth y 12) with 31 in *. congruence.
Qed.

(** *** Moving a time by less than a day *)

Lemma shift_start_east (c : Civil) (o : Z) :
  0 <= o < 1440 -> shift o (MkInstant c 0) = MkInstant c o.
Proof.
  intros O. unfold shift. cbn [minuteOfDay date]. rewrite Z.add_0_l.
  rewrite Z.div_small, Z.mod_small by exact O. reflexivity.
Qed.

Lemma shift_start_west (c : Civil) (o : Z) :
  -1440 <= o < 0 ->
  shift o (MkInstant c 0) = MkInstant (previousDay c) (o + 1440).
Proof.
  intros O. unfold shift. cbn [minuteOfDay date]. rewrite Z.add_0_l.
  assert (Q : o / 1440 = -1)
    by (symmetry; apply (Z.div_unique o 1440 (-1) (o + 1440)); lia).
  assert (R : o mod 1440 = o + 1440)
    by (symmetry; apply (Z.mod_unique o 1440 (-1) (o + 1440)); lia).
  rewrite Q, R. reflexivity.
Qed.

Lemma shift_there_and_back (t : Instant) (o : Z) :
  validDate (date t) = true ->
  0 <= minuteOfDay t < 1440 ->
  -1440 < o < 1440 ->
  shift o (shift (- o) t) = t.
Proof.
  destruct t as [c m]. cbn [date minuteOfDay]. intros V M O.
  unfold shift. cbn [date minuteOfDay].
  set (q := (m + - o) / 1440). set (r := (m + - o) mod 1440).
  assert (E : m + - o = 1440 * q + r) by (apply Z.div_mod; lia).
  assert (Rr : 0 <= r < 1440) by (apply Z.mod_pos_bound; lia).
  assert (Q2 : (r + o) / 1440 = - q)
    by (symmetry; apply (Z.div_unique (r + o) 1440 (- q) m); lia).
  assert (R2 : (r + o) mod 1440 = m)
    by (symmetry; apply (Z.mod_unique (r + o) 1440 (- q) m); lia).
  rewrite Q2, R2. f_equal.
  assert (Hq : q = -1 \/ q = 0 \/ q = 1) by lia.
  destruct Hq as [-> | [-> | ->]]; cbn.
  - apply nextDay_previousDay, V.
  - reflexivity.
  - apply previousDay_nextDay, V.
Qed.

(** *** What the parsers accept *)

Lemma parseDate_length (s : jsstring) (c : Civil) :
  parseDate s = Some c -> length s = 10%nat /\ validDate c = true.
Proof.
  unfold parseDate. intros H.
  do 10 (destruct s as [|? s]; [discriminate|]).
  destruct s; [|discriminate]. split; [reflexivity|].
  destruct (_ && _); [|discriminate].
  destruct (number _) as [y|]; [|discriminate].
  destruct (number _) as [m|]; [|discriminate].
  destruct (number _) as [d|]; [|discriminate].
  destruct (validDate (MkCivil y m d)) eqn:V; [|discriminate].
  injection H as <-. exact V.
Qed.

Lemma digit_range (c : char) (d : Z) : digit c = Some d -> 0 <= d <= 9.
Proof.
  unfold digit, isDigit. destruct (_ && _) eqn:E; [|discriminate].
  intros [= <-]. apply andb_true_iff in E as [L U].
  apply N.leb_le in L, U. lia.
Qed.

Lemma number_two_eq (a b : char) :
  number [a; b] =
  match digit a, digit b with
  | Some x, Some y => Some (10 * x + y)
  | _, _ => None
  end.
Proof.
  unfold number. cbn [fold_left]. destruct (digit a), (digit b); reflexivity.
Qed.

Lemma number_two (a b : char) (n : Z) :
  number [a; b] = Some n -> 0 <= n.
Proof.
  rewrite number_two_eq.
  destruct (digit a) as [x|] eqn:A; [|discriminate].
  destruct (digit b) as [y|] eqn:B; [|discriminate].
  intros E. apply digit_range in A, B.
  assert (n = 10 * x + y) by congruence. lia.
Qed.

Lemma parseDateTime_valid (s : jsstring) (t : Instant) :
  parseDateTime s = Some t ->
  parseDate s = None /\ s <> [] /\
  validDate (date t) = true /\ 0 <= minuteOfDay t < 1440.
Proof.
  unfold parseDateTime. intros H.
  destruct (parseDate (firstn 10 s)) as [c|] eqn:D; [|discriminate].
  apply parseDate_length in D as [L V].
  destruct (skipn 10 s) as [|t0 [|h1 [|h2 [|cl [|n1 [|n2 [|? ?]]]]]]] eqn:K;
    try discriminate.
  assert (Ls : length s = 16%nat).
  { rewrite <- (firstn_skipn 10 s), length_app, L, K. reflexivity. }
  split.
  { destruct (parseDate s) as [c'|] eqn:P; [|reflexivity].
    apply parseDate_length in P as [P _]. lia. }
  split; [intros ->; discriminate|].
  destruct (_ && _); [|discriminate].
  destruct (number [h1; h2]) as [hh|] eqn:Hh; [|discriminate].
  destruct (number [n1; n2]) as [nn|] eqn:Hn; [|discriminate].
  destruct ((hh <=? 23) && (nn <=? 59)) eqn:B; [|discriminate].
  assert (T : t = MkInstant c (60 * hh + nn)) by congruence.
  rewrite T. unfold date, minuteOfDay.
  apply andb_true_iff in B as [B1 B2]. apply Z.leb_le in B1, B2.
  apply number_two in Hh, Hn. split; [exact V|lia].
Qed.

(** *** [formatDate] *)

(** East of UTC, and at UTC, a date is shown as the day it names. *)
Lemma formatDate_east_of_UTC (s : jsstring) (c : Civil) :
  parseDate s = Some c ->
  0 <= timeZoneOffset h < 1440 ->
  formatDate (toLocaleDateString h) s = renderDate h c.
Proof.
  intros P O. unfold formatDate, toLocaleDateString, newDate, localTime.
  rewrite P. destruct s; [discriminate|]. cbn [truthy negb].
  rewrite shift_start_east by exact O. reflexivity.
Qed.

(** West of UTC a date is shown as the day before the one it names. *)
Lemma formatDate_west_of_UTC (s : jsstring) (c : Civil) :
  parseDate s = Some c ->
  -1440 <= timeZoneOffset h < 0 ->
  formatDate (toLocaleDateString h) s = renderDate h (previousDay c).
Proof.
  intros P O. unfold formatDate, toLocaleDateString, newDate, localTime.
  rewrite P. destruct s; [discriminate|]. cbn [truthy negb].
  rewrite shift_start_west by exact O. reflexivity.
Qed.

(** *** [formatDateTime] *)

(** A date with a time is shown as it was typed, in every time zone: it is
    read as a local time and shown as a local time. *)
Lemma formatDateTime_local (s : jsstring) (t : Instant) :
  parseDateTime s = Some t ->
  -1440 < timeZoneOffset h < 1440 ->
  formatDateTime (toLocaleString h) s =
  renderDate h (date t) ++ glue h ++ renderTime h (minuteOfDay t).
Proof.
  intros P O. pose proof (parseDateTime_valid s t P) as (D & Hs & V & M).
  unfold formatDateTime, toLocaleString, newDate, localTime.
  rewrite D, P. destruct s; [congruence|]. cbn [truthy negb].
  rewrite shift_there_and_back by assumption. reflexivity.
Qed.

(** *** "Not specified" *)

Lemma monthName_cases (m : Z) : In (monthName m) ([] :: monthNames).
Proof.
  unfold monthName. destruct ((1 <=? m) && (m <=? 12)) eqn:E;
    [|left; reflexivity].
  right. apply nth_In. apply andb_true_iff in E as [L U].
  apply Z.leb_le in L, U. change (length monthNames) with 12%nat. lia.
Qed.

Lemma rendering_not_placeholder (c : Civil) (rest : jsstring) :
  renderDate h c ++ rest <> str "Not specified".
Proof.
  unfold renderDate. rewrite <- !app_assoc.
  generalize (Number_toString (Z.to_N (day c)) ++
              str ", " ++ showYear h (year c) ++ rest).
  intros tl.
  destruct (monthName_cases (month c)) as [<-|H]; [discriminate|].
  unfold monthNames in H.
  repeat (destruct H as [<-|H]; [cbn; discriminate|]).
  contradiction.
Qed.

(** The first half of the claim: "Not specified" is returned for the empty
    input and for no other. *)
Lemma formatDate_not_specified (s : jsstring) :
  formatDate (toLocaleDateString h) s = str "Not specified" <-> s = [].
Proof.
  split; [|intros ->; reflexivity].
  destruct s as [|x s]; [reflexivity|]. unfold formatDate. cbn [truthy negb].
  unfold toLocaleDateString. destruct (newDate h (x :: s)) as [t|].
  - intros E. exfalso.
    apply (rendering_not_placeholder (date (localTime h t)) []).
    rewrite app_nil_r. exact E.
  - discriminate.
Qed.

Lemma formatDateTime_not_specified (s : jsstring) :
  formatDateTime (toLocaleString h) s = str "Not specified" <-> s = [].
Proof.
  split; [|intros ->; reflexivity].
  destruct s as [|x s]; [reflexivity|].
  unfold formatDateTime. cbn [truthy negb].
  unfold toLocaleString. destruct (newDate h (x :: s)) as [t|].
  - intros E. exfalso. exact (rendering_not_placeholder _ _ E).
  - discriminate.
Qed.

End HostDateFacts.

(** C9: the example of the claim, on three hosts.  [new Date("2024-03-15")]
    is the start of March 15 in UTC, and [toLocaleDateString] shows the
    local day: five hours west of UTC [formatDate] returns
    "March 14, 2024", at UTC and eight hours east of it "March 15, 2024".
    The file name of the same download is built with [toISOString], in
    UTC, and carries the day that was typed.  The empty input gives
    "Not specified" on every host, and a date with a time is shown as
    typed on the host west of UTC too. *)
Theorem C9_formatDate_day_early_west_of_UTC :
  forall (parseOther : jsstring -> option JSDate.Instant)
         (eraYear : Z -> jsstring) (glue periodSpace : jsstring),
    let west := JSDate.MkHost (-300) parseOther eraYear glue periodSpace in
    let utc := JSDate.MkHost 0 parseOther eraYear glue periodSpace in
    let east := JSDate.MkHost 480 parseOther eraYear glue periodSpace in
    formatDate (JSDate.toLocaleDateString west) (str "2024-03-15") =
    str "March 14, 2024" /\
    formatDate (JSDate.toLocaleDateString utc) (str "2024-03-15") =
    str "March 15, 2024" /\
    formatDate (JSDate.toLocaleDateString east) (str "2024-03-15") =
    str "March 15, 2024" /\
    option_map (FormPage.filename (Some (str "Ana")))
      (JSDate.toISODate west (str "2024-03-15")) =
    Some (str "Incident_Report_Ana_2024-03-15.docx") /\
    formatDate (JSDate.toLocaleDateString west) [] = str "Not specified" /\
    formatDateTime (JSDate.toLocaleString west) [] = str "Not specified" /\
    formatDateTime (JSDate.toLocaleString west) (str "2024-03-14T09:30") =
    str "March 14, 2024" ++ glue ++ str "9:30" ++ periodSpace ++ str "AM".
Proof.
  intros parseOther eraYear glue periodSpace west utc east.
  repeat split; reflexivity.
Qed.

(* ================================================================== *)
(** ** Examples *)
(* ================================================================== *)

(** In "**a** *b*" the bold span is found at 0 and the italic span at 6. *)
Lemma bold_italic_never_tie_witness :
  let remaining := str "**a** *b*" in
  let b := MkCand bold_span [str "**a**"; []; str "a"] 0 in
  let i := MkCand italic_span [str "**a** *b*"; str "**a** "; str "b"] 6 in
  index b <> index i /\ index i = 6.
Proof.
  intros remaining b i. split; [|reflexivity].
  apply (bold_italic_never_tie remaining b i).
  - vm_compute. left. reflexivity.
  - vm_compute. right. left. reflexivity.
  - reflexivity.
  - reflexivity.
Defined.

(** The line " 12.  x": the digits "12", the dot, two spaces, the
    content. *)
Lemma ordered_line_shape_witness :
  exists ds ws,
    trim (str " 12.  x") = ds ++ chr "." :: ws ++ str "x" /\
    ds <> [] /\ forallb isDigit ds = true /\
    ws <> [] /\ forallb isWhiteSpace ws = true.
Proof.
  apply (ordered_line_shape (str " 12.  x") (str "x")).
  vm_compute. reflexivity.
Defined.

(** Two edits while the flag is set. *)
Lemma updates_dropped_while_flag_set_witness :
  let c := RichTextArea.MkComponent true (str "new") (Some (str "new")) 1 [] in
  RichTextArea.onChangeCalls
    (RichTextArea.run (fun s => s) (fun s => s) c
       (map RichTextArea.Update [str "<p>a</p>"; str "<p>ab</p>"])) = [].
Proof.
  intros c.
  destruct (updates_dropped_while_flag_set (fun s => s) (fun s => s)
              [str "<p>a</p>"; str "<p>ab</p>"] c) as (_ & H & _).
  - reflexivity.
  - exact H.
Defined.
